(** * Door-Garage-Opener: register protocol, frame streamer and debounce engine

    A shallow embedding of the firmware's core: the SPI register protocol
    (SPIBus), the CC1101 controller (Transceiver), the configuration applier,
    the SC41344 frame streamer and the circular debounce buffer.

    Stateful C++ code is written in a small state monad over the state of the
    device it drives; bytes are kept as [Z] with the fixed-width wrap-around
    written out. *)

From stdpp Require Import base list gmap.
From Stdlib Require Import ZArith Lia.

Local Open Scope Z_scope.

(** ** Fixed-width integers *)

Definition u8 (x : Z) : Z := x mod 256.
Definition u32 (x : Z) : Z := x mod 2 ^ 32.
Definition u64 (x : Z) : Z := x mod 2 ^ 64.
(** [size_t] is 16 bits wide on the AVR target (ATmega328P). *)
Definition size_t (x : Z) : Z := x mod 2 ^ 16.

#[global] Arguments u8 : simpl never.
#[global] Arguments u32 : simpl never.
#[global] Arguments u64 : simpl never.
#[global] Arguments size_t : simpl never.

(** ** State monad *)

Definition M (S A : Type) : Type := S -> A * S.

Definition ret {S A} (a : A) : M S A := fun s => (a, s).
Definition bind {S A B} (c : M S A) (k : A -> M S B) : M S B :=
  fun s => let (a, s') := c s in k a s'.

Notation "x <- c ;; k" := (bind c (fun x => k))
  (at level 65, c at next level, right associativity).
Notation "c ;;; k" := (bind c (fun _ => k))
  (at level 65, right associativity).

(** ** avr_algorithms.hpp *)

Module avr_algorithms.

(** [repeat(n, operation)]: [while (n-- > 0) operation();] *)
Definition repeat {S} (n : Z) (operation : M S unit) : M S unit :=
  fun s => (tt, Nat.iter (Z.to_nat n) (fun s => snd (operation s)) s).

(** [repeat_withExitCondition(n, operation)]:
    [while (n-- > 0) { if (!operation()) break; }] *)
Fixpoint repeat_loop {S} (fuel : nat) (operation : M S bool) : M S unit :=
  match fuel with
  | O => ret tt
  | S fuel' =>
      continue <- operation ;;
      if continue then repeat_loop fuel' operation else ret tt
  end.

Definition repeat_withExitCondition {S} (n : Z) (operation : M S bool)
  : M S unit :=
  repeat_loop (Z.to_nat n) operation.

(** [for_each_element(buffer, length, func)]: [func(buffer[i])] for every
    index in order; whatever [func] returns is dropped. *)
Fixpoint for_each_element {S T R} (buffer : list T) (func : T -> M S R)
  : M S unit :=
  match buffer with
  | [] => ret tt
  | x :: rest => func x ;;; for_each_element rest func
  end.

End avr_algorithms.

(** ** The SPI peripheral

    What the firmware sees of the hardware: a full-duplex byte exchange
    ([SPI.transfer]) and the chip-select line ([digitalWrite(_csnPin, ...)]).
    [SPI.beginTransaction] / [SPI.endTransaction] only apply the bus settings
    and exchange no byte. *)

Class SPIDevice (B : Type) := {
  spi_transfer : Z -> B -> Z * B;
  csn_write : bool -> B -> B
}.

(** ** CC1101_SPI_Config.h (SPI_MASK::Masks) *)

Module bitFlags.
Definition WriteSingle : Z := 0x7F.
Definition ReadSingle : Z := 0x80.
Definition writeBurstRegister : Z := 0x40.
Definition readBurstRegister : Z := 0xC0.
Definition AddressMask : Z := 0x3F.
Definition DummyByte : Z := 0x00.
End bitFlags.

(** ** CC1101.h *)

Module CC1101.
Module Address.
Definition FIFOTHR : Z := 0x03.
Definition FREQ2 : Z := 0x0D.
Definition FREQ1 : Z := 0x0E.
Definition FREQ0 : Z := 0x0F.
Definition MDMCFG3 : Z := 0x11.
Definition FREND0 : Z := 0x22.
Definition PATABLE : Z := 0x3E.
Definition PARTNUM : Z := 0x30.
Definition VERSION : Z := 0x31.
Definition MARCSTATE : Z := 0x35.
End Address.
Module Value.
Definition MDMCFG3 : Z := 0x83.
Definition FREND0 : Z := 0x11.
End Value.
Module Strobes.
Inductive Command : Type :=
  SRES | SFSTXON | SXOFF | SCAL | SRX | STX | SIDLE
| SWOR | SPWD | SFRX | SFTX | SWORRST | SNOP.
Definition code (c : Command) : Z :=
  match c with
  | SRES => 0x30 | SFSTXON => 0x31 | SXOFF => 0x32 | SCAL => 0x33
  | SRX => 0x34 | STX => 0x35 | SIDLE => 0x36 | SWOR => 0x38
  | SPWD => 0x39 | SFRX => 0x3A | SFTX => 0x3B | SWORRST => 0x3C
  | SNOP => 0x3D
  end.
End Strobes.
End CC1101.

(** ** SPIBus.h / SPIBus.cpp *)

Record ReadResult := mkReadResult { status : Z; value : Z }.

Definition isValid (r : ReadResult) : bool :=
  negb (status r =? 0xFF) && negb (value r =? 0xFF).

Module SPIBus.
Section Bus.
Context {B : Type} `{SPIDevice B}.

Definition selectDevice : M B unit := fun s => (tt, csn_write false s).
Definition deselectDevice : M B unit := fun s => (tt, csn_write true s).

(** [SPI.transfer] returns a [uint8_t]. *)
Definition transfer (data : Z) : M B Z :=
  fun s => let (r, s') := spi_transfer data s in (u8 r, s').

Definition applyTransaction {A} (operation : M B A) : M B unit :=
  selectDevice ;;; operation ;;; deselectDevice.

Definition transferByte (data : Z) : M B Z :=
  fun s =>
    let '(r, s1) := (selectDevice ;;; transfer data) s in
    (r, snd (deselectDevice s1)).

(** [data] is the caller's buffer, [None] for a null pointer; [data[i]] is
    read for [i < length], which the caller must have allocated. *)
Definition writeBurstRegister (address : Z) (data : option (list Z))
    (length : Z) : M B bool :=
  match data with
  | None => ret false
  | Some bytes =>
      if (length =? 0) || (length >? 64) then ret false
      else if negb (address =? 0x03) && negb (address =? 0x3F) then ret false
      else
        applyTransaction
          (transfer (Z.lor address bitFlags.writeBurstRegister) ;;;
           avr_algorithms.for_each_element
             (map (fun i => bytes !!! i) (seq 0 (Z.to_nat length)))
             transfer) ;;;
        ret true
  end.

(** One pass of the retry lambda of [readRegister]; [result] lives across
    the passes, so it is part of the loop state. *)
Definition readRegister_attempt (address : Z) : M (ReadResult * B) bool :=
  fun '(_, b) =>
    let '(st, b1) := (selectDevice ;;;
                      transfer (Z.lor address bitFlags.ReadSingle)) b in
    let '(v, b2) := transfer bitFlags.DummyByte b1 in
    let result := mkReadResult st v in
    (negb (isValid result), (result, snd (deselectDevice b2))).

Definition readRegister (address : Z) : M B ReadResult :=
  if address >? bitFlags.AddressMask then ret (mkReadResult 0xFF 0xFF)
  else
    fun s =>
      snd (avr_algorithms.repeat_withExitCondition 3
             (readRegister_attempt address) (mkReadResult 0xFF 0xFF, s)).

(** One pass of the retry lambda of [writeRegister]: [true] asks for
    another attempt. *)
Definition writeRegister_attempt (address val : Z) : M B bool :=
  applyTransaction
    (transfer (Z.land address bitFlags.WriteSingle) ;;; transfer val) ;;;
  readResult <- readRegister address ;;
  if isValid readResult && (value readResult =? val)
  then ret false
  else ret true.

Definition writeRegister (address val : Z) : M B bool :=
  if address >? bitFlags.AddressMask then ret false
  else
    avr_algorithms.repeat_withExitCondition 3
      (writeRegister_attempt address val) ;;;
    ret false.

End Bus.
End SPIBus.

(** ** Constants.h *)

Definition FRAME_REPEATS : Z := 3.
Definition THRESHOLD_DEBOUNCE : Z := 60.
Definition PATABLE_LOW_INDEX : Z := 0.
Definition PATABLE_MEDIUM_INDEX : Z := 4.
Definition PATABLE_HIGH_INDEX : Z := 7.
Definition paTable : list Z := [0x03; 0x0D; 0x1C; 0x34; 0x51; 0x85; 0xC8; 0xC0].

(** ** IBitEncoder.h and SC41344_FrameStreamer.h *)

Class IBitEncoder (E : Type) := {
  sendOne : M E unit;
  sendZero : M E unit;
  sendOpen : M E unit;
  sendSilence : M E unit;
  sendPreamble : M E unit;
  setIdle : M E unit
}.

Module SC41344_FrameStreamer.
Section Streamer.
Context {E : Type} `{IBitEncoder E}.

Definition sendBit (bit : Z) : M E unit :=
  if bit =? 1 then sendOne else sendZero.

Definition sendFrame (code_DataBits : list Z) : M E unit :=
  avr_algorithms.for_each_element code_DataBits sendBit ;;; sendOpen.

Definition streamFrame (code_DataBits : list Z) : M E unit :=
  sendPreamble ;;;
  sendFrame code_DataBits ;;;
  avr_algorithms.repeat FRAME_REPEATS
    (sendSilence ;;; sendFrame code_DataBits) ;;;
  setIdle.

End Streamer.
End SC41344_FrameStreamer.

(** An encoder that records which symbol was asked for, in call order. *)
Inductive Symbol : Type :=
  SymOne | SymZero | SymOpen | SymSilence | SymPreamble | SymIdle.

#[export] Instance Symbol_eq_dec : EqDecision Symbol.
Proof. solve_decision. Defined.

Definition emit (x : Symbol) : M (list Symbol) unit := fun t => (tt, t ++ [x]).

#[export] Instance SymbolRecorder : IBitEncoder (list Symbol) := {|
  sendOne := emit SymOne;
  sendZero := emit SymZero;
  sendOpen := emit SymOpen;
  sendSilence := emit SymSilence;
  sendPreamble := emit SymPreamble;
  setIdle := emit SymIdle
|}.

(** ** HelperConfigRegisters_CC1101.h *)

Record RegisterSettings := mkSetting {
  reg : Z;
  reg_value : Z;
  verify : bool
}.

Section ConfigApplier.
Context {S : Type}.
Variable writeRegister : Z -> Z -> M S bool.
Variable readRegister : Z -> M S Z.

(** The storage policy ([RAMStoragePolicy] / [PROGMEMStoragePolicy]) reads
    the three fields of the entry from wherever the table lives. *)
Definition writeAndVerifyRegister (regSettings : RegisterSettings) : M S bool :=
  let address := reg regSettings in
  let val := reg_value regSettings in
  ok <- writeRegister address val ;;
  if negb ok then ret false
  else if verify regSettings then
    writeValue <- readRegister address ;;
    if negb (writeValue =? val) then ret false else ret true
  else ret true.

Definition applyRegisterConfig_CC1101 (config : list RegisterSettings)
  : M S bool :=
  avr_algorithms.for_each_element config writeAndVerifyRegister ;;;
  ret true.

End ConfigApplier.

(** ** CC1101_Transceiver.h / CC1101_Transceiver.cpp *)

Module Transceiver.
Section Chip.
Context {B : Type} `{SPIDevice B}.
Import CC1101.

Definition writeRegister (address val : Z) : M B bool :=
  SPIBus.writeRegister address val.

Definition readRegister (address : Z) : M B ReadResult :=
  SPIBus.readRegister address.

Definition writeBurstRegister (address : Z) (data : option (list Z))
    (length : Z) : M B bool :=
  SPIBus.writeBurstRegister address data length.

(** The retry lambdas capture the local [success] by reference: it rides
    along in the loop state. *)
Definition strobeCommand_attempt (command : Strobes.Command)
  : M (bool * B) bool :=
  fun '(success, b) =>
    let '(_, b1) :=
      SPIBus.applyTransaction (SPIBus.transferByte (Strobes.code command)) b in
    let '(r, b2) := readRegister Address.PARTNUM b1 in
    if value r =? 0x00 then (false, (true, b2)) else (true, (success, b2)).

Definition strobeCommand (command : Strobes.Command) : M B bool :=
  fun s =>
    snd (avr_algorithms.repeat_withExitCondition 3
           (strobeCommand_attempt command) (false, s)).

Definition enterIdle_attempt : M (bool * B) bool :=
  fun '(success, b) =>
    let '(ok, b1) := strobeCommand Strobes.SIDLE b in
    if negb ok then (true, (success, b1)) else (false, (true, b1)).

Definition enterTx_attempt : M (bool * B) bool :=
  fun '(success, b) =>
    let '(ok, b1) := strobeCommand Strobes.STX b in
    if negb ok then (true, (success, b1))
    else
      let '(r, b2) := readRegister Address.MARCSTATE b1 in
      if negb (value r =? 0x13) then (true, (success, b2))
      else (false, (true, b2)).

(** [enableTransmitMode] is [void] in the source.  The embedding also hands
    back the final value of its local [success] (whether MARCSTATE read
    0x13 after STX) so that theorems can speak about it; no caller looks at
    it. *)
Definition enableTransmitMode : M B bool :=
  fun s =>
    let '(r, s1) := readRegister Address.MARCSTATE s in
    let '(idle_ok, s2) :=
      if negb (value r =? 0x01)
      then snd (avr_algorithms.repeat_withExitCondition 3
                  enterIdle_attempt (false, s1))
      else (true, s1) in
    if negb idle_ok then (false, s2)
    else snd (avr_algorithms.repeat_withExitCondition 3
                enterTx_attempt (false, s2)).

Definition configurePATable (powerLevelIndex : Z) : M B unit :=
  if powerLevelIndex >? 7 then ret tt
  else
    writeBurstRegister Address.PATABLE (Some paTable) 8 ;;;
    r <- readRegister Address.FREND0 ;;
    let frend0 := value r in
    let frend0 := u8 (Z.land frend0 (Z.lnot 0x07)) in
    let frend0 := u8 (Z.lor frend0 (Z.land powerLevelIndex 0x07)) in
    writeRegister Value.FREND0 frend0 ;;;
    ret tt.

Definition setPowerLevel (level : Z) : M B unit :=
  configurePATable (if level >? 7 then 7 else level).

Definition F_XOSC : Z := 26000000.

Definition tuningWord (frequencyHz : Z) : Z :=
  u32 (u64 (frequencyHz * Z.shiftl 1 16) / F_XOSC).

Definition setFrequency (frequencyHz : Z) : M B unit :=
  if (frequencyHz <? 300000000) || (frequencyHz >? 928000000) then ret tt
  else
    let freq := tuningWord frequencyHz in
    writeRegister Address.FREQ2 (Z.land (Z.shiftr freq 16) 0xFF) ;;;
    writeRegister Address.FREQ1 (Z.land (Z.shiftr freq 8) 0xFF) ;;;
    writeRegister Address.FREQ0 (Z.land freq 0xFF) ;;;
    ret tt.

(** [transmitFrame] drives the chip and, through the streamer, the encoder. *)
Definition transmitFrame {E : Type} `{IBitEncoder E}
    (code_DataBits : list Z) : M (B * E) bool :=
  fun '(b, e) =>
    let '(_, b1) := enableTransmitMode b in
    let '(_, e1) := SC41344_FrameStreamer.streamFrame code_DataBits e in
    let '(ok, b2) := strobeCommand Strobes.SIDLE b1 in
    if negb ok then (false, (b2, e1)) else (true, (b2, e1)).

End Chip.
End Transceiver.

(** ** A fake chip that stores writes honestly

    The test double of the register protocol: a register file behind the
    CC1101 header byte (bit 7 read, bit 6 burst, low six bits the address).
    It answers every header with its status byte, stores each data byte of a
    write access and returns the stored byte on a read access.  [wire] logs
    the bytes clocked out while the chip is selected, [stores] the register
    writes in the order they happened. *)

Inductive Phase : Type :=
| Deselected
| Header
| Data (rd burst : bool) (addr : Z).

Record FakeBus := mkFake {
  regs : gmap Z Z;
  chipStatus : Z;
  phase : Phase;
  wire : list Z;
  stores : list (Z * Z)
}.

Definition stored (f : FakeBus) (a : Z) : Z := default 0 (regs f !! a).

Definition next_phase (rd burst : bool) (a : Z) : Phase :=
  if burst then Data rd true (if a <? 0x3E then a + 1 else a) else Header.

Definition fake_transfer (b : Z) (f : FakeBus) : Z * FakeBus :=
  match phase f with
  | Deselected => (0xFF, f)
  | Header =>
      (chipStatus f,
       mkFake (regs f) (chipStatus f)
         (Data (Z.testbit b 7) (Z.testbit b 6) (Z.land b 0x3F))
         (wire f ++ [b]) (stores f))
  | Data true burst a =>
      (stored f a,
       mkFake (regs f) (chipStatus f) (next_phase true burst a)
         (wire f ++ [b]) (stores f))
  | Data false burst a =>
      (chipStatus f,
       mkFake (<[a := b]> (regs f)) (chipStatus f) (next_phase false burst a)
         (wire f ++ [b]) (stores f ++ [(a, b)]))
  end.

Definition fake_csn (level : bool) (f : FakeBus) : FakeBus :=
  mkFake (regs f) (chipStatus f) (if level then Deselected else Header)
    (wire f) (stores f).

#[export] Instance FakeBus_device : SPIDevice FakeBus :=
  {| spi_transfer := fake_transfer; csn_write := fake_csn |}.

(** A fake chip after power-up: every register reads zero. *)
Definition fake0 (st : Z) : FakeBus := mkFake ∅ st Deselected [] [].

(** A stand-in for the write/read callbacks of the configuration applier: it
    logs every write call and lets the write to [failing] report failure;
    reads answer the value last written to the address (zero if none). *)
Definition stub_write (failing : Z) (address val : Z) : M (list (Z * Z)) bool :=
  fun calls => (negb (address =? failing), calls ++ [(address, val)]).

Definition stub_read (address : Z) : M (list (Z * Z)) Z :=
  fun calls =>
    (default 0 (snd <$> last (filter (fun c => c.1 = address) calls)), calls).

Definition config3 : list RegisterSettings :=
  [ mkSetting 0x02 0x2E true; mkSetting 0x03 0x07 true; mkSetting 0x06 0xFF false ].

(** A fake chip whose FREND0 and MDMCFG3 hold their configured values. *)
Definition fake_configured : FakeBus :=
  mkFake (<[CC1101.Address.FREND0 := CC1101.Value.FREND0]>
            (<[CC1101.Address.MDMCFG3 := CC1101.Value.MDMCFG3]> ∅))
    0x0F Deselected [] [].

(** ** CircularDebounceBuffer.h / CircularDebounceBuffer.cpp *)

Module Debounce.

Definition BUFFER_SIZE : nat := 16.
Definition MAX_CALLBACKS : nat := 4.

(** A callback is a pointer to a zero-argument function: [None] is the
    null pointer, [Some n] the function named [n]. *)
Abbreviation Callback := (option nat).

(** The [Delay] member is a wall-clock timer; what [update] learns from it
    (has a sample interval elapsed?) is an input of the embedding. *)
Record CircularDebounceBuffer := mkDebounce {
  _isActiveLow : bool;
  _debouncing : bool;
  _stableState : bool;
  _pressedDetected : bool;
  _buffer : list bool;
  _head : nat;
  _thresholdPercentage : Z;
  _callbacks : list Callback;
  _callbackCounter : nat
}.

Definition set_buffer (buf : list bool) (head : nat) (d : CircularDebounceBuffer) :=
  mkDebounce (_isActiveLow d) (_debouncing d) (_stableState d)
    (_pressedDetected d) buf head (_thresholdPercentage d)
    (_callbacks d) (_callbackCounter d).

Definition set_flags (debouncing stable pressed : bool) (d : CircularDebounceBuffer) :=
  mkDebounce (_isActiveLow d) debouncing stable pressed (_buffer d) (_head d)
    (_thresholdPercentage d) (_callbacks d) (_callbackCounter d).

Definition clearBuffer (d : CircularDebounceBuffer) : CircularDebounceBuffer :=
  set_buffer (replicate BUFFER_SIZE false) 0 d.

(** The constructor leaves [_callbacks] uninitialised: [garbage] stands for
    whatever the four slots hold. *)
Definition construct (isActiveLow : bool) (garbage : list Callback)
  : CircularDebounceBuffer :=
  clearBuffer (mkDebounce isActiveLow false false false [] 0 90 garbage 0).

Definition setThreshold (percentage : Z) (d : CircularDebounceBuffer) :=
  if percentage <=? 100 then
    mkDebounce (_isActiveLow d) (_debouncing d) (_stableState d)
      (_pressedDetected d) (_buffer d) (_head d) percentage
      (_callbacks d) (_callbackCounter d)
  else d.

Definition addCallback (cb : Callback) (d : CircularDebounceBuffer) :=
  if (_callbackCounter d <? MAX_CALLBACKS)%nat then
    mkDebounce (_isActiveLow d) (_debouncing d) (_stableState d)
      (_pressedDetected d) (_buffer d) (_head d) (_thresholdPercentage d)
      (<[_callbackCounter d := cb]> (_callbacks d)) (S (_callbackCounter d))
  else d.

Definition startDebounce (d : CircularDebounceBuffer) :=
  if negb (_debouncing d) && negb (_stableState d) then
    clearBuffer (set_flags true (_stableState d) false d)
  else d.

Definition reset (d : CircularDebounceBuffer) :=
  let d := clearBuffer d in
  mkDebounce (_isActiveLow d) false false false (_buffer d) (_head d)
    (_thresholdPercentage d) (_callbacks d) 0.

Definition getStableState (d : CircularDebounceBuffer) : bool := _stableState d.

(** Step 4 of [update]: normalise the raw reading and store it at [_head]. *)
Definition insertSample (raw : bool) (d : CircularDebounceBuffer) :=
  let adjusted := if _isActiveLow d then negb raw else raw in
  set_buffer (<[_head d := adjusted]> (_buffer d))
    ((_head d + 1) mod BUFFER_SIZE)%nat d.

(** Step 5: [uint8_t trueCount], one increment per [true] slot. *)
Definition trueCount (d : CircularDebounceBuffer) : Z :=
  fold_left (fun (count : Z) (i : nat) =>
               if (_buffer d !!! i : bool) then u8 (count + 1) else count)
    (seq 0 BUFFER_SIZE) 0.

(** Step 6: [(BUFFER_SIZE * _thresholdPercentage + 99) / 100] in [size_t],
    narrowed to [uint8_t]. *)
Definition thresholdCount (d : CircularDebounceBuffer) : Z :=
  u8 (size_t (size_t (Z.of_nat BUFFER_SIZE * _thresholdPercentage d) + 99) / 100).

(** The loop that fires the callbacks: slots [0 .. _callbackCounter - 1],
    null pointers skipped.  The result lists the functions called, in call
    order. *)
Definition fireCallbacks (d : CircularDebounceBuffer) : list nat :=
  flat_map (fun i => match _callbacks d !! i with
                     | Some (Some cb) => [cb]
                     | _ => []
                     end) (seq 0 (_callbackCounter d)).

(** [update]: [elapsed] is what [isDelayTimeElapsed()] answers, [raw] what
    [digitalRead(_pin)] reads; the result lists the callbacks invoked by
    this call. *)
Definition update (elapsed raw : bool) : M CircularDebounceBuffer (list nat) :=
  fun d =>
    if negb (_debouncing d) then ([], d)
    else if negb elapsed then ([], d)
    else
      let d := insertSample raw d in
      let trueCount := trueCount d in
      let thresholdCount := thresholdCount d in
      if negb (_pressedDetected d) then
        if trueCount >=? thresholdCount then
          (fireCallbacks d, set_flags (_debouncing d) true true d)
        else ([], d)
      else
        if trueCount <=? size_t (Z.of_nat BUFFER_SIZE - thresholdCount) then
          ([], set_flags false false false (clearBuffer d))
        else ([], d).

(** A run of the engine over a sequence of raw readings, one per elapsed
    sample interval: the state before reading [k], the callbacks invoked by
    reading [k], and the [trueCount] computed while handling reading [k]. *)
Definition stateAt (d : CircularDebounceBuffer) (raws : list bool) (k : nat)
  : CircularDebounceBuffer :=
  fold_left (fun s raw => snd (update true raw s)) (take k raws) d.

Definition invokedAt (d : CircularDebounceBuffer) (raws : list bool) (k : nat)
  : list nat :=
  match raws !! k with
  | Some raw => fst (update true raw (stateAt d raws k))
  | None => []
  end.

Definition countAt (d : CircularDebounceBuffer) (raws : list bool) (k : nat) : Z :=
  match raws !! k with
  | Some raw => trueCount (insertSample raw (stateAt d raws k))
  | None => 0
  end.

End Debounce.

(** Helpers for stating the results below. *)

(** What [update] never changes. *)
Definition debounce_config (d : Debounce.CircularDebounceBuffer) :=
  (Debounce._isActiveLow d, Debounce._thresholdPercentage d,
   Debounce._callbacks d, Debounce._callbackCounter d).



Definition symbol_of_bit (bit : Z) : Symbol :=
  if bit =? 1 then SymOne else SymZero.

Definition word (bits : list Z) : list Symbol :=
  map symbol_of_bit bits ++ [SymOpen].

Definition read_result (f : FakeBus) (a : Z) : ReadResult :=
  mkReadResult (u8 (chipStatus f)) (u8 (stored f a)).

Definition after_read (f : FakeBus) (a : Z) : FakeBus :=
  mkFake (regs f) (chipStatus f) Deselected
    (wire f ++ [Z.lor a bitFlags.ReadSingle; bitFlags.DummyByte]) (stores f).

Definition after_write (f : FakeBus) (a v : Z) : FakeBus :=
  mkFake (<[a := v]> (regs f)) (chipStatus f) Deselected
    (wire f ++ [a; v]) (stores f ++ [(a, v)]).

(** Two fake chips that differ at most in the wire log and the phase. *)
Definition same_chip (f g : FakeBus) : Prop :=
  regs f = regs g /\ chipStatus f = chipStatus g /\ stores f = stores g.

(** The phases of a debounce session: armed with no press fired yet, press
    fired and waiting for the release, and the states in which no callback
    can fire. *)
Definition fresh (s : Debounce.CircularDebounceBuffer) : Prop :=
  Debounce._debouncing s = true /\ Debounce._pressedDetected s = false.
Definition held (s : Debounce.CircularDebounceBuffer) : Prop :=
  Debounce._debouncing s = true /\ Debounce._pressedDetected s = true /\
  Debounce._stableState s = true.
Definition quiet (s : Debounce.CircularDebounceBuffer) : Prop :=
  Debounce._pressedDetected s = true \/ Debounce._debouncing s = false.

From Stdlib Require String Ascii.
Import String.StringSyntax Ascii.AsciiSyntax.
Delimit Scope string_scope with string.
Delimit Scope char_scope with char.

(** * Further code of the firmware *)

(** ** avr_algorithms.hpp, the remaining algorithms

    Callables are state transformers, as above; a range [begin, end) is the
    list of its elements and an iterator into it the index it points at. *)

Module avr_more.

(** [for_each_until(buffer, length, func)]: stops at the first element for
    which [func] answers [false]. *)
Fixpoint for_each_until {St T} (buffer : list T) (func : T -> M St bool)
  : M St bool :=
  match buffer with
  | [] => ret true
  | x :: rest =>
      ok <- func x ;;
      if ok then for_each_until rest func else ret false
  end.

(** [find_if_impl(begin, end, predicate)]: [it] is the index of the element
    looked at; the result is the index found, or that of [end]. *)
Fixpoint find_if_impl {St T} (range : list T) (predicate : T -> M St bool)
    (it : nat) : M St nat :=
  match range with
  | [] => ret it
  | x :: rest =>
      hit <- predicate x ;;
      if hit then ret it else find_if_impl rest predicate (S it)
  end.

Definition find_if {St T} (array : list T) (predicate : T -> M St bool)
  : M St nat :=
  find_if_impl array predicate 0.

(** [count_if_impl]: [size_t count = 0; ... ++count]. *)
Fixpoint count_if_loop {St T} (range : list T) (predicate : T -> M St bool)
    (count : Z) : M St Z :=
  match range with
  | [] => ret count
  | x :: rest =>
      hit <- predicate x ;;
      count_if_loop rest predicate (if hit then size_t (count + 1) else count)
  end.

Definition count_if {St T} (array : list T) (predicate : T -> M St bool)
  : M St Z :=
  count_if_loop array predicate 0.

(** [count_impl]: the elements equal to [value]. *)
Fixpoint count_loop {T} `{EqDecision T} (range : list T) (value : T)
    (count : Z) : Z :=
  match range with
  | [] => count
  | x :: rest =>
      count_loop rest value
        (if decide (x = value) then size_t (count + 1) else count)
  end.

Definition count {T} `{EqDecision T} (array : list T) (value : T) : Z :=
  count_loop array value 0.

(** [copy_impl(begin, end, dest_first, max_count)]: [dest] is the memory
    behind [dest_first], [pos] how far the output iterator has moved.  The
    result is the memory and the final position of the output iterator.  A
    write past the end of [dest] is undefined in C++; here it is dropped. *)
Fixpoint copy_impl {T} (range : list T) (dest : list T) (pos : nat)
    (max_count : nat) : list T * nat :=
  match range, max_count with
  | x :: rest, S max_count' =>
      copy_impl rest (<[pos := x]> dest) (S pos) max_count'
  | _, _ => (dest, pos)
  end.

(** [copy(begin, end, dest_first, dest_size)]: the memory after the call and
    the number of elements copied. *)
Definition copy {T} (range : list T) (dest : list T) (dest_size : nat)
  : list T * nat :=
  let range :=
    if (dest_size <? length range)%nat then take dest_size range else range in
  let copied_count :=
    if (length range <? dest_size)%nat then length range else dest_size in
  (fst (copy_impl range dest 0 copied_count), copied_count).

(** [remove_if_impl(begin, end, predicate)] on the array [arr]: [it] and
    [write_it] are indices into it, [n] the number of elements still to
    look at.  The result is the array and the index of the new end. *)
Fixpoint remove_if_impl {St T} (predicate : T -> M St bool) (arr : list T)
    (it write_it n : nat) : M St (list T * nat) :=
  match n with
  | O => ret (arr, write_it)
  | S n' =>
      match arr !! it with
      | None => ret (arr, write_it)
      | Some x =>
          drop_it <- predicate x ;;
          if drop_it then remove_if_impl predicate arr (S it) write_it n'
          else remove_if_impl predicate (<[write_it := x]> arr)
                 (S it) (S write_it) n'
      end
  end.

Definition remove_if {St T} (array : list T) (predicate : T -> M St bool)
  : M St (list T * nat) :=
  remove_if_impl predicate array 0 0 (length array).

End avr_more.

(** A callable that answers with the pure predicate [p] and logs the
    elements it is called on, in call order. *)
Definition observe {T} (p : T -> bool) : T -> M (list T) bool :=
  fun x calls => (p x, calls ++ [x]).

(** The longest prefix of [l] on which [p] holds. *)
Fixpoint prefix_while {T} (p : T -> bool) (l : list T) : list T :=
  match l with
  | [] => []
  | x :: rest => if p x then x :: prefix_while p rest else []
  end.

(** The state after [i] calls of [operation] and the answer of call [i]. *)
Definition after_calls {St} (operation : M St bool) (s : St) (i : nat) : St :=
  Nat.iter i (fun s => snd (operation s)) s.

Definition answer {St} (operation : M St bool) (s : St) (i : nat) : bool :=
  fst (operation (after_calls operation s i)).

(** ** SPIBus.cpp, the burst read *)

Module SPIBus_more.
Section Bus.
Context {B : Type} `{SPIDevice B}.

Definition validateParameters (address : Z) (buffer : option (list Z))
    (length : Z) : bool :=
  if length >? 64 then false
  else if Z.land address bitFlags.AddressMask >? bitFlags.AddressMask then false
  else match buffer with
       | None => false
       | Some _ => true
       end.

(** The lambda [performBurstRead] runs on every slot of the buffer; it
    captures [allFFs] by reference, and the slot it is handed is
    [buffer[index]]. *)
Definition burst_byte (index : nat) : M (bool * list Z * B) unit :=
  fun '(allFFs, buffer, b) =>
    let '(data, b1) := SPIBus.transfer bitFlags.DummyByte b in
    (tt, (if negb (data =? 0xFF) then false else allFFs,
          <[index := data]> buffer, b1)).

(** The result carries the buffer as the call leaves it.  The caller must
    have allocated [length] slots; a write past them is undefined in C++ and
    dropped here. *)
Definition performBurstRead (address : Z) (buffer : list Z) (length : Z)
  : M B (bool * list Z) :=
  fun s =>
    let '(_, s1) :=
      (SPIBus.selectDevice ;;;
       SPIBus.transfer (Z.lor address bitFlags.readBurstRegister)) s in
    let '(_, (allFFs, buffer', s2)) :=
      avr_algorithms.for_each_element (seq 0 (Z.to_nat length)) burst_byte
        (true, buffer, s1) in
    ((if allFFs then false else true, buffer'), snd (SPIBus.deselectDevice s2)).

Definition readBurstRegister_attempt (address length : Z)
  : M (list Z * B) bool :=
  fun '(buffer, b) =>
    let '((ok, buffer'), b1) := performBurstRead address buffer length b in
    if ok then (false, (buffer', b1)) else (true, (buffer', b1)).

Definition readBurstRegister (address : Z) (buffer : option (list Z))
    (length : Z) : M B (bool * option (list Z)) :=
  if negb (validateParameters address buffer length) then ret (true, buffer)
  else
    match buffer with
    | None => ret (true, None)
    | Some slots =>
        fun s =>
          let '(_, (slots', s')) :=
            avr_algorithms.repeat_withExitCondition 3
              (readBurstRegister_attempt address length) (slots, s) in
          ((false, Some slots'), s')
    end.

End Bus.
End SPIBus_more.

(** ** ChipStateUtil.cpp, SPIBus.h (StatusInfo) *)

Record StatusInfo := mkStatusInfo { chipState : Z; fifoBytes : Z }.

Definition bitFlags_ChipState : Z := 0x0F.
Definition bitFlags_FIFObytes : Z := 0x0F.

Definition chipStateToString (chipState : Z) : String.string :=
  let nibble := Z.land (Z.shiftr chipState 4) 0x0F in
  if nibble =? 0x00 then "IDLE"%string
  else if nibble =? 0x01 then "RX"%string
  else if nibble =? 0x02 then "TX"%string
  else if nibble =? 0x03 then "FSTXON"%string
  else if nibble =? 0x04 then "CALIBRATING"%string
  else if nibble =? 0x05 then "SETTLING"%string
  else if nibble =? 0x06 then "RX FIFO OVERFLOW"%string
  else if nibble =? 0x07 then "TX FIFO UNDERFLOW"%string
  else "UNKNOWN"%string.

(** The state name [StatusInfo::toString] puts into its message: it hands
    the [chipState] field to [chipStateToString]. *)
Definition StatusInfo_stateStr (info : StatusInfo) : String.string :=
  chipStateToString (chipState info).

(** ** CC1101_Transceiver.cpp and TransceiverConfig.cpp, the remaining
    operations *)

Inductive OutputPowerLevels : Type := HIGH_POWER | MEDIUM_POWER | LOW_POWER.

Definition getPATableIndex (powerLevel : OutputPowerLevels) : Z :=
  match powerLevel with
  | LOW_POWER => PATABLE_LOW_INDEX
  | MEDIUM_POWER => PATABLE_MEDIUM_INDEX
  | HIGH_POWER => PATABLE_HIGH_INDEX
  end.

Definition decodeStatus (readResult : ReadResult) : StatusInfo :=
  {| fifoBytes := Z.land (status readResult) bitFlags_FIFObytes;
     chipState := Z.land (Z.shiftr (status readResult) 4) bitFlags_ChipState |}.

(** What a call does: it returns a value, or it reads through a null
    pointer, which is undefined behaviour in C++. *)
Inductive Outcome (A : Type) : Type :=
| Returns (a : A)
| ReadsNull.

#[global] Arguments Returns {A} a.
#[global] Arguments ReadsNull {A}.

Module Transceiver_more.
Section Chip.
Context {B : Type} `{SPIDevice B}.

Definition verifyChipId : M B bool :=
  result <- SPIBus.readRegister 0x30 ;;
  if value result =? 0x00 then ret true else ret false.

Definition sleep : M B unit :=
  Transceiver.strobeCommand CC1101.Strobes.SPWD ;;; ret tt.

Definition writePATABLE (powerLevel : OutputPowerLevels) : M B unit :=
  Transceiver.configurePATable (getPATableIndex powerLevel).

(** [for_each_element(paTable, 8, ...)] in the success branch of
    [readBackPATABLE]: the lambda is handed [paTable[i]] for i = 0..7, logs
    it and answers [true].  The state is the list of bytes read so far, or
    the fault of a read through a null pointer.  The caller must have
    allocated eight slots. *)
Definition log_byte (table : option (list Z)) (i : nat)
  : M (Outcome (list Z)) bool :=
  fun out =>
    match out, table with
    | Returns logged, Some slots => (true, Returns (logged ++ [slots !!! i]))
    | _, _ => (true, ReadsNull)
    end.

Definition log_table (table : option (list Z)) : Outcome (list Z) :=
  snd (avr_algorithms.for_each_element (seq 0 8) (log_byte table) (Returns [])).

(** The result carries the caller's buffer as the call leaves it. *)
Definition readBackPATABLE (table : option (list Z))
  : M B (Outcome bool * option (list Z)) :=
  if CC1101.Address.PATABLE >? bitFlags.AddressMask
  then ret (Returns false, table)
  else
    r <- SPIBus_more.readBurstRegister CC1101.Address.PATABLE table 8 ;;
    if fst r then
      match log_table (snd r) with
      | Returns _ => ret (Returns (fst r), snd r)
      | ReadsNull => ret (ReadsNull, snd r)
      end
    else ret (Returns false, snd r).

(** Step 3 of [begin()]: the register table goes through the applier with
    the two lambdas of [begin()] as write and read callbacks. *)
Definition writeLambda (addr val : Z) : M B bool :=
  SPIBus.writeRegister addr val.

Definition readLambda (addr : Z) : M B Z :=
  r <- SPIBus.readRegister addr ;; ret (value r).

Definition begin_applyConfig (config : list RegisterSettings) : M B bool :=
  applyRegisterConfig_CC1101 writeLambda readLambda config.

End Chip.
End Transceiver_more.


(** The bytes one attempt of [strobeCommand] puts on the wire of the fake
    chip: the command, then the PARTNUM read with its own retries. *)
Definition strobe_wire (c : Z) (f : FakeBus) : list Z :=
  c :: concat (replicate
                 (if isValid (read_result f CC1101.Address.PARTNUM) then 1%nat else 3%nat)
                 [Z.lor CC1101.Address.PARTNUM bitFlags.ReadSingle; bitFlags.DummyByte]).

(** What the register table leaves in the register file and in the store
    log of the fake chip. *)
Definition config_regs (config : list RegisterSettings) (m : gmap Z Z) : gmap Z Z :=
  fold_left (fun m rs => <[reg rs := reg_value rs]> m) config m.

Definition config_stores (st : Z) (config : list RegisterSettings) : list (Z * Z) :=
  flat_map (fun rs =>
              replicate (if negb (u8 st =? 0xFF) && negb (reg_value rs =? 0xFF)
                         then 1%nat else 3%nat)
                        (reg rs, reg_value rs)) config.

Definition valid_entry (rs : RegisterSettings) : Prop :=
  0 <= reg rs <= 0x3F /\ 0 <= reg_value rs <= 255.

(** How often the byte of a strobe command has gone out to the fake chip.
    The headers of the register reads carry bit 7 and the dummy byte is
    zero, so only command strobes are counted. *)
Definition clocked (c : CC1101.Strobes.Command) (f : FakeBus) : nat :=
  count_occ Z.eq_dec (wire f) (CC1101.Strobes.code c).

(** ** The debounce engine under any sequence of calls

    The public interface of [CircularDebounceBuffer] as a type of calls;
    [setThreshold] takes a [uint8_t]. *)

Inductive DebounceCall : Type :=
| CallStartDebounce
| CallUpdate (elapsed raw : bool)
| CallSetThreshold (percentage : Z)
| CallAddCallback (cb : option nat)
| CallReset.

Definition runCall (d : Debounce.CircularDebounceBuffer) (c : DebounceCall)
  : Debounce.CircularDebounceBuffer :=
  match c with
  | CallStartDebounce => Debounce.startDebounce d
  | CallUpdate elapsed raw => snd (Debounce.update elapsed raw d)
  | CallSetThreshold percentage => Debounce.setThreshold (u8 percentage) d
  | CallAddCallback cb => Debounce.addCallback cb d
  | CallReset => Debounce.reset d
  end.

Definition runCalls (d : Debounce.CircularDebounceBuffer) (calls : list DebounceCall)
  : Debounce.CircularDebounceBuffer :=
  fold_left runCall calls d.

Definition well_formed (d : Debounce.CircularDebounceBuffer) : Prop :=
  length (Debounce._buffer d) = Debounce.BUFFER_SIZE /\
  (Debounce._head d < Debounce.BUFFER_SIZE)%nat /\
  0 <= Debounce._thresholdPercentage d <= 100 /\
  length (Debounce._callbacks d) = Debounce.MAX_CALLBACKS /\
  (Debounce._callbackCounter d <= Debounce.MAX_CALLBACKS)%nat /\
  Debounce._stableState d = Debounce._pressedDetected d /\
  (Debounce._pressedDetected d = true -> Debounce._debouncing d = true) /\
  (Debounce._debouncing d = false ->
   Debounce._buffer d = replicate Debounce.BUFFER_SIZE false /\ Debounce._head d = 0%nat).

(** The reading as [update] stores it, and the readings that are still in
    the ring buffer once reading [k] of a session has been stored. *)
Definition adjusted (isActiveLow raw : bool) : bool :=
  if isActiveLow then negb raw else raw.

Definition window (k : nat) (raws : list bool) : list bool :=
  drop (S k - Debounce.BUFFER_SIZE) (take (S k) raws).

Definition ring {A} (h : nat) (w : list A) : list A :=
  drop (Debounce.BUFFER_SIZE - h) w ++ take (Debounce.BUFFER_SIZE - h) w.

Definition history (isActiveLow : bool) (raws : list bool) (k : nat) : list bool :=
  drop k (replicate Debounce.BUFFER_SIZE false ++ map (adjusted isActiveLow) (take k raws)).

(** ** Delay.h / Delay.cpp

    [micros()] is the 32-bit microsecond counter of the board.  Every call
    of it is an input of the embedding: [isDelayTimeElapsed] reads it once
    for [now] and, when the delay has elapsed, a second time inside
    [restartTimer]. *)

Module Delay.

Record Delay := mkDelay {
  delayTime : Z;
  previousTime : Z
}.

Definition construct (delayTime : Z) : Delay := mkDelay delayTime 0.

(** [init()] assigns the member [delayTime] to itself. *)
Definition init (micros : Z) (d : Delay) : Delay :=
  mkDelay (delayTime d) micros.

Definition init_with (delayTime micros : Z) (d : Delay) : Delay :=
  mkDelay delayTime micros.

Definition restartTimer (micros : Z) (d : Delay) : Delay :=
  mkDelay (delayTime d) micros.

Definition isDelayTimeElapsed (now micros : Z) : M Delay bool :=
  fun d =>
    if u32 (now - previousTime d) >=? delayTime d
    then (true, restartTimer micros d)
    else (false, d).

Definition updateDelayTime (newDelayTime : Z) (d : Delay) : Delay :=
  mkDelay newDelayTime (previousTime d).

End Delay.

(** ** DigitalPin.h

    The I/O registers of the three ports of the ATmega328P. *)

Module DigitalPin.

Inductive Reg : Type :=
  DDRB | PORTB | PINB | DDRC | PORTC | PINC | DDRD | PORTD | PIND.

#[export] Instance Reg_eq_dec : EqDecision Reg.
Proof. solve_decision. Defined.

Record Ports := mkPorts {
  ddrb : Z; portb : Z; pinb : Z;
  ddrc : Z; portc : Z; pinc : Z;
  ddrd : Z; portd : Z; pind : Z
}.

Definition get_reg (r : Reg) (p : Ports) : Z :=
  match r with
  | DDRB => ddrb p | PORTB => portb p | PINB => pinb p
  | DDRC => ddrc p | PORTC => portc p | PINC => pinc p
  | DDRD => ddrd p | PORTD => portd p | PIND => pind p
  end.

Definition set_reg (r : Reg) (v : Z) (p : Ports) : Ports :=
  match r with
  | DDRB => mkPorts v (portb p) (pinb p) (ddrc p) (portc p) (pinc p) (ddrd p) (portd p) (pind p)
  | PORTB => mkPorts (ddrb p) v (pinb p) (ddrc p) (portc p) (pinc p) (ddrd p) (portd p) (pind p)
  | PINB => mkPorts (ddrb p) (portb p) v (ddrc p) (portc p) (pinc p) (ddrd p) (portd p) (pind p)
  | DDRC => mkPorts (ddrb p) (portb p) (pinb p) v (portc p) (pinc p) (ddrd p) (portd p) (pind p)
  | PORTC => mkPorts (ddrb p) (portb p) (pinb p) (ddrc p) v (pinc p) (ddrd p) (portd p) (pind p)
  | PINC => mkPorts (ddrb p) (portb p) (pinb p) (ddrc p) (portc p) v (ddrd p) (portd p) (pind p)
  | DDRD => mkPorts (ddrb p) (portb p) (pinb p) (ddrc p) (portc p) (pinc p) v (portd p) (pind p)
  | PORTD => mkPorts (ddrb p) (portb p) (pinb p) (ddrc p) (portc p) (pinc p) (ddrd p) v (pind p)
  | PIND => mkPorts (ddrb p) (portb p) (pinb p) (ddrc p) (portc p) (pinc p) (ddrd p) (portd p) v
  end.

(** [REG |= (1 << pin)] and [REG &= ~(1 << pin)] on an 8-bit register; the
    shift is done in [int], which holds it for the pins 0..7 of a port. *)
Definition set_bit (r : Reg) (pin : Z) : M Ports unit :=
  fun p => (tt, set_reg r (u8 (Z.lor (get_reg r p) (Z.shiftl 1 pin))) p).

Definition clear_bit (r : Reg) (pin : Z) : M Ports unit :=
  fun p => (tt, set_reg r (u8 (Z.land (get_reg r p) (Z.lnot (Z.shiftl 1 pin)))) p).

Record DigitalPin := mkPin {
  port : Ascii.ascii;
  pin : Z
}.

(** The registers the [switch (port)] selects: data direction, output and
    input register, none in the [default] case. *)
Definition port_regs (port : Ascii.ascii) : option (Reg * Reg * Reg) :=
  if Ascii.eqb port "B"%char then Some (DDRB, PORTB, PINB)
  else if Ascii.eqb port "C"%char then Some (DDRC, PORTC, PINC)
  else if Ascii.eqb port "D"%char then Some (DDRD, PORTD, PIND)
  else None.

Definition pinConfig (d : DigitalPin) (input pullup : bool) : M Ports unit :=
  match port_regs (port d) with
  | Some (ddr, out, _) =>
      if input then
        clear_bit ddr (pin d) ;;;
        if pullup then set_bit out (pin d) else ret tt
      else set_bit ddr (pin d)
  | None => ret tt
  end.

Definition writePin (d : DigitalPin) (data : Z) : M Ports unit :=
  match port_regs (port d) with
  | Some (_, out, _) =>
      if negb (data =? 0) then set_bit out (pin d) else clear_bit out (pin d)
  | None => ret tt
  end.

Definition HIGH : Z := 1.
Definition LOW : Z := 0.

Definition readPin (d : DigitalPin) : M Ports Z :=
  match port_regs (port d) with
  | Some (_, _, inp) =>
      fun p => (if negb (Z.land (get_reg inp p) (Z.shiftl 1 (pin d)) =? 0)
                then HIGH else LOW, p)
  | None => ret 0
  end.

End DigitalPin.

(** ** SC41344_Encoder.cpp

    The encoder drives one pin and waits with [delayMicroseconds]: the board
    is the I/O registers together with the waveform so far, one segment per
    wait (the registers during the wait and its length in microseconds). *)

Definition SHORT_HIGH_US : Z := 300.
Definition SHORT_LOW_US : Z := 300.
Definition LONG_HIGH_US : Z := 2200.
Definition LONG_LOW_US : Z := 2200.
Definition PREAMBLE_LOW_DURATION_US : Z := 10000.
Definition DIGIT_PERIOD_US : Z := 5000.
Definition FRAME_SILENCE_BETWEEN_WORDS : Z := 3 * DIGIT_PERIOD_US.

Record Board := mkBoard {
  io : DigitalPin.Ports;
  wave : list (DigitalPin.Ports * Z)
}.

Definition delayMicroseconds (us : Z) : M Board unit :=
  fun b => (tt, mkBoard (io b) (wave b ++ [(io b, us)])).

Definition on_io {A} (c : M DigitalPin.Ports A) : M Board A :=
  fun b => let '(a, p) := c (io b) in (a, mkBoard p (wave b)).

Module SC41344_Encoder.
Section Encoder.
Variable _GDO0_pin : DigitalPin.DigitalPin.

Definition writePin (data : Z) : M Board unit :=
  on_io (DigitalPin.writePin _GDO0_pin data).

(** The log output of the verbose build is left out. *)
Definition begin : M Board unit :=
  on_io (DigitalPin.pinConfig _GDO0_pin false false) ;;;
  writePin DigitalPin.HIGH.

Definition streamOneBitSeq : M Board unit :=
  writePin DigitalPin.HIGH ;;; delayMicroseconds LONG_HIGH_US ;;;
  writePin DigitalPin.LOW ;;; delayMicroseconds SHORT_LOW_US.

Definition sendOne : M Board unit := avr_algorithms.repeat 2 streamOneBitSeq.

Definition streamZeroBitSeq : M Board unit :=
  writePin DigitalPin.HIGH ;;; delayMicroseconds SHORT_HIGH_US ;;;
  writePin DigitalPin.LOW ;;; delayMicroseconds LONG_LOW_US.

Definition sendZero : M Board unit := avr_algorithms.repeat 2 streamZeroBitSeq.

Definition sendOpen : M Board unit :=
  writePin DigitalPin.HIGH ;;; delayMicroseconds LONG_HIGH_US ;;;
  writePin DigitalPin.LOW ;;; delayMicroseconds SHORT_LOW_US ;;;
  writePin DigitalPin.HIGH ;;; delayMicroseconds SHORT_HIGH_US ;;;
  writePin DigitalPin.LOW ;;; delayMicroseconds LONG_LOW_US.

Definition sendSilence : M Board unit :=
  writePin DigitalPin.LOW ;;; delayMicroseconds FRAME_SILENCE_BETWEEN_WORDS ;;;
  writePin DigitalPin.HIGH.

Definition sendPreamble : M Board unit :=
  writePin DigitalPin.LOW ;;; delayMicroseconds PREAMBLE_LOW_DURATION_US.

Definition setIdle : M Board unit := writePin DigitalPin.HIGH.

End Encoder.
End SC41344_Encoder.

Definition PinEncoder (gdo0 : DigitalPin.DigitalPin) : IBitEncoder Board := {|
  sendOne := SC41344_Encoder.sendOne gdo0;
  sendZero := SC41344_Encoder.sendZero gdo0;
  sendOpen := SC41344_Encoder.sendOpen gdo0;
  sendSilence := SC41344_Encoder.sendSilence gdo0;
  sendPreamble := SC41344_Encoder.sendPreamble gdo0;
  setIdle := SC41344_Encoder.setIdle gdo0
|}.

(** The level the output register holds for the pin, the waveform as seen
    on the pin, and the time a waveform takes. *)
Definition pin_level (d : DigitalPin.DigitalPin) (p : DigitalPin.Ports) : bool :=
  match DigitalPin.port_regs (DigitalPin.port d) with
  | Some (_, out, _) => Z.testbit (DigitalPin.get_reg out p) (DigitalPin.pin d)
  | None => false
  end.

Definition levels (d : DigitalPin.DigitalPin) (segments : list (DigitalPin.Ports * Z))
  : list (bool * Z) :=
  map (fun seg => (pin_level d (fst seg), snd seg)) segments.

Definition duration {A} (segments : list (A * Z)) : Z :=
  fold_right (fun seg total => snd seg + total) 0 segments.

Definition valid_pin (d : DigitalPin.DigitalPin) : Prop :=
  is_Some (DigitalPin.port_regs (DigitalPin.port d)) /\ 0 <= DigitalPin.pin d < 8.

Definition symbol_levels (x : Symbol) : list (bool * Z) :=
  match x with
  | SymOne => [(true, 2200); (false, 300); (true, 2200); (false, 300)]
  | SymZero => [(true, 300); (false, 2200); (true, 300); (false, 2200)]
  | SymOpen => [(true, 2200); (false, 300); (true, 300); (false, 2200)]
  | SymSilence => [(false, 15000)]
  | SymPreamble => [(false, 10000)]
  | SymIdle => []
  end.

(** The encoder call a recorded symbol stands for. *)
Definition perform {E} `{IBitEncoder E} (x : Symbol) : M E unit :=
  match x with
  | SymOne => sendOne
  | SymZero => sendZero
  | SymOpen => sendOpen
  | SymSilence => sendSilence
  | SymPreamble => sendPreamble
  | SymIdle => setIdle
  end.

Definition performAll {E} `{IBitEncoder E} (xs : list Symbol) (e : E) : E :=
  fold_left (fun e x => snd (perform x e)) xs e.

Definition frame_symbols (bits : list Z) : list Symbol :=
  [SymPreamble] ++ word bits
  ++ concat (replicate (Z.to_nat FRAME_REPEATS) (SymSilence :: word bits))
  ++ [SymIdle].

(** ** CC1101_315MHZ_OOK_Config.h and the rest of [Transceiver::begin()]

    [std::array<RegisterSettings, N>] with fewer than [N] initialisers:
    the remaining elements are value-initialised. *)

Definition NUM_REG_TO_CONFIG_CC1101 : nat := 24.
Definition VERIFY : bool := true.
Definition SKIP_VERIFY : bool := false.

Definition std_array (N : nat) (initialisers : list RegisterSettings)
  : list RegisterSettings :=
  initialisers ++ replicate (N - length initialisers) (mkSetting 0 0 false).

Module Config_315MHz_OOK.

Definition setting_Regs : list RegisterSettings :=
  std_array NUM_REG_TO_CONFIG_CC1101
    [ mkSetting 0x02 0x2E VERIFY;        (* IOCFG0 *)
      mkSetting 0x03 0x07 VERIFY;        (* FIFOTHR *)
      mkSetting 0x06 0xFF SKIP_VERIFY;   (* PKTLEN *)
      mkSetting 0x08 0x32 VERIFY;        (* PKTCTRL0 *)
      mkSetting 0x0B 0x06 VERIFY;        (* FSCTRL1 *)
      mkSetting 0x0C 0x00 VERIFY;        (* FSCTRL0 *)
      mkSetting 0x0D 0x0C VERIFY;        (* FREQ2 *)
      mkSetting 0x0E 0x1C VERIFY;        (* FREQ1 *)
      mkSetting 0x0F 0xEC VERIFY;        (* FREQ0 *)
      mkSetting 0x10 0xF5 VERIFY;        (* MDMCFG4 *)
      mkSetting 0x11 0x83 VERIFY;        (* MDMCFG3 *)
      mkSetting 0x12 0x30 VERIFY;        (* MDMCFG2 *)
      mkSetting 0x13 0x02 VERIFY;        (* MDMCFG1 *)
      mkSetting 0x15 0x15 SKIP_VERIFY;   (* DEVIATN *)
      mkSetting 0x17 0x30 VERIFY;        (* MCSM1 *)
      mkSetting 0x18 0x18 VERIFY;        (* MCSM0 *)
      mkSetting 0x20 0xFB VERIFY;        (* WORCTRL *)
      mkSetting 0x21 0xB6 VERIFY;        (* FREND1 *)
      mkSetting 0x22 0x11 VERIFY;        (* FREND0 *)
      mkSetting 0x23 0xE9 SKIP_VERIFY;   (* FSCAL3 *)
      mkSetting 0x24 0x2A SKIP_VERIFY;   (* FSCAL2 *)
      mkSetting 0x25 0x00 SKIP_VERIFY;   (* FSCAL1 *)
      mkSetting 0x26 0x1F SKIP_VERIFY ]. (* FSCAL0 *)

End Config_315MHz_OOK.

Module Transceiver_begin.
Section Chip.
Context {B : Type} `{SPIDevice B}.

(** Step 5 of [begin()]: the retry lambda captures the local [success]. *)
Definition check_attempt : M (bool * B) bool :=
  fun '(success, b) =>
    let '(r, b1) := Transceiver.readRegister CC1101.Address.PARTNUM b in
    if negb (value r =? 0x00) then (true, (success, b1))
    else
      let '(r2, b2) := Transceiver.readRegister CC1101.Address.VERSION b1 in
      if negb (value r2 =? 0x14) then (true, (success, b2))
      else (false, (true, b2)).

(** [begin()] from step 3 on, after the SPI set-up and the reset: the
    register table, the power table, the identity check.  [paTableIndex] is
    what [_transceiver_config.getPATableIndex()] answers. *)
Definition begin_from_step3 (config : list RegisterSettings) (paTableIndex : Z)
  : M B bool :=
  fun b =>
    let '(_, b1) := Transceiver_more.begin_applyConfig config b in
    let '(_, b2) := Transceiver.configurePATable paTableIndex b1 in
    let '(success, b3) :=
      snd (avr_algorithms.repeat_withExitCondition 3 check_attempt (false, b2)) in
    if negb success then (false, b3) else (true, b3).

End Chip.
End Transceiver_begin.
(** * Properties *)

(** ** Generic facts about the retry loop and the address byte *)

Lemma bind_run {S A B} (c : M S A) (k : A -> M S B) (s : S) (a : A) (s1 : S) :
  c s = (a, s1) -> bind c k s = k a s1.
Proof. intros Hc. unfold bind. by rewrite Hc. Qed.

Lemma repeat_loop_inv {S} (I : S -> Prop) (operation : M S bool) :
  (forall s, I s -> I (snd (operation s))) ->
  forall fuel s, I s -> I (snd (avr_algorithms.repeat_loop fuel operation s)).
Proof.
  intros Hop fuel. induction fuel as [|fuel IH]; intros s Hs; [exact Hs|].
  cbn [avr_algorithms.repeat_loop]. unfold bind.
  specialize (Hop s Hs). destruct (operation s) as [[|] s']; cbn in *; auto.
Qed.

(** After at least one pass the state is one a pass produced. *)
Lemma repeat_loop_post {S} (J I : S -> Prop) (operation : M S bool) :
  (forall s, J s -> I (snd (operation s)) /\ J (snd (operation s))) ->
  forall fuel s, J s ->
    I (snd (avr_algorithms.repeat_loop (Datatypes.S fuel) operation s)).
Proof.
  intros Hop fuel. induction fuel as [|fuel IH]; intros s Hs.
  - cbn. unfold bind. destruct (Hop s Hs) as [HI _].
    destruct (operation s) as [[|] s']; exact HI.
  - change (avr_algorithms.repeat_loop (Datatypes.S (Datatypes.S fuel)) operation s)
      with (let (c, s') := operation s in
            (if c then avr_algorithms.repeat_loop (Datatypes.S fuel) operation
             else ret tt) s').
    destruct (Hop s Hs) as [HI HJ].
    destruct (operation s) as [[|] s']; cbn in *; auto.
Qed.

Lemma forall_addr (chk : Z -> bool) :
  forallb chk (map Z.of_nat (seq 0 64)) = true ->
  forall a, 0 <= a <= 63 -> chk a = true.
Proof.
  intros Hall a Ha. rewrite forallb_forall in Hall. apply Hall.
  replace a with (Z.of_nat (Z.to_nat a)) by lia.
  apply in_map, in_seq. lia.
Qed.

Lemma write_header a :
  0 <= a <= 63 ->
  Z.land a bitFlags.WriteSingle = a /\ Z.testbit a 7 = false /\
  Z.testbit a 6 = false /\ Z.land a 0x3F = a.
Proof.
  intros Ha.
  pose proof (forall_addr
    (fun a => (Z.land a bitFlags.WriteSingle =? a) && negb (Z.testbit a 7) &&
              negb (Z.testbit a 6) && (Z.land a 0x3F =? a))
    ltac:(vm_compute; reflexivity) a Ha) as Hc.
  cbv beta in Hc. rewrite !andb_true_iff, !negb_true_iff, !Z.eqb_eq in Hc.
  tauto.
Qed.

Lemma read_header a :
  0 <= a <= 63 ->
  Z.testbit (Z.lor a bitFlags.ReadSingle) 7 = true /\
  Z.testbit (Z.lor a bitFlags.ReadSingle) 6 = false /\
  Z.land (Z.lor a bitFlags.ReadSingle) 0x3F = a.
Proof.
  intros Ha.
  pose proof (forall_addr
    (fun a => Z.testbit (Z.lor a bitFlags.ReadSingle) 7 &&
              negb (Z.testbit (Z.lor a bitFlags.ReadSingle) 6) &&
              (Z.land (Z.lor a bitFlags.ReadSingle) 0x3F =? a))
    ltac:(vm_compute; reflexivity) a Ha) as Hc.
  cbv beta in Hc. rewrite !andb_true_iff, !negb_true_iff, !Z.eqb_eq in Hc.
  tauto.
Qed.

Lemma u8_small v : 0 <= v <= 255 -> u8 v = v.
Proof. intros Hv. unfold u8. apply Z.mod_small. lia. Qed.

(** ** The register protocol on any device *)

Section AnyDevice.
Context {B : Type} `{SPIDevice B}.

Lemma writeRegister_result (a v : Z) (s : B) :
  fst (SPIBus.writeRegister a v s) = false.
Proof.
  unfold SPIBus.writeRegister. destruct (a >? bitFlags.AddressMask); [reflexivity|].
  unfold bind.
  destruct (avr_algorithms.repeat_withExitCondition 3
              (SPIBus.writeRegister_attempt a v) s).
  reflexivity.
Qed.

Lemma writeRegister_rejects (a v : Z) (s : B) :
  a > 0x3F -> SPIBus.writeRegister a v s = (false, s).
Proof.
  intros Ha. unfold SPIBus.writeRegister, bitFlags.AddressMask.
  destruct (Z.gtb_spec a 0x3F); [reflexivity | lia].
Qed.

Lemma readRegister_rejects (a : Z) (s : B) :
  a > 0x3F -> SPIBus.readRegister a s = (mkReadResult 0xFF 0xFF, s).
Proof.
  intros Ha. unfold SPIBus.readRegister, bitFlags.AddressMask.
  destruct (Z.gtb_spec a 0x3F); [reflexivity | lia].
Qed.

Lemma writeBurstRegister_null (a len : Z) (s : B) :
  SPIBus.writeBurstRegister a None len s = (false, s).
Proof. reflexivity. Qed.

Lemma writeBurstRegister_bad_length (a len : Z) data (s : B) :
  len = 0 \/ len > 64 -> SPIBus.writeBurstRegister a data len s = (false, s).
Proof.
  intros Hlen. destruct data as [bytes|]; [|reflexivity].
  unfold SPIBus.writeBurstRegister.
  destruct (Z.eqb_spec len 0); [reflexivity|].
  destruct (Z.gtb_spec len 64); [reflexivity | lia].
Qed.

Lemma writeBurstRegister_bad_address (a len : Z) data (s : B) :
  a <> 0x03 -> a <> 0x3F -> SPIBus.writeBurstRegister a data len s = (false, s).
Proof.
  intros H3 H3F. destruct data as [bytes|]; [|reflexivity].
  unfold SPIBus.writeBurstRegister.
  destruct ((len =? 0) || (len >? 64)); [reflexivity|].
  destruct (Z.eqb_spec a 0x03); [congruence|].
  destruct (Z.eqb_spec a 0x3F); [congruence|]. reflexivity.
Qed.

End AnyDevice.

(** ** The register protocol against the honest fake chip *)

Section HonestBus.

Lemma same_chip_read f g a : same_chip f g -> read_result f a = read_result g a.
Proof. intros (Hr & Hs & _). unfold read_result, stored. by rewrite Hr, Hs. Qed.

Lemma read_attempt_fake a r0 f :
  0 <= a <= 63 ->
  SPIBus.readRegister_attempt a (r0, f)
  = (negb (isValid (read_result f a)), (read_result f a, after_read f a)).
Proof.
  intros Ha. destruct (read_header a Ha) as (H7 & H6 & Hland).
  unfold SPIBus.readRegister_attempt, bind, SPIBus.selectDevice,
    SPIBus.transfer, SPIBus.deselectDevice.
  cbn [spi_transfer csn_write FakeBus_device fake_csn fake_transfer phase
       regs chipStatus wire stores snd fst].
  rewrite H7, H6, Hland.
  cbn [fake_transfer phase regs chipStatus wire stores snd fst next_phase stored].
  unfold after_read, read_result, stored. cbn [regs chipStatus wire stores].
  by rewrite <- app_assoc.
Qed.

Lemma readRegister_fake a f :
  0 <= a <= 63 ->
  fst (SPIBus.readRegister a f) = read_result f a /\
  same_chip (snd (SPIBus.readRegister a f)) f.
Proof.
  intros Ha. unfold SPIBus.readRegister, bitFlags.AddressMask.
  destruct (Z.gtb_spec a 0x3F) as [Hgt|_]; [lia|].
  unfold avr_algorithms.repeat_withExitCondition.
  change (Z.to_nat 3) with 3%nat.
  pose proof (repeat_loop_post
    (fun s : ReadResult * FakeBus => same_chip (snd s) f)
    (fun s : ReadResult * FakeBus => fst s = read_result f a /\ same_chip (snd s) f)
    (SPIBus.readRegister_attempt a)) as Hpost.
  specialize (Hpost ltac:(
    intros [r b] Hb; rewrite read_attempt_fake by exact Ha; cbn in *;
    rewrite (same_chip_read _ _ a Hb); repeat split; apply Hb) 2%nat
    (mkReadResult 0xFF 0xFF, f) ltac:(by repeat split)).
  destruct (avr_algorithms.repeat_loop 3 (SPIBus.readRegister_attempt a)
              (mkReadResult 0xFF 0xFF, f)) as [[] [r b]].
  exact Hpost.
Qed.

Lemma readRegister_fake_valid a f :
  0 <= a <= 63 -> isValid (read_result f a) = true ->
  SPIBus.readRegister a f = (read_result f a, after_read f a).
Proof.
  intros Ha Hvalid. unfold SPIBus.readRegister, bitFlags.AddressMask.
  destruct (Z.gtb_spec a 0x3F) as [Hgt|_]; [lia|].
  unfold avr_algorithms.repeat_withExitCondition.
  change (Z.to_nat 3) with 3%nat. cbn [avr_algorithms.repeat_loop]. unfold bind.
  rewrite read_attempt_fake by exact Ha. by rewrite Hvalid.
Qed.

Lemma write_transaction_fake a v f :
  0 <= a <= 63 ->
  SPIBus.applyTransaction
    (SPIBus.transfer (Z.land a bitFlags.WriteSingle) ;;; SPIBus.transfer v) f
  = (tt, after_write f a v).
Proof.
  intros Ha. destruct (write_header a Ha) as (Hw & H7 & H6 & Hland).
  unfold SPIBus.applyTransaction, bind,
    SPIBus.selectDevice, SPIBus.transfer, SPIBus.deselectDevice.
  cbn [spi_transfer csn_write FakeBus_device fake_csn fake_transfer phase
       regs chipStatus wire stores snd fst].
  rewrite Hw, H7, H6, Hland.
  cbn [fake_transfer phase regs chipStatus wire stores snd fst next_phase].
  rewrite <- app_assoc. reflexivity.
Qed.

Lemma write_attempt_fake a v f :
  0 <= a <= 63 ->
  same_chip (snd (SPIBus.writeRegister_attempt a v f)) (after_write f a v).
Proof.
  intros Ha. unfold SPIBus.writeRegister_attempt.
  unfold bind at 1. rewrite write_transaction_fake by exact Ha.
  unfold bind.
  destruct (readRegister_fake a (after_write f a v) Ha) as [_ Hsame].
  destruct (SPIBus.readRegister a (after_write f a v)) as [r b].
  destruct (isValid r && _); exact Hsame.
Qed.

Lemma write_attempt_fake_valid a v f :
  0 <= a <= 63 -> 0 <= v < 255 -> u8 (chipStatus f) <> 0xFF ->
  SPIBus.writeRegister_attempt a v f
  = (false, after_read (after_write f a v) a).
Proof.
  intros Ha Hv Hst. unfold SPIBus.writeRegister_attempt.
  unfold bind at 1. rewrite write_transaction_fake by exact Ha.
  unfold bind.
  assert (Hres : read_result (after_write f a v) a = mkReadResult (u8 (chipStatus f)) v).
  { unfold read_result, stored, after_write. cbn [regs chipStatus].
    rewrite lookup_insert_eq. cbn. by rewrite (u8_small v) by lia. }
  assert (Hvalid : isValid (read_result (after_write f a v) a) = true).
  { rewrite Hres. unfold isValid. cbn [status value].
    destruct (Z.eqb_spec (u8 (chipStatus f)) 0xFF); [done|].
    destruct (Z.eqb_spec v 0xFF); [lia | done]. }
  rewrite readRegister_fake_valid by done.
  rewrite Hvalid, Hres. cbn [value]. by rewrite Z.eqb_refl.
Qed.

Lemma writeRegister_fake a v f :
  0 <= a <= 63 ->
  regs (snd (SPIBus.writeRegister a v f)) = <[a := v]> (regs f) /\
  chipStatus (snd (SPIBus.writeRegister a v f)) = chipStatus f.
Proof.
  intros Ha. unfold SPIBus.writeRegister, bitFlags.AddressMask.
  destruct (Z.gtb_spec a 0x3F) as [Hgt|_]; [lia|].
  unfold avr_algorithms.repeat_withExitCondition.
  change (Z.to_nat 3) with 3%nat.
  pose proof (repeat_loop_post
    (fun b : FakeBus => chipStatus b = chipStatus f /\
       (regs b = regs f \/ regs b = <[a := v]> (regs f)))
    (fun b : FakeBus => regs b = <[a := v]> (regs f) /\
       chipStatus b = chipStatus f)
    (SPIBus.writeRegister_attempt a v)) as Hpost.
  specialize (Hpost ltac:(
    intros b [Hst Hregs];
    destruct (write_attempt_fake a v b Ha) as (Hr & Hs & _);
    cbn [after_write regs chipStatus] in Hr, Hs;
    assert (regs (snd (SPIBus.writeRegister_attempt a v b)) = <[a := v]> (regs f))
      by (rewrite Hr; destruct Hregs as [-> | ->];
          [done | by rewrite insert_insert_eq]);
    repeat split; [done | congruence | congruence | by right]) 2%nat f
    ltac:(split; [done | by left])).
  unfold bind.
  destruct (avr_algorithms.repeat_loop 3 (SPIBus.writeRegister_attempt a v) f)
    as [[] b].
  exact Hpost.
Qed.

Lemma writeRegister_fake_once a v f :
  0 <= a <= 63 -> 0 <= v < 255 -> u8 (chipStatus f) <> 0xFF ->
  SPIBus.writeRegister a v f = (false, after_read (after_write f a v) a).
Proof.
  intros Ha Hv Hst. unfold SPIBus.writeRegister, bitFlags.AddressMask.
  destruct (Z.gtb_spec a 0x3F) as [Hgt|_]; [lia|].
  unfold avr_algorithms.repeat_withExitCondition.
  change (Z.to_nat 3) with 3%nat. cbn [avr_algorithms.repeat_loop].
  unfold bind. by rewrite write_attempt_fake_valid.
Qed.

End HonestBus.

(** ** Claims about the register protocol *)

(** C1 (failing input).  On every device and for every input
    [writeRegister] answers [false]: the loop's lambda returns to the loop,
    after which the function falls through to its final [return false].  In
    particular, against the honest fake chip [writeRegister(0x02, 0x2E)]
    stores the byte and the first readback already equals it (one store, one
    write and one read transaction on the wire), yet the call reports
    [false]. *)
Theorem writeRegister_matching_readback_reports_false
    {B : Type} `{SPIDevice B} (a v : Z) (s : B) :
  fst (SPIBus.writeRegister a v s) = false /\
  (let r := SPIBus.writeRegister 0x02 0x2E (fake0 0x0F) in
   fst r = false /\
   stored (snd r) 0x02 = 0x2E /\
   stores (snd r) = [(0x02, 0x2E)] /\
   wire (snd r) = [0x02; 0x2E; 0x82; 0x00] /\
   value (fst (SPIBus.readRegister 0x02 (snd r))) = 0x2E).
Proof.
  split; [apply writeRegister_result|].
  vm_compute. repeat split; reflexivity.
Qed.

(** C7.  Against the honest fake chip, for every register address up to
    0x3F and every byte, [writeRegister(a, v)] followed by [readRegister(a)]
    yields a result whose value field is [v] (whatever status byte the chip
    answers with). *)
Theorem write_then_read_yields_value (f : FakeBus) (a v : Z) :
  0 <= a <= 0x3F -> 0 <= v <= 255 ->
  value (fst (SPIBus.readRegister a (snd (SPIBus.writeRegister a v f)))) = v.
Proof.
  intros Ha Hv.
  destruct (writeRegister_fake a v f Ha) as [Hregs _].
  destruct (readRegister_fake a (snd (SPIBus.writeRegister a v f)) Ha) as [-> _].
  unfold read_result, stored. cbn [value]. rewrite Hregs, lookup_insert_eq.
  cbn. by apply u8_small.
Qed.

Lemma write_then_read_yields_value_witness :
  value (fst (SPIBus.readRegister 0x3F
                (snd (SPIBus.writeRegister 0x3F 0xFF (fake0 0x0F))))) = 0xFF.
Proof. apply (write_then_read_yields_value (fake0 0x0F) 0x3F 0xFF); lia. Defined.

(** ** Claims about burst writes and power programming *)

Lemma transfer_header_fake (b : Z) (f : FakeBus) :
  phase f = Header ->
  SPIBus.transfer b f
  = (u8 (chipStatus f),
     mkFake (regs f) (chipStatus f)
       (Data (Z.testbit b 7) (Z.testbit b 6) (Z.land b 0x3F))
       (wire f ++ [b]) (stores f)).
Proof.
  intros Hphase. unfold SPIBus.transfer. cbn [spi_transfer FakeBus_device].
  unfold fake_transfer. by rewrite Hphase.
Qed.

Lemma for_each_transfer_fake (bytes : list Z) (f : FakeBus) (a : Z) :
  phase f = Data false true a ->
  wire (snd (avr_algorithms.for_each_element bytes SPIBus.transfer f))
  = wire f ++ bytes.
Proof.
  revert f a. induction bytes as [|x bytes IH]; intros f a Hphase.
  - cbn. by rewrite app_nil_r.
  - cbn [avr_algorithms.for_each_element]. unfold bind at 1.
    unfold SPIBus.transfer at 1. cbn [spi_transfer FakeBus_device].
    unfold fake_transfer at 1. rewrite Hphase.
    erewrite IH by reflexivity. cbn [wire]. by rewrite <- app_assoc.
Qed.

Lemma fmap_lookup_total_seq (l : list Z) :
  map (fun i => l !!! i) (seq 0 (length l)) = l.
Proof.
  induction l as [|x l IH]; [done|].
  cbn [length seq map]. rewrite <- seq_shift, map_map.
  f_equal. exact IH.
Qed.

(** What [writeBurstRegister] does for the two addresses it accepts: the
    address with the burst-write tag, then every byte, and [true]. *)
Lemma writeBurstRegister_accepts (f : FakeBus) (a : Z) (bytes : list Z) :
  a = 0x03 \/ a = 0x3F -> 1 <= Z.of_nat (length bytes) <= 64 ->
  let r := SPIBus.writeBurstRegister a (Some bytes) (Z.of_nat (length bytes)) f in
  fst r = true /\
  wire (snd r) = wire f ++ Z.lor a bitFlags.writeBurstRegister :: bytes.
Proof.
  intros Ha Hlen. cbn zeta. unfold SPIBus.writeBurstRegister.
  destruct (Z.eqb_spec (Z.of_nat (length bytes)) 0) as [?|_]; [lia|].
  destruct (Z.gtb_spec (Z.of_nat (length bytes)) 64) as [?|_]; [lia|].
  assert (Hchk : negb (a =? 0x03) && negb (a =? 0x3F) = false)
    by (destruct Ha as [-> | ->]; reflexivity).
  cbn [orb]. rewrite Hchk, Nat2Z.id, fmap_lookup_total_seq.
  assert (Hhdr : Z.testbit (Z.lor a bitFlags.writeBurstRegister) 7 = false /\
                 Z.testbit (Z.lor a bitFlags.writeBurstRegister) 6 = true)
    by (destruct Ha as [-> | ->]; split; reflexivity).
  destruct Hhdr as [H7 H6].
  unfold SPIBus.applyTransaction, SPIBus.selectDevice, SPIBus.deselectDevice, bind.
  cbn [csn_write FakeBus_device]. unfold fake_csn.
  rewrite transfer_header_fake by reflexivity. rewrite H7, H6.
  cbn [regs chipStatus wire stores].
  match goal with
  | |- context [avr_algorithms.for_each_element bytes SPIBus.transfer ?f1] =>
      pose proof (for_each_transfer_fake bytes f1 _ eq_refl) as Hw;
      destruct (avr_algorithms.for_each_element bytes SPIBus.transfer f1)
        as [[] f2]
  end.
  cbn [snd fst wire] in *. unfold ret, fake_csn. cbn [fst snd wire].
  split; [done|]. rewrite Hw. by rewrite <- app_assoc.
Qed.

(** C8 (failing input).  On every device [writeBurstRegister] answers
    [true] exactly for a non-null buffer, a length from 1 to 64 and one of
    the addresses 0x03 and 0x3F.  The power table lives at [PATABLE = 0x3E]:
    the call [configurePATable] makes to burst-write its eight bytes is
    turned down before the chip is selected. *)
Theorem writeBurstRegister_accepted_addresses {B : Type} `{SPIDevice B}
    (a len : Z) (data : option (list Z)) (s : B) :
  0 <= len ->
  (fst (SPIBus.writeBurstRegister a data len s) = true <->
   data <> None /\ 1 <= len <= 64 /\ (a = 0x03 \/ a = 0x3F)) /\
  CC1101.Address.PATABLE = 0x3E /\
  SPIBus.writeBurstRegister CC1101.Address.PATABLE (Some paTable) 8 s = (false, s).
Proof.
  intros Hlen. split; [|split; reflexivity].
  unfold SPIBus.writeBurstRegister. destruct data as [bytes|].
  - destruct (Z.eqb_spec len 0) as [Hz|Hnz]; cbn [orb].
    { split; [discriminate | lia]. }
    destruct (Z.gtb_spec len 64) as [Hbig|Hsmall].
    { split; [discriminate | lia]. }
    destruct (Z.eqb_spec a 0x03) as [H3|H3]; cbn [negb andb].
    + unfold bind. destruct (SPIBus.applyTransaction _ s). cbn.
      split; [intros _|done]. split; [done|]. split; [lia | by left].
    + destruct (Z.eqb_spec a 0x3F) as [H3F|H3F]; cbn [negb].
      * unfold bind. destruct (SPIBus.applyTransaction _ s). cbn.
        split; [intros _|done]. split; [done|]. split; [lia | by right].
      * split; [discriminate|]. intros (_ & _ & [?|?]); congruence.
  - split; [discriminate|]. intros [Hnull _]. congruence.
Qed.

Lemma writeBurstRegister_accepted_addresses_witness :
  fst (SPIBus.writeBurstRegister 0x3F (Some paTable) 8 (fake0 0x0F)) = true /\
  fst (SPIBus.writeBurstRegister 0x3E (Some paTable) 8 (fake0 0x0F)) = false.
Proof.
  split.
  - apply (writeBurstRegister_accepted_addresses 0x3F 8 (Some paTable) (fake0 0x0F));
      [lia|]. split; [discriminate|]. split; [lia | by right].
  - reflexivity.
Defined.

Lemma configurePATable_fake (f : FakeBus) (i : Z) :
  0 <= i <= 7 ->
  regs (snd (Transceiver.configurePATable i f))
  = <[CC1101.Value.FREND0 :=
        u8 (Z.lor (u8 (Z.land (u8 (stored f CC1101.Address.FREND0)) (Z.lnot 0x07)))
                  (Z.land i 0x07))]> (regs f).
Proof.
  intros Hi. unfold Transceiver.configurePATable.
  destruct (Z.gtb_spec i 7) as [?|_]; [lia|].
  unfold Transceiver.writeBurstRegister.
  rewrite (bind_run
             (SPIBus.writeBurstRegister CC1101.Address.PATABLE (Some paTable) 8)
             _ f false f eq_refl).
  unfold bind at 1. unfold Transceiver.readRegister, Transceiver.writeRegister.
  destruct (readRegister_fake CC1101.Address.FREND0 f ltac:(done))
    as [Hres (Hregs & Hst & _)].
  destruct (SPIBus.readRegister CC1101.Address.FREND0 f) as [r f1].
  cbn [fst snd] in *. subst r. cbn [read_result value]. unfold bind.
  match goal with
  | |- context [SPIBus.writeRegister ?a ?v f1] =>
      destruct (writeRegister_fake a v f1 ltac:(done)) as [Hw _];
      destruct (SPIBus.writeRegister a v f1) as [ok f2]
  end.
  cbn [fst snd ret] in *. by rewrite Hw, Hregs.
Qed.

(** C9 (failing input).  On a fake chip holding the configured FREND0 (0x11)
    and MDMCFG3 (0x83), [setPowerLevel(7)] sends no burst write (the power
    table is never touched), leaves FREND0 as it was and overwrites register
    0x11 (MDMCFG3) with the value meant for FREND0: the last write uses the
    constant [Value::FREND0] where the address is expected. *)
Theorem setPowerLevel_misses_PATABLE_and_FREND0 :
  let f' := snd (Transceiver.setPowerLevel 7 fake_configured) in
  stored f' CC1101.Address.FREND0 = 0x11 /\
  stored f' CC1101.Address.MDMCFG3 = 0x17 /\
  stores f' = [(0x11, 0x17)] /\
  wire f' = [0xA2; 0x00; 0x11; 0x17; 0x91; 0x00] /\
  snd (Transceiver.configurePATable 7 fake_configured) = f'.
Proof. vm_compute. repeat split; reflexivity. Qed.

(** ** Claims about the configuration applier *)

Section ApplierFacts.
Context {S : Type}.
Variable write : Z -> Z -> M S bool.
Variable read : Z -> M S Z.

Lemma applyRegisterConfig_result (config : list RegisterSettings) (s : S) :
  fst (applyRegisterConfig_CC1101 write read config s) = true.
Proof.
  unfold applyRegisterConfig_CC1101, bind.
  by destruct (avr_algorithms.for_each_element config
                 (writeAndVerifyRegister write read) s).
Qed.

(** The loop runs the lambda on every entry whatever the earlier ones
    returned. *)
Lemma for_each_element_app {T R} (xs ys : list T) (func : T -> M S R) (s : S) :
  snd (avr_algorithms.for_each_element (xs ++ ys) func s)
  = snd (avr_algorithms.for_each_element ys func
           (snd (avr_algorithms.for_each_element xs func s))).
Proof.
  revert s. induction xs as [|x xs IH]; intros s; [done|].
  cbn [app avr_algorithms.for_each_element]. unfold bind.
  destruct (func x s) as [r s1]. apply IH.
Qed.
End ApplierFacts.

Lemma stub_write_calls (failing : Z) (config : list RegisterSettings)
    (calls : list (Z * Z)) :
  snd (applyRegisterConfig_CC1101 (stub_write failing) stub_read config calls)
  = calls ++ map (fun rs => (reg rs, reg_value rs)) config.
Proof.
  unfold applyRegisterConfig_CC1101. unfold bind at 1.
  transitivity (snd (avr_algorithms.for_each_element config
    (writeAndVerifyRegister (stub_write failing) stub_read) calls)).
  { by destruct (avr_algorithms.for_each_element _ _ _). }
  revert calls. induction config as [|rs config IH]; intros calls.
  - cbn. by rewrite app_nil_r.
  - cbn [avr_algorithms.for_each_element map]. unfold bind at 1.
    assert (Hstep : snd (writeAndVerifyRegister (stub_write failing) stub_read rs calls)
                    = calls ++ [(reg rs, reg_value rs)]).
    { unfold writeAndVerifyRegister, bind, stub_write, stub_read, ret.
      destruct (negb (negb _)); [done|]. destruct (verify rs); [|done].
      by destruct (negb _). }
    destruct (writeAndVerifyRegister _ _ rs calls) as [r calls1].
    cbn [snd] in Hstep. subst calls1. rewrite IH. by rewrite <- app_assoc.
Qed.

(** C2 (failing input).  Whatever the write and read callbacks do, the
    applier answers [true]: [for_each_element] drops what the per-entry
    lambda returns, and the function ends in an unconditional [return true].
    In particular, for a three-entry list whose second entry's write reports
    failure, the write for the third entry is still called. *)
Theorem applyRegisterConfig_failed_entry_is_ignored {S : Type}
    (write : Z -> Z -> M S bool) (read : Z -> M S Z)
    (config : list RegisterSettings) (s : S) :
  fst (applyRegisterConfig_CC1101 write read config s) = true /\
  (let r := applyRegisterConfig_CC1101 (stub_write 0x03) stub_read config3 [] in
   fst (stub_write 0x03 0x03 0x07 [(0x02, 0x2E)]) = false /\
   fst (writeAndVerifyRegister (stub_write 0x03) stub_read
          (mkSetting 0x03 0x07 true) [(0x02, 0x2E)]) = false /\
   snd r = [(0x02, 0x2E); (0x03, 0x07); (0x06, 0xFF)] /\
   fst r = true).
Proof.
  split; [apply applyRegisterConfig_result|].
  vm_compute. repeat split; reflexivity.
Qed.

(** ** Claims about the frame streamer *)

Lemma send_bits_recorded (bits : list Z) (t : list Symbol) :
  snd (avr_algorithms.for_each_element bits SC41344_FrameStreamer.sendBit t)
  = t ++ map symbol_of_bit bits.
Proof.
  revert t. induction bits as [|b bits IH]; intros t.
  - cbn. by rewrite app_nil_r.
  - cbn [avr_algorithms.for_each_element map]. unfold bind at 1.
    assert (Hbit : SC41344_FrameStreamer.sendBit b t = (tt, t ++ [symbol_of_bit b])).
    { unfold SC41344_FrameStreamer.sendBit, symbol_of_bit.
      by destruct (b =? 1). }
    rewrite Hbit, IH. by rewrite <- app_assoc.
Qed.

Lemma sendFrame_recorded (bits : list Z) (t : list Symbol) :
  SC41344_FrameStreamer.sendFrame bits t = (tt, t ++ word bits).
Proof.
  unfold SC41344_FrameStreamer.sendFrame, bind.
  pose proof (send_bits_recorded bits t) as Hbits.
  destruct (avr_algorithms.for_each_element bits _ t) as [[] t1].
  cbn [snd] in Hbits. subst t1. cbn [sendOpen SymbolRecorder]. unfold emit, word.
  by rewrite <- app_assoc.
Qed.

Lemma concat_replicate_snoc {A} (n : nat) (x : list A) :
  concat (replicate n x) ++ x = x ++ concat (replicate n x).
Proof.
  induction n as [|n IH]; cbn [replicate concat].
  - by rewrite app_nil_r.
  - by rewrite <- app_assoc, IH.
Qed.

Lemma repeat_words_recorded (bits : list Z) (n : nat) (t : list Symbol) :
  Nat.iter n
    (fun s => snd ((sendSilence ;;; SC41344_FrameStreamer.sendFrame bits) s)) t
  = t ++ concat (replicate n (SymSilence :: word bits)).
Proof.
  induction n as [|n IH].
  - cbn. by rewrite app_nil_r.
  - rewrite Nat.iter_succ, IH. unfold bind.
    cbn [sendSilence SymbolRecorder]. unfold emit at 1.
    rewrite sendFrame_recorded. cbn [snd replicate concat].
    rewrite <- !app_assoc. f_equal.
    change ([SymSilence] ++ word bits) with (SymSilence :: word bits).
    apply concat_replicate_snoc.
Qed.

Lemma word_one_trailer (bits : list Z) :
  length (filter (fun x => x = SymOpen) (word bits)) = 1%nat.
Proof.
  unfold word. rewrite filter_app, length_app.
  assert (Hnone : filter (fun x => x = SymOpen) (map symbol_of_bit bits) = []).
  { induction bits as [|b bits IH]; [done|]. cbn [map].
    rewrite filter_cons_False; [done|]. unfold symbol_of_bit.
    by destruct (b =? 1). }
  by rewrite Hnone.
Qed.

(** C5.  For every N-bit frame the recording encoder sees: one preamble, one
    word (the N bits, each as its symbol, then the trailer), FRAME_REPEATS = 3
    times a silence and a word, and one idle; that is 1 + 3 words and
    1 + 4 * (N + 1) + 3 + 1 symbol calls, 41 of them for N = 8. *)
Theorem streamFrame_symbols (bits : list Z) :
  let calls := snd (SC41344_FrameStreamer.streamFrame bits []) in
  calls = [SymPreamble] ++ word bits
          ++ concat (replicate (Z.to_nat FRAME_REPEATS) (SymSilence :: word bits))
          ++ [SymIdle] /\
  length (filter (fun x => x = SymOpen) calls) = (1 + Z.to_nat FRAME_REPEATS)%nat /\
  length calls = (1 + 4 * (length bits + 1) + 3 + 1)%nat /\
  (length bits = 8%nat -> length calls = 41%nat).
Proof.
  cbn zeta.
  assert (Hcalls : snd (SC41344_FrameStreamer.streamFrame bits [])
    = [SymPreamble] ++ word bits
      ++ concat (replicate (Z.to_nat FRAME_REPEATS) (SymSilence :: word bits))
      ++ [SymIdle]).
  { unfold SC41344_FrameStreamer.streamFrame.
    rewrite (bind_run _ _ _ tt [SymPreamble]) by reflexivity.
    rewrite (bind_run _ _ _ tt _ (sendFrame_recorded bits _)).
    rewrite (bind_run (avr_algorithms.repeat _ _) _ _ tt
               (Nat.iter (Z.to_nat FRAME_REPEATS) _ _) eq_refl).
    rewrite repeat_words_recorded.
    cbn [setIdle SymbolRecorder]. unfold emit. cbn [snd app].
    by rewrite <- !app_assoc. }
  rewrite Hcalls. split; [done|].
  pose proof (word_one_trailer bits) as Hopen.
  assert (Hlen : length (word bits) = (length bits + 1)%nat).
  { unfold word. by rewrite length_app, length_map. }
  change (Z.to_nat FRAME_REPEATS) with 3%nat. cbn [replicate concat].
  split.
  - repeat first [ rewrite filter_app | rewrite length_app
                   | rewrite filter_cons_False by done | rewrite filter_nil ].
    rewrite !Hopen. reflexivity.
  - assert (Htotal : length ([SymPreamble] ++ word bits ++
        ((SymSilence :: word bits) ++ (SymSilence :: word bits) ++
         (SymSilence :: word bits) ++ []) ++ [SymIdle])
        = (1 + 4 * (length bits + 1) + 3 + 1)%nat).
    { repeat first [ rewrite length_app | progress cbn [length] ].
      rewrite !Hlen. lia. }
    split; [exact Htotal|]. intros H8. rewrite Htotal, H8. reflexivity.
Qed.

Lemma streamFrame_symbols_witness :
  length (snd (SC41344_FrameStreamer.streamFrame [0; 0; 0; 0; 0; 0; 0; 0] []))
  = 41%nat.
Proof.
  apply (streamFrame_symbols [0; 0; 0; 0; 0; 0; 0; 0]). reflexivity.
Defined.

(** ** Claims about the controller *)

Lemma setFrequency_out_of_range {B : Type} `{SPIDevice B} (hz : Z) (b : B) :
  hz < 300000000 \/ hz > 928000000 -> Transceiver.setFrequency hz b = (tt, b).
Proof.
  intros Hhz. unfold Transceiver.setFrequency.
  destruct (Z.ltb_spec hz 300000000); [reflexivity|].
  destruct (Z.gtb_spec hz 928000000); [reflexivity | lia].
Qed.

(** C4 (counterexample).  The tuning word the code computes for 315 MHz is
    not 793161, and the three bytes it programs are not 0x0C, 0x1B, 0x09. *)
Lemma setFrequency_315MHz_is_not_0C1B09 :
  Transceiver.tuningWord 315000000 <> 793161 /\
  Transceiver.tuningWord 315000000 <> 0x0C1B09 /\
  stores (snd (Transceiver.setFrequency 315000000 (fake0 0x0F)))
  <> [(CC1101.Address.FREQ2, 0x0C); (CC1101.Address.FREQ1, 0x1B);
      (CC1101.Address.FREQ0, 0x09)].
Proof. vm_compute. repeat split; discriminate. Qed.

(** C4 (amended).  For 315000000 Hz and the 26 MHz oscillator the tuning
    word is floor(315000000 * 65536 / 26000000) = 793993 = 0x0C1D89; on a
    fake chip with a valid status byte, [setFrequency] writes 0x0C, 0x1D,
    0x89 to FREQ2, FREQ1, FREQ0 in that order and nothing else; a frequency
    outside [300 MHz, 928 MHz] leaves the chip untouched. *)
Theorem setFrequency_315MHz (f : FakeBus) :
  u8 (chipStatus f) <> 0xFF ->
  Transceiver.tuningWord 315000000 = 315000000 * 65536 / 26000000 /\
  Transceiver.tuningWord 315000000 = 793993 /\
  793993 = 0x0C1D89 /\ 0x0C1D89 < 2 ^ 24 /\
  (let f' := snd (Transceiver.setFrequency 315000000 f) in
   stores f' = stores f ++ [(CC1101.Address.FREQ2, 0x0C);
                            (CC1101.Address.FREQ1, 0x1D);
                            (CC1101.Address.FREQ0, 0x89)] /\
   stored f' CC1101.Address.FREQ2 = 0x0C /\
   stored f' CC1101.Address.FREQ1 = 0x1D /\
   stored f' CC1101.Address.FREQ0 = 0x89) /\
  (forall hz, hz < 300000000 \/ hz > 928000000 ->
     Transceiver.setFrequency hz f = (tt, f)).
Proof.
  intros Hst. do 4 (split; [reflexivity|]).
  split; [|intros hz Hhz; by apply setFrequency_out_of_range].
  unfold Transceiver.setFrequency.
  change ((315000000 <? 300000000) || (315000000 >? 928000000)) with false.
  cbv iota.
  change (Z.land (Z.shiftr (Transceiver.tuningWord 315000000) 16) 0xFF) with 0x0C.
  change (Z.land (Z.shiftr (Transceiver.tuningWord 315000000) 8) 0xFF) with 0x1D.
  change (Z.land (Transceiver.tuningWord 315000000) 0xFF) with 0x89.
  unfold Transceiver.writeRegister, CC1101.Address.FREQ2, CC1101.Address.FREQ1,
    CC1101.Address.FREQ0.
  set (f1 := after_read (after_write f 0x0D 0x0C) 0x0D).
  set (f2 := after_read (after_write f1 0x0E 0x1D) 0x0E).
  rewrite (bind_run _ _ _ _ _ (writeRegister_fake_once 0x0D 0x0C f
             ltac:(lia) ltac:(lia) Hst)).
  rewrite (bind_run _ _ _ _ _ (writeRegister_fake_once 0x0E 0x1D f1
             ltac:(lia) ltac:(lia) Hst)).
  rewrite (bind_run _ _ _ _ _ (writeRegister_fake_once 0x0F 0x89 f2
             ltac:(lia) ltac:(lia) Hst)).
  subst f2 f1.
  cbn [ret snd after_read after_write stores regs]. unfold stored.
  cbn [after_read after_write stores regs].
  rewrite <- !app_assoc. split; [done|].
  rewrite lookup_insert_eq.
  rewrite !lookup_insert_ne, !lookup_insert_eq by done.
  rewrite lookup_insert_ne, lookup_insert_eq by done. done.
Qed.

Lemma setFrequency_315MHz_witness :
  stores (snd (Transceiver.setFrequency 315000000 (fake0 0x0F)))
  = [(0x0D, 0x0C); (0x0E, 0x1D); (0x0F, 0x89)].
Proof.
  apply (setFrequency_315MHz (fake0 0x0F)). vm_compute. discriminate.
Defined.

(** ** Claims about the debounce engine *)

Section DebounceFacts.
Import Debounce.

Lemma fire_slots (slots : list Callback) (n : nat) :
  flat_map (fun i => match slots !! i with
                     | Some (Some cb) => [cb]
                     | _ => []
                     end) (seq 0 n)
  = omap id (take n slots).
Proof.
  induction n as [|n IH]; [done|].
  rewrite seq_S, flat_map_app, IH. cbn [flat_map Nat.add].
  rewrite app_nil_r.
  destruct (slots !! n) as [cb|] eqn:Hn.
  - rewrite (take_S_r _ _ _ Hn), omap_app. reflexivity.
  - apply lookup_ge_None in Hn.
    rewrite !take_ge by lia. by rewrite app_nil_r.
Qed.

Lemma fireCallbacks_take (d : CircularDebounceBuffer) :
  fireCallbacks d = omap id (take (_callbackCounter d) (_callbacks d)).
Proof. apply fire_slots. Qed.

Lemma addCallback_room cb (d : CircularDebounceBuffer) :
  (_callbackCounter d < MAX_CALLBACKS)%nat ->
  addCallback cb d
  = mkDebounce (_isActiveLow d) (_debouncing d) (_stableState d)
      (_pressedDetected d) (_buffer d) (_head d) (_thresholdPercentage d)
      (<[_callbackCounter d := cb]> (_callbacks d)) (S (_callbackCounter d)).
Proof.
  intros Hlt. unfold addCallback.
  destruct (Nat.ltb_spec (_callbackCounter d) MAX_CALLBACKS); [done | lia].
Qed.

Lemma addCallback_full cb (d : CircularDebounceBuffer) :
  (MAX_CALLBACKS <= _callbackCounter d)%nat -> addCallback cb d = d.
Proof.
  intros Hge. unfold addCallback.
  destruct (Nat.ltb_spec (_callbackCounter d) MAX_CALLBACKS); [lia | done].
Qed.

(** Registering more callbacks: the counter saturates at four and the
    registered prefix grows by the callbacks that still fit. *)
Lemma addCallback_many (cbs : list Callback) (d : CircularDebounceBuffer) :
  (_callbackCounter d <= MAX_CALLBACKS)%nat ->
  length (_callbacks d) = MAX_CALLBACKS ->
  let d' := fold_left (fun s cb => addCallback cb s) cbs d in
  _callbackCounter d'
    = Nat.min (_callbackCounter d + length cbs) MAX_CALLBACKS /\
  length (_callbacks d') = MAX_CALLBACKS /\
  take (_callbackCounter d') (_callbacks d')
    = take (_callbackCounter d) (_callbacks d)
      ++ take (MAX_CALLBACKS - _callbackCounter d) cbs.
Proof.
  revert d. induction cbs as [|cb cbs IH]; intros d Hc Hlen; cbn zeta.
  - cbn [fold_left length]. rewrite take_nil, app_nil_r. repeat split; [lia|done].
  - cbn [fold_left length].
    destruct (Nat.ltb_spec (_callbackCounter d) MAX_CALLBACKS) as [Hlt|Hge];
      [rewrite (addCallback_room cb d Hlt) | rewrite (addCallback_full cb d Hge)].
    + set (d1 := mkDebounce _ _ _ _ _ _ _ _ _).
      destruct (IH d1) as (Hcnt & Hlen' & Htake).
      { subst d1. cbn. lia. }
      { subst d1. cbn [_callbacks]. by rewrite length_insert. }
      cbn zeta in *. split; [|split; [exact Hlen'|]].
      * rewrite Hcnt. subst d1. cbn [_callbackCounter]. lia.
      * rewrite Htake. subst d1. cbn [_callbackCounter _callbacks].
        rewrite (take_S_r _ _ cb)
          by (apply list_lookup_insert_eq; lia).
        rewrite take_insert_ge by lia. rewrite <- app_assoc. f_equal.
        replace (MAX_CALLBACKS - _callbackCounter d)%nat
          with (S (MAX_CALLBACKS - S (_callbackCounter d))) by lia.
        done.
    + destruct (IH d Hc Hlen) as (Hcnt & Hlen' & Htake). cbn zeta in *.
      split; [|split; [exact Hlen'|]].
      * rewrite Hcnt. lia.
      * rewrite Htake.
        replace (MAX_CALLBACKS - _callbackCounter d)%nat with 0%nat by lia.
        by rewrite !take_0.
Qed.

End DebounceFacts.

Lemma registrations_start_empty isActiveLow garbage (d : Debounce.CircularDebounceBuffer) :
  Debounce._callbackCounter (Debounce.construct isActiveLow garbage) = 0%nat /\
  Debounce._callbackCounter (Debounce.reset d) = 0%nat /\
  Debounce._callbacks (Debounce.reset d) = Debounce._callbacks d.
Proof. done. Qed.

(** C10.  Starting from a state with no registration (after construction or
    [reset()]), after any sequence of [addCallback] calls: the registration
    count is min(number of calls, 4), so never above 4; the registered slots
    are the first four callbacks passed in; and a confirmed press invokes
    exactly those, in registration order (a null pointer takes a slot and is
    skipped when firing). *)
Theorem callbacks_capped_at_four (d : Debounce.CircularDebounceBuffer)
    (cbs : list Debounce.Callback) :
  Debounce._callbackCounter d = 0%nat ->
  length (Debounce._callbacks d) = Debounce.MAX_CALLBACKS ->
  let d' := fold_left (fun s cb => Debounce.addCallback cb s) cbs d in
  Debounce._callbackCounter d' = Nat.min (length cbs) 4 /\
  (Debounce._callbackCounter d' <= 4)%nat /\
  take (Debounce._callbackCounter d') (Debounce._callbacks d') = take 4 cbs /\
  Debounce.fireCallbacks d' = omap id (take 4 cbs) /\
  (forall raw,
     Debounce._debouncing d' = true -> Debounce._pressedDetected d' = false ->
     Debounce.thresholdCount d' <= Debounce.trueCount (Debounce.insertSample raw d') ->
     fst (Debounce.update true raw d') = omap id (take 4 cbs)) /\
  (Forall is_Some cbs -> Debounce.fireCallbacks d' = omap id (take 4 cbs) /\
     length (Debounce.fireCallbacks d') = Nat.min (length cbs) 4).
Proof.
  intros Hzero Hlen.
  destruct (addCallback_many cbs d ltac:(rewrite Hzero; unfold Debounce.MAX_CALLBACKS; lia) Hlen)
    as (Hcnt & Hlen' & Htake).
  cbn zeta in *. rewrite Hzero in Hcnt, Htake. cbn [Nat.add take app] in Hcnt, Htake.
  rewrite Nat.sub_0_r in Htake. change Debounce.MAX_CALLBACKS with 4%nat in *.
  set (d' := fold_left _ cbs d) in *.
  assert (Hfire : Debounce.fireCallbacks d' = omap id (take 4 cbs))
    by (by rewrite fireCallbacks_take, Htake).
  split; [done|]. split; [lia|]. split; [done|]. split; [done|]. split.
  - intros raw Harmed Hfresh Hreach. unfold Debounce.update.
    rewrite Harmed. cbn [negb].
    assert (Hp : Debounce._pressedDetected (Debounce.insertSample raw d') = false) by done.
    rewrite Hp. cbn [negb].
    destruct (Z.geb_spec (Debounce.trueCount (Debounce.insertSample raw d'))
                (Debounce.thresholdCount (Debounce.insertSample raw d'))) as [_|Hlt].
    + cbn [fst]. exact Hfire.
    + exfalso. change (Debounce.thresholdCount (Debounce.insertSample raw d'))
        with (Debounce.thresholdCount d') in Hlt. lia.
  - intros Hsome. split; [done|]. rewrite Hfire.
    assert (Hall : Forall is_Some (take 4 cbs)) by (by apply Forall_take).
    assert (Hl : forall l : list (option nat), Forall is_Some l ->
                   length (omap id l) = length l).
    { induction 1 as [|x l [y ->] _ IH]; [done|]. cbn. by rewrite IH. }
    rewrite Hl by done. rewrite length_take. lia.
Qed.

Lemma callbacks_capped_at_four_witness :
  Debounce.fireCallbacks
    (fold_left (fun s cb => Debounce.addCallback cb s)
       [Some 1; Some 2; Some 3; Some 4; Some 5; Some 6]%nat
       (Debounce.construct true [None; None; None; None]))
  = [1; 2; 3; 4]%nat.
Proof.
  exact (proj1 (proj2 (proj2 (proj2
    (callbacks_capped_at_four
       (Debounce.construct true [None; None; None; None])
       [Some 1; Some 2; Some 3; Some 4; Some 5; Some 6]%nat
       eq_refl eq_refl))))).
Defined.

Section SessionFacts.
Import Debounce.

Implicit Types d s : CircularDebounceBuffer.

Lemma thresholdCount_ceiling d :
  0 <= _thresholdPercentage d <= 100 ->
  thresholdCount d = (16 * _thresholdPercentage d + 99) / 100 /\
  0 <= thresholdCount d <= 16 /\
  100 * (thresholdCount d - 1) < 16 * _thresholdPercentage d <= 100 * thresholdCount d.
Proof.
  intros Hp. unfold thresholdCount, u8, size_t.
  change (Z.of_nat BUFFER_SIZE) with 16.
  rewrite (Z.mod_small (16 * _)) by lia.
  rewrite (Z.mod_small (16 * _ + 99)) by lia.
  assert (0 <= (16 * _thresholdPercentage d + 99) / 100 < 17)
    by (split; [apply Z.div_pos; lia | apply Z.div_lt_upper_bound; lia]).
  rewrite Z.mod_small by lia.
  pose proof (Z.div_mod (16 * _thresholdPercentage d + 99) 100 ltac:(lia)).
  pose proof (Z.mod_pos_bound (16 * _thresholdPercentage d + 99) 100 ltac:(lia)).
  lia.
Qed.

Lemma config_threshold d s :
  debounce_config s = debounce_config d ->
  thresholdCount s = thresholdCount d /\ fireCallbacks s = fireCallbacks d.
Proof.
  unfold debounce_config, thresholdCount, fireCallbacks. intros [= _ -> -> ->]. done.
Qed.

Lemma update_config e r s :
  debounce_config (snd (update e r s)) = debounce_config s.
Proof.
  unfold update.
  destruct (_debouncing s); [|done]. destruct e; [|done]. cbn [negb].
  destruct (negb (_pressedDetected _)).
  - by destruct (_ >=? _).
  - by destruct (_ <=? _).
Qed.

(** Enter the body of [update] on an armed state with an elapsed interval. *)
Ltac armed_update Harmed Hpressed :=
  unfold update; rewrite Harmed; cbn [negb];
  match goal with
  | |- context [insertSample ?r ?s] =>
      change (_pressedDetected (insertSample r s)) with (_pressedDetected s);
      change (thresholdCount (insertSample r s)) with (thresholdCount s)
  end;
  rewrite Hpressed; cbn [negb]; change (Z.of_nat BUFFER_SIZE) with 16.

Lemma update_disarmed e r s :
  _debouncing s = false -> update e r s = ([], s).
Proof. intros Hd. unfold update. by rewrite Hd. Qed.

Lemma update_fresh_below r s :
  fresh s -> trueCount (insertSample r s) < thresholdCount s ->
  fst (update true r s) = [] /\ fresh (snd (update true r s)) /\
  _stableState (snd (update true r s)) = _stableState s.
Proof.
  intros [Ha Hp] Hlt. armed_update Ha Hp.
  destruct (Z.geb_spec (trueCount (insertSample r s)) (thresholdCount s)); [lia|].
  by repeat split.
Qed.

Lemma update_fresh_reach r s :
  fresh s -> thresholdCount s <= trueCount (insertSample r s) ->
  fst (update true r s) = fireCallbacks s /\ held (snd (update true r s)).
Proof.
  intros [Ha Hp] Hge. armed_update Ha Hp.
  destruct (Z.geb_spec (trueCount (insertSample r s)) (thresholdCount s)); [|lia].
  by repeat split.
Qed.

Lemma update_held_stay r s :
  0 <= thresholdCount s <= 16 -> held s ->
  16 - thresholdCount s < trueCount (insertSample r s) ->
  held (snd (update true r s)).
Proof.
  intros HT (Ha & Hp & Hs) Hgt. armed_update Ha Hp.
  unfold size_t. rewrite (Z.mod_small (16 - _)) by lia.
  destruct (Z.leb_spec (trueCount (insertSample r s)) (16 - thresholdCount s)); [lia|].
  by repeat split.
Qed.

Lemma update_held_release r s :
  0 <= thresholdCount s <= 16 -> held s ->
  trueCount (insertSample r s) <= 16 - thresholdCount s ->
  let s' := snd (update true r s) in
  _stableState s' = false /\ _buffer s' = replicate 16 false /\
  _head s' = 0%nat /\ _debouncing s' = false /\ _pressedDetected s' = false.
Proof.
  intros HT (Ha & Hp & Hs) Hle. cbn zeta. armed_update Ha Hp.
  unfold size_t. rewrite (Z.mod_small (16 - _)) by lia.
  destruct (Z.leb_spec (trueCount (insertSample r s)) (16 - thresholdCount s)); [|lia].
  by repeat split.
Qed.

Lemma update_quiet e r s :
  quiet s -> fst (update e r s) = [] /\ quiet (snd (update e r s)).
Proof.
  intros Hq. unfold update.
  destruct (_debouncing s) eqn:Ha; cbn [negb]; [|by split; [|right]].
  destruct Hq as [Hp|Hd]; [|congruence].
  destruct e; cbn [negb]; [|by split; [|left]].
  change (_pressedDetected (insertSample r s)) with (_pressedDetected s).
  rewrite Hp. cbn [negb].
  destruct (_ <=? _); split; try done; [by right | by left].
Qed.

End SessionFacts.

Section SessionRun.
Import Debounce.

Variable d0 : CircularDebounceBuffer.
Variable raws : list bool.

Lemma stateAt_S k r :
  raws !! k = Some r ->
  stateAt d0 raws (S k) = snd (update true r (stateAt d0 raws k)).
Proof.
  intros Hk. unfold stateAt. by rewrite (take_S_r _ _ _ Hk), fold_left_app.
Qed.

Lemma stateAt_end k :
  raws !! k = None -> stateAt d0 raws (S k) = stateAt d0 raws k.
Proof.
  intros Hk. apply lookup_ge_None in Hk. unfold stateAt.
  by rewrite !take_ge by lia.
Qed.

Lemma invokedAt_eq k r :
  raws !! k = Some r ->
  invokedAt d0 raws k = fst (update true r (stateAt d0 raws k)).
Proof. intros Hk. unfold invokedAt. by rewrite Hk. Qed.

Lemma countAt_eq k r :
  raws !! k = Some r ->
  countAt d0 raws k = trueCount (insertSample r (stateAt d0 raws k)).
Proof. intros Hk. unfold countAt. by rewrite Hk. Qed.

Lemma stateAt_config k :
  debounce_config (stateAt d0 raws k) = debounce_config d0.
Proof.
  induction k as [|k IH]; [done|].
  destruct (raws !! k) as [r|] eqn:Hk.
  - by rewrite (stateAt_S _ _ Hk), update_config.
  - by rewrite (stateAt_end _ Hk).
Qed.

Lemma stateAt_threshold k :
  thresholdCount (stateAt d0 raws k) = thresholdCount d0.
Proof. apply config_threshold, stateAt_config. Qed.

Lemma run_fresh i :
  fresh d0 -> (i <= length raws)%nat ->
  (forall k, (k < i)%nat -> countAt d0 raws k < thresholdCount d0) ->
  fresh (stateAt d0 raws i) /\
  _stableState (stateAt d0 raws i) = _stableState d0 /\
  forall k, (k < i)%nat -> invokedAt d0 raws k = [].
Proof.
  intros Hfresh. induction i as [|i IH]; intros Hi Hbelow.
  - repeat split; [apply Hfresh..|]. intros k Hk. lia.
  - destruct IH as (Hf & Hs & Hinv); [lia | intros k Hk; apply Hbelow; lia |].
    destruct (lookup_lt_is_Some_2 raws i ltac:(lia)) as [r Hr].
    pose proof (Hbelow i ltac:(lia)) as Hlt.
    rewrite (countAt_eq _ _ Hr), <- (stateAt_threshold i) in Hlt.
    destruct (update_fresh_below r _ Hf Hlt) as (Hnone & Hf' & Hs').
    rewrite (stateAt_S _ _ Hr). split; [done|]. split; [congruence|].
    intros k Hk. destruct (decide (k = i)) as [->|Hne].
    + by rewrite (invokedAt_eq _ _ Hr).
    + apply Hinv. lia.
Qed.

Lemma run_quiet i :
  quiet (stateAt d0 raws i) ->
  forall k, (i <= k)%nat ->
    quiet (stateAt d0 raws k) /\ invokedAt d0 raws k = [].
Proof.
  intros Hq.
  assert (Hstate : forall k, (i <= k)%nat -> quiet (stateAt d0 raws k)).
  { intros k Hk. induction Hk as [|k Hk IH]; [done|].
    destruct (raws !! k) as [r|] eqn:Hr.
    - rewrite (stateAt_S _ _ Hr). by apply update_quiet.
    - by rewrite (stateAt_end _ Hr). }
  intros k Hk. split; [by apply Hstate|].
  unfold invokedAt. destruct (raws !! k) as [r|]; [|done].
  by apply update_quiet, Hstate.
Qed.

Lemma run_disarmed j :
  _debouncing (stateAt d0 raws j) = false ->
  forall k, (j <= k)%nat -> stateAt d0 raws k = stateAt d0 raws j.
Proof.
  intros Hd k Hk. induction Hk as [|k Hk IH]; [done|].
  destruct (raws !! k) as [r|] eqn:Hr.
  - rewrite (stateAt_S _ _ Hr), IH. by rewrite update_disarmed.
  - by rewrite (stateAt_end _ Hr).
Qed.

Lemma run_held i j :
  0 <= thresholdCount d0 <= 16 ->
  held (stateAt d0 raws (S i)) -> (j < length raws)%nat ->
  (forall k, (i < k < j)%nat -> 16 - thresholdCount d0 < countAt d0 raws k) ->
  forall k, (i < k <= j)%nat -> held (stateAt d0 raws k).
Proof.
  intros HT Hheld Hj Habove k. induction k as [|k IH]; intros Hk; [lia|].
  destruct (decide (k = i)) as [->|Hne]; [done|].
  destruct (lookup_lt_is_Some_2 raws k ltac:(lia)) as [r Hr].
  rewrite (stateAt_S _ _ Hr). apply update_held_stay.
  - by rewrite stateAt_threshold.
  - apply IH. lia.
  - rewrite stateAt_threshold, <- (countAt_eq _ _ Hr). apply Habove. lia.
Qed.

End SessionRun.

(** C6.  A session armed by [startDebounce] from the disarmed, released
    state, fed any sequence of readings (one per elapsed sample interval),
    with K = 16 and a threshold percentage of at most 100:
    - thresholdCount is ceil(16 * thresholdPercent / 100) (10 for 60 percent,
      making the release bound 16 - 10 = 6);
    - while no reading has brought trueCount up to thresholdCount, no
      callback is invoked;
    - at the first reading with trueCount >= thresholdCount the registered
      callbacks are invoked, the stable state becomes pressed, and no other
      reading of the sequence invokes any callback;
    - after that the engine stays armed and pressed until a reading makes
      trueCount <= 16 - thresholdCount; that reading sets the stable state to
      released, clears the buffer and disarms, and later readings change
      nothing. *)
Theorem debounce_session (d : Debounce.CircularDebounceBuffer) (raws : list bool) :
  Debounce._debouncing d = false ->
  Debounce._stableState d = false ->
  0 <= Debounce._thresholdPercentage d <= 100 ->
  let d0 := Debounce.startDebounce d in
  let T := Debounce.thresholdCount d0 in
  let tc := Debounce.countAt d0 raws in
  let invoked := Debounce.invokedAt d0 raws in
  let st := Debounce.stateAt d0 raws in
  100 * (T - 1) < 16 * Debounce._thresholdPercentage d <= 100 * T /\
  (Debounce._thresholdPercentage d = 60 -> T = 10 /\ 16 - T = 6) /\
  (forall i, (i <= length raws)%nat ->
     (forall k, (k < i)%nat -> tc k < T) ->
     forall k, (k < i)%nat -> invoked k = []) /\
  (forall i, (i < length raws)%nat ->
     (forall k, (k < i)%nat -> tc k < T) -> T <= tc i ->
     invoked i = Debounce.fireCallbacks d /\
     (forall k, k <> i -> invoked k = []) /\
     Debounce._stableState (st (S i)) = true /\
     Debounce._debouncing (st (S i)) = true /\
     forall j, (i < j < length raws)%nat ->
       (forall k, (i < k < j)%nat -> 16 - T < tc k) ->
       (forall k, (i < k <= j)%nat ->
          Debounce._stableState (st k) = true /\ Debounce._debouncing (st k) = true) /\
       (tc j <= 16 - T ->
          Debounce._stableState (st (S j)) = false /\
          Debounce._buffer (st (S j)) = replicate 16 false /\
          Debounce._head (st (S j)) = 0%nat /\
          Debounce._debouncing (st (S j)) = false /\
          forall k, (j < k)%nat -> st k = st (S j))).
Proof.
  intros Hdis Hrel Hpct. cbn zeta.
  set (d0 := Debounce.startDebounce d).
  assert (Hd0 : d0 = Debounce.clearBuffer (Debounce.set_flags true false false d)).
  { subst d0. unfold Debounce.startDebounce. by rewrite Hdis, Hrel. }
  assert (Hfresh : fresh d0) by (by rewrite Hd0).
  assert (Hcfg : debounce_config d0 = debounce_config d) by (by rewrite Hd0).
  destruct (config_threshold d d0 Hcfg) as [HTeq Hfire].
  destruct (thresholdCount_ceiling d Hpct) as (HTval & HTrange & HTceil).
  rewrite <- HTeq in HTval, HTrange, HTceil.
  split; [exact HTceil|]. split.
  { intros H60. rewrite HTval, H60. by vm_compute. }
  split.
  { intros i Hi Hbelow. by apply (run_fresh d0 raws i Hfresh Hi Hbelow). }
  intros i Hi Hbelow Hreach.
  destruct (run_fresh d0 raws i Hfresh ltac:(lia) Hbelow) as (Hf & _ & Hbefore).
  destruct (lookup_lt_is_Some_2 raws i Hi) as [r Hr].
  rewrite (countAt_eq _ _ _ _ Hr), <- (stateAt_threshold d0 raws i) in Hreach.
  destruct (update_fresh_reach r _ Hf Hreach) as [Hinv Hheld].
  rewrite <- (stateAt_S _ _ _ _ Hr) in Hheld.
  assert (Hquiet : quiet (Debounce.stateAt d0 raws (S i)))
    by (left; apply Hheld).
  split.
  { rewrite (invokedAt_eq _ _ _ _ Hr), Hinv, <- Hfire.
    apply config_threshold, stateAt_config. }
  split.
  { intros k Hk. destruct (Nat.lt_ge_cases k i) as [Hlt|Hge].
    - by apply Hbefore.
    - apply (run_quiet d0 raws (S i) Hquiet). lia. }
  split; [apply Hheld|]. split; [apply Hheld|].
  intros j Hj Habove.
  pose proof (run_held d0 raws i j HTrange Hheld ltac:(lia) Habove) as Hjheld.
  split.
  { intros k Hk. destruct (Hjheld k Hk) as (? & ? & ?). done. }
  intros Hrelease.
  destruct (lookup_lt_is_Some_2 raws j ltac:(lia)) as [rj Hrj].
  rewrite (countAt_eq _ _ _ _ Hrj), <- (stateAt_threshold d0 raws j) in Hrelease.
  rewrite <- (stateAt_threshold d0 raws j) in HTrange.
  destruct (update_held_release rj _ HTrange (Hjheld j ltac:(lia)) Hrelease)
    as (Hs & Hb & Hh & Hdeb & _).
  cbn zeta in *. rewrite <- (stateAt_S _ _ _ _ Hrj) in Hs, Hb, Hh, Hdeb.
  repeat split; try done.
  intros k Hk. apply (run_disarmed d0 raws (S j) Hdeb). lia.
Qed.

Lemma debounce_session_witness :
  Debounce.thresholdCount
    (Debounce.startDebounce
       (Debounce.setThreshold THRESHOLD_DEBOUNCE
          (Debounce.addCallback (Some 1%nat)
             (Debounce.construct true [None; None; None; None])))) = 10.
Proof.
  exact (proj1 (proj1 (proj2
    (debounce_session
       (Debounce.setThreshold THRESHOLD_DEBOUNCE
          (Debounce.addCallback (Some 1%nat)
             (Debounce.construct true [None; None; None; None])))
       (replicate 10 false ++ replicate 11 true)
       eq_refl eq_refl ltac:(vm_compute; split; discriminate))) eq_refl)).
Defined.

(** * Further properties *)

(** ** avr_algorithms.hpp *)

Lemma after_calls_shift {St} (operation : M St bool) (s : St) (i : nat) :
  after_calls operation (snd (operation s)) i = after_calls operation s (S i).
Proof. unfold after_calls. by rewrite Nat.iter_succ_r. Qed.

Lemma answer_shift {St} (operation : M St bool) (s : St) (i : nat) :
  answer operation (snd (operation s)) i = answer operation s (S i).
Proof. unfold answer. by rewrite after_calls_shift. Qed.

Lemma repeat_loop_runs {St} (operation : M St bool) (fuel : nat) (s : St) :
  exists j : nat,
    (j <= fuel)%nat /\
    avr_algorithms.repeat_loop fuel operation s = (tt, after_calls operation s j) /\
    (forall i, (S i < j)%nat -> answer operation s i = true) /\
    ((j < fuel)%nat -> exists i, j = S i /\ answer operation s i = false).
Proof.
  revert s. induction fuel as [|fuel IH]; intros s.
  - exists 0%nat. repeat split; [lia | intros i Hi; lia | intros Hj; lia].
  - cbn [avr_algorithms.repeat_loop]. unfold bind.
    destruct (operation s) as [c s1] eqn:Hop.
    assert (Hs1 : s1 = snd (operation s)) by (by rewrite Hop).
    assert (Hc : c = answer operation s 0) by (unfold answer; cbn; by rewrite Hop).
    destruct c.
    + destruct (IH s1) as (j & Hj & Hrun & Htrue & Hfalse).
      exists (S j). split; [lia|]. split.
      { rewrite Hrun, Hs1. by rewrite after_calls_shift. }
      split.
      * intros [|i] Hi; [done|]. rewrite <- answer_shift, <- Hs1. apply Htrue. lia.
      * intros Hlt. destruct Hfalse as (i & -> & Hi); [lia|].
        exists (S i). split; [done|]. by rewrite <- answer_shift, <- Hs1.
    + exists 1%nat. split; [lia|]. split; [by rewrite Hs1|]. split.
      * intros i Hi. lia.
      * intros _. by exists 0%nat.
Qed.

(** X1.  [repeat_withExitCondition(n, operation)] calls [operation] some
    number [j <= max(n, 0)] of times in a row: every call but the last
    answered [true], and it stops short of [n] calls only right after a call
    that answered [false].  So nothing runs for [n <= 0], and an operation
    that keeps answering [true] runs exactly as under [repeat]. *)
Theorem repeat_withExitCondition_runs {St} (n : Z) (operation : M St bool) (s : St) :
  exists j : nat,
    (j <= Z.to_nat n)%nat /\
    avr_algorithms.repeat_withExitCondition n operation s
      = (tt, after_calls operation s j) /\
    (forall i, (S i < j)%nat -> answer operation s i = true) /\
    ((j < Z.to_nat n)%nat -> exists i, j = S i /\ answer operation s i = false) /\
    (n <= 0 -> j = 0%nat) /\
    ((forall i, (i < Z.to_nat n)%nat -> answer operation s i = true) ->
       avr_algorithms.repeat_withExitCondition n operation s
       = avr_algorithms.repeat n (fun s => (tt, snd (operation s))) s).
Proof.
  destruct (repeat_loop_runs operation (Z.to_nat n) s) as (j & Hj & Hrun & Htrue & Hfalse).
  exists j. split; [done|]. split; [done|]. split; [done|]. split; [done|].
  split; [lia|]. intros Hall.
  assert (j = Z.to_nat n) as ->.
  { destruct (decide (j < Z.to_nat n)%nat) as [Hlt|Hge]; [|lia].
    destruct (Hfalse Hlt) as (i & -> & Hi). rewrite Hall in Hi by lia. done. }
  unfold avr_algorithms.repeat_withExitCondition. rewrite Hrun. reflexivity.
Qed.

(** X2.  [for_each_until] answers whether the callable accepted every
    element, and calls it on the elements in order up to and including the
    first one it rejects, never on a later one; [for_each_element] calls it on
    every element whatever it answers. *)
Theorem for_each_until_stops {T} (p : T -> bool) (l calls : list T) :
  avr_more.for_each_until l (observe p) calls
  = (forallb p l, calls ++ take (S (length (prefix_while p l))) l) /\
  snd (avr_algorithms.for_each_element l (observe p) calls) = calls ++ l.
Proof.
  split.
  - revert calls. induction l as [|x l IH]; intros calls.
    + cbn. by rewrite app_nil_r.
    + cbn [avr_more.for_each_until forallb prefix_while]. unfold bind, observe at 1.
      destruct (p x); cbn [andb length].
      * rewrite IH. cbn [take]. by rewrite <- app_assoc.
      * reflexivity.
  - revert calls. induction l as [|x l IH]; intros calls.
    + cbn. by rewrite app_nil_r.
    + cbn [avr_algorithms.for_each_element]. unfold bind, observe at 1.
      rewrite IH. by rewrite <- app_assoc.
Qed.

Lemma find_if_impl_observed {T} (p : T -> bool) (l calls : list T) (it : nat) :
  avr_more.find_if_impl l (observe p) it calls
  = ((it + length (prefix_while (fun x => negb (p x)) l))%nat,
     calls ++ take (S (length (prefix_while (fun x => negb (p x)) l))) l).
Proof.
  revert calls it. induction l as [|x l IH]; intros calls it.
  - cbn. by rewrite Nat.add_0_r, app_nil_r.
  - cbn [avr_more.find_if_impl prefix_while]. unfold bind, observe at 1.
    destruct (p x); cbn [negb length].
    + by rewrite Nat.add_0_r.
    + rewrite IH. cbn [take]. rewrite <- app_assoc. f_equal. lia.
Qed.

Lemma prefix_while_spec {T} (q : T -> bool) (l : list T) :
  (length (prefix_while q l) <= length l)%nat /\
  (forall x, l !! length (prefix_while q l) = Some x -> q x = false) /\
  (forall j x, (j < length (prefix_while q l))%nat -> l !! j = Some x -> q x = true) /\
  (length (prefix_while q l) = length l <-> forallb q l = true).
Proof.
  induction l as [|y l (Hlen & Hat & Hbefore & Hall)].
  - cbn. repeat split; try done; intros; lia.
  - cbn [prefix_while forallb]. destruct (q y) eqn:Hy; cbn [length andb].
    + split; [lia|]. split; [exact Hat|]. split.
      * intros [|j] x Hj Hx; [by injection Hx as <- | apply (Hbefore j); [lia | done]].
      * rewrite <- Hall. lia.
    + split; [lia|]. split; [by intros x [= <-]|]. split; [intros; lia|].
      split; [lia | done].
Qed.

(** X3.  [find_if] returns the index of the first element satisfying the
    predicate, or the index one past the end when there is none (never a
    null result); it calls the predicate on the elements in order up to and
    including the one found, and on no later element. *)
Theorem find_if_first {T} (p : T -> bool) (l calls : list T) :
  let i := fst (avr_more.find_if l (observe p) calls) in
  snd (avr_more.find_if l (observe p) calls) = calls ++ take (S i) l /\
  (i <= length l)%nat /\
  (forall x, l !! i = Some x -> p x = true) /\
  (forall j x, (j < i)%nat -> l !! j = Some x -> p x = false) /\
  (i = length l <-> forall x, x ∈ l -> p x = false).
Proof.
  cbn zeta. unfold avr_more.find_if. rewrite find_if_impl_observed. cbn [fst snd Nat.add].
  destruct (prefix_while_spec (fun x => negb (p x)) l) as (Hlen & Hat & Hbefore & Hall).
  split; [done|]. split; [done|]. split.
  { intros x Hx. specialize (Hat x Hx). by destruct (p x). }
  split.
  { intros j x Hj Hx. specialize (Hbefore j x Hj Hx). by destruct (p x). }
  rewrite Hall, forallb_forall. split.
  - intros H x Hx. apply list_elem_of_In in Hx. specialize (H x Hx). by destruct (p x).
  - intros H x Hx. apply list_elem_of_In in Hx. by rewrite (H x Hx).
Qed.

Lemma count_if_loop_observed {T} (p : T -> bool) (l calls : list T) (count : Z) :
  0 <= count -> count + Z.of_nat (length l) < 2 ^ 16 ->
  avr_more.count_if_loop l (observe p) count calls
  = (count + Z.of_nat (length (List.filter p l)), calls ++ l).
Proof.
  revert calls count. induction l as [|x l IH]; intros calls count Hc Hlen.
  - cbn. by rewrite Z.add_0_r, app_nil_r.
  - cbn [avr_more.count_if_loop List.filter]. unfold bind, observe at 1.
    cbn [length] in Hlen. destruct (p x).
    + unfold size_t. rewrite Z.mod_small by lia. rewrite IH by lia.
      cbn [length]. rewrite <- app_assoc. f_equal. lia.
    + rewrite IH by lia. by rewrite <- app_assoc.
Qed.

Lemma count_loop_filter {T} `{EqDecision T} (l : list T) (v : T) (count : Z) :
  0 <= count -> count + Z.of_nat (length l) < 2 ^ 16 ->
  avr_more.count_loop l v count
  = count + Z.of_nat (length (List.filter (fun x => bool_decide (x = v)) l)).
Proof.
  revert count. induction l as [|x l IH]; intros count Hc Hlen.
  - cbn. lia.
  - cbn [avr_more.count_loop List.filter]. cbn [length] in Hlen.
    destruct (decide (x = v)) as [Heq|Hne].
    + rewrite bool_decide_eq_true_2 by done.
      unfold size_t. rewrite Z.mod_small by lia. rewrite IH by lia.
      cbn [length]. lia.
    + rewrite bool_decide_eq_false_2 by done. by rewrite IH by lia.
Qed.

Lemma filter_partition_length {T} (p : T -> bool) (l : list T) :
  (length (List.filter p l) + length (List.filter (fun x => negb (p x)) l)
   = length l)%nat.
Proof.
  induction l as [|x l IH]; [done|]. cbn [List.filter].
  destruct (p x); cbn [negb length]; lia.
Qed.

(** X4.  On a range of fewer than 2^16 elements (the width of the [size_t]
    counter), [count_if] returns the number of elements satisfying the
    predicate, calling it once on every element in order; the counts for a
    predicate and for its negation add up to the length; and [count] is
    [count_if] for equality with the value. *)
Theorem count_if_counts {T} `{EqDecision T} (p : T -> bool) (l calls : list T) (v : T) :
  Z.of_nat (length l) < 2 ^ 16 ->
  avr_more.count_if l (observe p) calls
    = (Z.of_nat (length (List.filter p l)), calls ++ l) /\
  fst (avr_more.count_if l (observe p) calls)
    + fst (avr_more.count_if l (observe (fun x => negb (p x))) calls)
    = Z.of_nat (length l) /\
  avr_more.count l v
    = fst (avr_more.count_if l (observe (fun x => bool_decide (x = v))) calls) /\
  0 <= avr_more.count l v <= Z.of_nat (length l).
Proof.
  intros Hlen. unfold avr_more.count_if, avr_more.count.
  rewrite !count_if_loop_observed, count_loop_filter by lia. cbn [fst].
  rewrite !Z.add_0_l. split; [done|]. split.
  { rewrite <- Nat2Z.inj_add. by rewrite filter_partition_length. }
  split; [done|].
  pose proof (filter_partition_length (fun x => bool_decide (x = v)) l) as Hp.
  cbv beta in Hp. set (a := length (List.filter _ l)) in *.
  clearbody a. revert Hp. generalize (length (List.filter (fun x => negb (bool_decide (x = v))) l)).
  intros b Hp. lia.
Qed.

Lemma count_if_counts_witness :
  avr_more.count [1; 2; 3; 2; 4] 2 = 2.
Proof.
  pose proof (count_if_counts (fun x => x =? 2) [1; 2; 3; 2; 4] [] 2
                ltac:(vm_compute; reflexivity)) as (_ & _ & Hcount & _).
  rewrite Hcount. reflexivity.
Defined.

Lemma copy_impl_spec {T} (range dest : list T) (pos max_count : nat) :
  (pos + Nat.min (length range) max_count <= length dest)%nat ->
  avr_more.copy_impl range dest pos max_count
  = (take pos dest ++ take (Nat.min (length range) max_count) range
       ++ drop (pos + Nat.min (length range) max_count) dest,
     (pos + Nat.min (length range) max_count)%nat).
Proof.
  revert dest pos max_count.
  induction range as [|x range IH]; intros dest pos max_count Hfit.
  - cbn [length Nat.min avr_more.copy_impl take app].
    destruct max_count; cbn [Nat.min]; rewrite Nat.add_0_r, take_drop; done.
  - destruct max_count as [|m].
    + cbn [avr_more.copy_impl]. rewrite Nat.min_0_r, Nat.add_0_r. cbn [take app].
      by rewrite take_drop.
    + cbn [avr_more.copy_impl length]. cbn [length] in Hfit.
      rewrite <- Nat.succ_min_distr in *.
      rewrite IH by (rewrite length_insert; lia).
      rewrite (take_S_r _ _ x) by (apply list_lookup_insert_eq; lia).
      rewrite take_insert_ge by lia. rewrite drop_insert_lt by lia.
      cbn [take]. rewrite <- app_assoc. cbn [app].
      replace (S pos + Nat.min (length range) m)%nat
        with (pos + S (Nat.min (length range) m))%nat by lia.
      done.
Qed.

(** X5.  [copy(begin, end, dest_first, dest_size)] with a destination that
    really has [dest_size] slots copies the first min(end - begin,
    dest_size) elements of the source to the front of the destination,
    leaves the rest of the destination as it was, and returns that number:
    it never writes past [dest_size]. *)
Theorem copy_prefix {T} (src dest : list T) (dest_size : nat) :
  (dest_size <= length dest)%nat ->
  let k := Nat.min (length src) dest_size in
  avr_more.copy src dest dest_size = (take k src ++ drop k dest, k) /\
  length (fst (avr_more.copy src dest dest_size)) = length dest.
Proof.
  intros Hfit. cbn zeta.
  assert (Hcopy : avr_more.copy src dest dest_size
    = (take (Nat.min (length src) dest_size) src
         ++ drop (Nat.min (length src) dest_size) dest,
       Nat.min (length src) dest_size)).
  { unfold avr_more.copy.
    destruct (Nat.ltb_spec dest_size (length src)) as [Hlong|Hshort].
    - rewrite length_take_le by lia.
      rewrite Nat.ltb_irrefl. rewrite copy_impl_spec by (rewrite length_take; lia).
      rewrite length_take_le by lia. rewrite Nat.min_id. cbn [fst take app Nat.add].
      rewrite Nat.min_r by lia. by rewrite take_take, Nat.min_id.
    - destruct (Nat.ltb_spec (length src) dest_size) as [Hlt|Hge].
      + rewrite copy_impl_spec by lia. rewrite Nat.min_id. cbn [fst take app Nat.add].
        rewrite Nat.min_l by lia. by rewrite firstn_all.
      + assert (dest_size = length src) as -> by lia.
        rewrite copy_impl_spec by lia. rewrite Nat.min_id. cbn [fst take app Nat.add].
        by rewrite firstn_all. }
  rewrite Hcopy. split; [done|]. cbn [fst].
  rewrite length_app, length_take, length_drop. lia.
Qed.

Lemma copy_prefix_witness :
  avr_more.copy [1; 2; 3; 4; 5] [0; 0; 0; 9] 3 = ([1; 2; 3; 9], 3%nat).
Proof.
  apply (copy_prefix [1; 2; 3; 4; 5] [0; 0; 0; 9] 3). cbn. lia.
Defined.

Lemma filter_length_le {T} (q : T -> bool) (l : list T) :
  (length (List.filter q l) <= length l)%nat.
Proof.
  induction l as [|x l IH]; [done|]. cbn [List.filter].
  destruct (q x); cbn [length]; lia.
Qed.

Lemma remove_if_impl_observed {T} (p : T -> bool) (orig : list T) (n : nat)
    (arr calls : list T) (it : nat) :
  let keep := fun x => negb (p x) in
  (it + n = length orig)%nat ->
  arr = List.filter keep (take it orig)
        ++ drop (length (List.filter keep (take it orig))) orig ->
  avr_more.remove_if_impl (observe p) arr it
    (length (List.filter keep (take it orig))) n calls
  = ((List.filter keep orig ++ drop (length (List.filter keep orig)) orig,
      length (List.filter keep orig)),
     calls ++ drop it orig).
Proof.
  cbn zeta. revert arr calls it.
  induction n as [|n IH]; intros arr calls it Hn Harr.
  - cbn [avr_more.remove_if_impl]. unfold ret.
    rewrite Nat.add_0_r in Hn. subst it.
    rewrite firstn_all in Harr. rewrite firstn_all, drop_all, app_nil_r.
    by rewrite Harr.
  - cbn [avr_more.remove_if_impl].
    set (kept := List.filter (fun x => negb (p x)) (take it orig)) in *.
    pose proof (filter_length_le (fun x => negb (p x)) (take it orig)) as Hk.
    fold kept in Hk. rewrite length_take in Hk.
    destruct (lookup_lt_is_Some_2 orig it ltac:(lia)) as [x Hx].
    assert (Hread : arr !! it = Some x).
    { rewrite Harr, lookup_app_r by lia. rewrite lookup_drop.
      by replace (length kept + (it - length kept))%nat with it by lia. }
    rewrite Hread. unfold bind, observe at 1.
    assert (Htake : List.filter (fun x => negb (p x)) (take (S it) orig)
                    = kept ++ (if p x then [] else [x])).
    { rewrite (take_S_r _ _ _ Hx), List.filter_app. cbn [List.filter].
      by destruct (p x). }
    assert (Hcalls : drop it orig = x :: drop (S it) orig)
      by (by rewrite (drop_S _ _ _ Hx)).
    destruct (p x) eqn:Hp.
    + rewrite app_nil_r in Htake.
      rewrite <- Htake at 1. rewrite (IH arr (calls ++ [x]) (S it)).
      * by rewrite Hcalls, <- app_assoc.
      * lia.
      * by rewrite Htake.
    + assert (Hlen : S (length kept)
                     = length (List.filter (fun x => negb (p x)) (take (S it) orig)))
        by (rewrite Htake, length_app; cbn; lia).
      rewrite Hlen. rewrite (IH _ (calls ++ [x]) (S it)).
      * by rewrite Hcalls, <- app_assoc.
      * lia.
      * rewrite <- Hlen, Htake, Harr.
        replace (length kept) with (length kept + 0)%nat at 1 by lia.
        rewrite insert_app_r.
        destruct (lookup_lt_is_Some_2 orig (length kept) ltac:(lia)) as [y Hy].
        rewrite (drop_S _ _ _ Hy). cbn. by rewrite <- app_assoc.
Qed.

(** X6.  [remove_if] moves the elements the predicate keeps to the front of
    the array, in their original order, and returns the index just past
    them; the slots from there on still hold what they held before the call,
    and the array keeps its length.  The predicate is called once on every
    element, in order. *)
Theorem remove_if_compacts {T} (p : T -> bool) (arr calls : list T) :
  let kept := List.filter (fun x => negb (p x)) arr in
  avr_more.remove_if arr (observe p) calls
    = ((kept ++ drop (length kept) arr, length kept), calls ++ arr) /\
  length (kept ++ drop (length kept) arr) = length arr.
Proof.
  cbn zeta. split.
  - unfold avr_more.remove_if.
    pose proof (remove_if_impl_observed p arr (length arr) arr calls 0
                  eq_refl eq_refl) as Himpl.
    cbn zeta in Himpl. exact Himpl.
  - pose proof (filter_length_le (fun x => negb (p x)) arr).
    rewrite length_app, length_drop. lia.
Qed.

(** ** SPIBus.cpp on the honest fake chip *)

Lemma isValid_false (r : ReadResult) :
  isValid r = false <-> status r = 0xFF \/ value r = 0xFF.
Proof.
  unfold isValid.
  destruct (Z.eqb_spec (status r) 0xFF), (Z.eqb_spec (value r) 0xFF);
    cbn; intuition congruence.
Qed.

Lemma readRegister_fake_exact (f : FakeBus) (a : Z) :
  0 <= a <= 0x3F ->
  SPIBus.readRegister a f
  = (read_result f a,
     mkFake (regs f) (chipStatus f) Deselected
       (wire f ++ concat (replicate (if isValid (read_result f a) then 1 else 3)%nat
                            [Z.lor a bitFlags.ReadSingle; bitFlags.DummyByte]))
       (stores f)).
Proof.
  intros Ha. destruct (isValid (read_result f a)) eqn:Hvalid.
  - rewrite readRegister_fake_valid by done. unfold after_read.
    cbn [replicate concat]. by rewrite app_nil_r.
  - unfold SPIBus.readRegister, bitFlags.AddressMask.
    destruct (Z.gtb_spec a 0x3F) as [Hgt|_]; [lia|].
    unfold avr_algorithms.repeat_withExitCondition.
    change (Z.to_nat 3) with 3%nat. cbn [avr_algorithms.repeat_loop]. unfold bind.
    rewrite read_attempt_fake by done. rewrite Hvalid. cbn [negb].
    rewrite read_attempt_fake by done.
    change (read_result (after_read f a) a) with (read_result f a).
    rewrite Hvalid. cbn [negb].
    rewrite read_attempt_fake by done.
    change (read_result (after_read (after_read f a) a) a) with (read_result f a).
    rewrite Hvalid. cbn [negb ret snd]. unfold after_read.
    cbn [regs chipStatus wire stores replicate concat].
    by rewrite app_nil_r, <- !app_assoc.
Qed.

(** X7.  Against the honest fake chip, [readRegister] of a valid address
    never changes a register and leaves the chip deselected.  It makes one
    read transaction when neither the status byte nor the register value is
    0xFF, and otherwise three, ending with the invalid verdict: a register
    that really holds 0xFF is always read three times and reported
    invalid. *)
Theorem readRegister_attempts (f : FakeBus) (a : Z) :
  0 <= a <= 0x3F ->
  let r := fst (SPIBus.readRegister a f) in
  let f' := snd (SPIBus.readRegister a f) in
  r = mkReadResult (u8 (chipStatus f)) (u8 (stored f a)) /\
  regs f' = regs f /\ stores f' = stores f /\ phase f' = Deselected /\
  wire f' = wire f ++ concat (replicate (if isValid r then 1 else 3)%nat
                                [Z.lor a 0x80; 0x00]) /\
  (isValid r = false <-> u8 (chipStatus f) = 0xFF \/ u8 (stored f a) = 0xFF).
Proof.
  intros Ha. cbn zeta. rewrite readRegister_fake_exact by done. cbn [fst snd].
  do 5 (split; [done|]). apply (isValid_false (read_result f a)).
Qed.

Lemma readRegister_attempts_witness :
  wire (snd (SPIBus.readRegister 0x02
               (snd (SPIBus.writeRegister 0x02 0xFF (fake0 0x0F)))))
  = wire (snd (SPIBus.writeRegister 0x02 0xFF (fake0 0x0F)))
    ++ [0x82; 0x00; 0x82; 0x00; 0x82; 0x00].
Proof.
  pose proof (readRegister_attempts
                (snd (SPIBus.writeRegister 0x02 0xFF (fake0 0x0F))) 0x02
                ltac:(lia)) as (_ & _ & _ & _ & Hwire & _).
  rewrite Hwire. reflexivity.
Defined.

Lemma write_attempt_fake_exact (f : FakeBus) (a v : Z) :
  0 <= a <= 0x3F -> 0 <= v <= 255 ->
  exists w,
    SPIBus.writeRegister_attempt a v f
    = (negb (negb (u8 (chipStatus f) =? 0xFF) && negb (v =? 0xFF)),
       mkFake (<[a := v]> (regs f)) (chipStatus f) Deselected w
         (stores f ++ [(a, v)])).
Proof.
  intros Ha Hv. unfold SPIBus.writeRegister_attempt.
  rewrite (bind_run _ _ _ _ _ (write_transaction_fake a v f Ha)).
  rewrite (bind_run _ _ _ _ _ (readRegister_fake_exact (after_write f a v) a Ha)).
  assert (Hres : read_result (after_write f a v) a = mkReadResult (u8 (chipStatus f)) v).
  { unfold read_result, stored, after_write. cbn [regs chipStatus].
    rewrite lookup_insert_eq. cbn. by rewrite (u8_small v) by lia. }
  rewrite Hres. unfold isValid at 1. cbn [status value]. rewrite Z.eqb_refl, andb_true_r.
  eexists. unfold after_write. cbn [regs chipStatus wire stores].
  destruct (negb (u8 (chipStatus f) =? 255) && negb (v =? 255)); cbn [negb ret];
    reflexivity.
Qed.

Lemma writeRegister_fake_exact (f : FakeBus) (a v : Z) :
  0 <= a <= 0x3F -> 0 <= v <= 255 ->
  exists w,
    SPIBus.writeRegister a v f
    = (false, mkFake (<[a := v]> (regs f)) (chipStatus f) Deselected w
                (stores f ++ replicate
                   (if negb (u8 (chipStatus f) =? 0xFF) && negb (v =? 0xFF)
                    then 1%nat else 3%nat) (a, v))).
Proof.
  intros Ha Hv. unfold SPIBus.writeRegister, bitFlags.AddressMask.
  destruct (Z.gtb_spec a 0x3F) as [Hgt|_]; [lia|].
  unfold avr_algorithms.repeat_withExitCondition.
  change (Z.to_nat 3) with 3%nat. cbn [avr_algorithms.repeat_loop].
  destruct (write_attempt_fake_exact f a v Ha Hv) as [w1 H1].
  unfold bind. rewrite H1.
  destruct (negb (u8 (chipStatus f) =? 255) && negb (v =? 255)) eqn:Hok;
    cbn [negb ret replicate].
  { by eexists. }
  set (f1 := mkFake _ _ _ w1 _).
  destruct (write_attempt_fake_exact f1 a v Ha Hv) as [w2 H2].
  rewrite H2. subst f1. cbn [chipStatus regs stores]. rewrite Hok. cbn [negb].
  set (f2 := mkFake _ _ _ w2 _).
  destruct (write_attempt_fake_exact f2 a v Ha Hv) as [w3 H3].
  rewrite H3. subst f2. cbn [chipStatus regs stores]. rewrite Hok. cbn [negb].
  exists w3. rewrite !insert_insert_eq, <- !app_assoc. reflexivity.
Qed.

(** X8.  Against the honest fake chip, [writeRegister(a, v)] with a valid
    address stores [v] in register [a] once when its readback passes the
    validity test (status and value both different from 0xFF) and three
    times otherwise; it changes no other register and leaves the chip
    deselected. *)
Theorem writeRegister_attempts (f : FakeBus) (a v : Z) :
  0 <= a <= 0x3F -> 0 <= v <= 255 ->
  let f' := snd (SPIBus.writeRegister a v f) in
  let k := if negb (u8 (chipStatus f) =? 0xFF) && negb (v =? 0xFF)
           then 1%nat else 3%nat in
  stores f' = stores f ++ replicate k (a, v) /\
  stored f' a = v /\
  (forall a', a' <> a -> stored f' a' = stored f a') /\
  phase f' = Deselected.
Proof.
  intros Ha Hv. cbn zeta.
  destruct (writeRegister_fake_exact f a v Ha Hv) as [w ->].
  cbn [snd stores phase]. unfold stored. cbn [regs].
  rewrite lookup_insert_eq. do 2 (split; [done|]). split; [|done].
  intros a' Hne. by rewrite lookup_insert_ne.
Qed.

Lemma writeRegister_attempts_witness :
  stores (snd (SPIBus.writeRegister 0x06 0xFF (fake0 0x0F)))
  = [(0x06, 0xFF); (0x06, 0xFF); (0x06, 0xFF)].
Proof.
  apply (writeRegister_attempts (fake0 0x0F) 0x06 0xFF); lia.
Defined.

(** ** The burst read on any device *)

Lemma land_address_mask (a : Z) : Z.land a bitFlags.AddressMask <= bitFlags.AddressMask.
Proof.
  change bitFlags.AddressMask with (Z.ones 6). rewrite Z.land_ones by lia.
  pose proof (Z.mod_pos_bound a (2 ^ 6) ltac:(lia)). change (Z.ones 6) with 63. lia.
Qed.

Lemma validateParameters_iff (a len : Z) (buffer : option (list Z)) :
  SPIBus_more.validateParameters a buffer len = true <->
  buffer <> None /\ len <= 64.
Proof.
  unfold SPIBus_more.validateParameters.
  destruct (Z.gtb_spec len 64) as [Hbig|Hsmall].
  { split; [discriminate | lia]. }
  pose proof (land_address_mask a).
  destruct (Z.gtb_spec (Z.land a bitFlags.AddressMask) bitFlags.AddressMask); [lia|].
  destruct buffer; split; try done; intros [? ?]; done.
Qed.

Lemma readBurstRegister_lemma {B : Type} `{SPIDevice B}
    (a len : Z) (buffer : option (list Z)) (s : B) :
  let r := SPIBus_more.readBurstRegister a buffer len s in
  (fst (fst r) = true <-> buffer = None \/ len > 64) /\
  (fst (fst r) = true -> r = ((true, buffer), s)) /\
  (fst (fst r) = false -> buffer <> None /\ snd (fst r) <> None).
Proof.
  cbn zeta. unfold SPIBus_more.readBurstRegister.
  destruct (SPIBus_more.validateParameters a buffer len) eqn:Hvalid; cbn [negb].
  - apply validateParameters_iff in Hvalid as [Hbuf Hlen].
    destruct buffer as [slots|]; [|done].
    destruct (avr_algorithms.repeat_withExitCondition 3 _ (slots, s))
      as [[] [slots' s']].
    cbn [fst snd]. split; [|split; [discriminate | done]].
    split; [discriminate|]. intros [?|?]; [done | lia].
  - cbn [ret fst snd]. split; [|split; [done | discriminate]].
    split; [intros _ | done].
    destruct buffer as [slots|]; [right | by left].
    destruct (Z.gtb_spec len 64) as [?|Hle]; [lia|]. exfalso.
    assert (SPIBus_more.validateParameters a (Some slots) len = true)
      by (apply validateParameters_iff; split; [done | lia]).
    congruence.
Qed.

(** X9.  On every device [readBurstRegister] answers [true] exactly when
    its parameter check fails, i.e. for a null buffer or a length above 64,
    and then it has touched neither the device nor the buffer; whenever it
    does read (any address at all, any length up to 64, zero included) it
    answers [false], whatever the device sent. *)
Theorem readBurstRegister_result {B : Type} `{SPIDevice B}
    (a len : Z) (buffer : option (list Z)) (s : B) :
  let r := SPIBus_more.readBurstRegister a buffer len s in
  (fst (fst r) = true <-> buffer = None \/ len > 64) /\
  (fst (fst r) = true -> r = ((true, buffer), s)) /\
  (fst (fst r) = false -> buffer <> None /\ snd (fst r) <> None).
Proof. apply readBurstRegister_lemma. Qed.

Lemma log_table_null : Transceiver_more.log_table None = ReadsNull.
Proof. reflexivity. Qed.

Lemma log_table_slots (slots : list Z) :
  Transceiver_more.log_table (Some slots)
  = Returns (map (fun i => slots !!! i) (seq 0 8)).
Proof. reflexivity. Qed.

(** X10.  On every device [readBackPATABLE] never answers [true].  For
    every non-null buffer it answers [false], also when the burst read
    delivered the table.  Handed a null pointer it takes its success branch
    without touching the device, because [readBurstRegister] answers [true]
    for the rejected parameters, and the logging loop there reads
    [paTable[0..7]] through the null pointer: undefined behaviour instead
    of a result. *)
Theorem readBackPATABLE_result {B : Type} `{SPIDevice B}
    (table : option (list Z)) (s : B) :
  let r := Transceiver_more.readBackPATABLE table s in
  fst (fst r) <> Returns true /\
  (table <> None -> fst (fst r) = Returns false) /\
  (table = None -> r = ((ReadsNull, None), s)) /\
  (fst (fst r) = ReadsNull <-> table = None).
Proof.
  cbn zeta. unfold Transceiver_more.readBackPATABLE.
  change (CC1101.Address.PATABLE >? bitFlags.AddressMask) with false. cbv iota.
  unfold bind.
  destruct (readBurstRegister_lemma CC1101.Address.PATABLE 8 table s)
    as (Hiff & Htrue & _).
  destruct (SPIBus_more.readBurstRegister CC1101.Address.PATABLE table 8 s)
    as [[ok table'] s'].
  cbn [fst snd] in *. destruct table as [slots|].
  - destruct ok.
    { destruct Hiff as [Hiff _]. destruct (Hiff eq_refl); [done | lia]. }
    cbn [ret fst]. repeat split; done.
  - destruct ok.
    + specialize (Htrue eq_refl). injection Htrue as -> ->.
      rewrite log_table_null. cbn [ret fst]. repeat split; done.
    + destruct Hiff as [_ Hiff]. specialize (Hiff (or_introl eq_refl)). done.
Qed.

(** ** The controller *)

Lemma land_low_nibble (a : Z) : Z.land a 15 = a mod 16.
Proof. apply (Z.land_ones a 4). lia. Qed.

Lemma land_low_byte (a : Z) : Z.land a 255 = a mod 256.
Proof. apply (Z.land_ones a 8). lia. Qed.

Lemma decodeStatus_lemma (r : ReadResult) :
  0 <= status r <= 255 ->
  let info := decodeStatus r in
  0 <= chipState info <= 15 /\ 0 <= fifoBytes info <= 15 /\
  16 * chipState info + fifoBytes info = status r.
Proof.
  intros Hs. cbn zeta. unfold decodeStatus. cbn [chipState fifoBytes].
  unfold bitFlags_ChipState, bitFlags_FIFObytes.
  rewrite !land_low_nibble.
  rewrite Z.shiftr_div_pow2 by lia. change (2 ^ 4) with 16.
  pose proof (Z.div_mod (status r) 16 ltac:(lia)).
  pose proof (Z.mod_pos_bound (status r) 16 ltac:(lia)).
  assert (0 <= status r / 16 < 16)
    by (split; [apply Z.div_pos; lia | apply Z.div_lt_upper_bound; lia]).
  rewrite (Z.mod_small (status r / 16)) by lia. lia.
Qed.

(** X11.  [decodeStatus] splits a status byte into its two nibbles: both
    fields are below 16 and put together again they give the status byte
    back. *)
Theorem decodeStatus_roundtrip (r : ReadResult) :
  0 <= status r <= 255 ->
  let info := decodeStatus r in
  0 <= chipState info <= 15 /\ 0 <= fifoBytes info <= 15 /\
  16 * chipState info + fifoBytes info = status r.
Proof. apply decodeStatus_lemma. Qed.

Lemma decodeStatus_roundtrip_witness :
  16 * chipState (decodeStatus (mkReadResult 0x2F 0x13))
  + fifoBytes (decodeStatus (mkReadResult 0x2F 0x13)) = 0x2F.
Proof.
  apply (decodeStatus_roundtrip (mkReadResult 0x2F 0x13)). cbn. lia.
Defined.

(** X12.  [chipStateToString] takes the state from the high nibble of its
    argument, so it names the chip state when handed the raw status byte;
    [StatusInfo::toString] hands it the already decoded [chipState] field,
    whose high nibble is zero, and so puts "IDLE" into its message for every
    status byte. *)
Theorem toString_state_is_always_IDLE (r : ReadResult) :
  0 <= status r <= 255 ->
  StatusInfo_stateStr (decodeStatus r) = "IDLE"%string /\
  chipStateToString (status r)
    = chipStateToString (16 * chipState (decodeStatus r)).
Proof.
  intros Hs.
  destruct (decodeStatus_lemma r Hs) as (Hc & Hf & Hsum).
  split.
  - unfold StatusInfo_stateStr, chipStateToString.
    rewrite Z.shiftr_div_pow2 by lia. rewrite Z.div_small by (change (2 ^ 4) with 16; lia).
    reflexivity.
  - unfold chipStateToString. rewrite !Z.shiftr_div_pow2 by lia. change (2 ^ 4) with 16.
    replace (status r / 16) with (chipState (decodeStatus r)).
    + by rewrite Z.mul_comm, Z.div_mul by lia.
    + apply (Z.div_unique _ 16 _ (fifoBytes (decodeStatus r))); lia.
Qed.

Lemma toString_state_is_always_IDLE_witness :
  StatusInfo_stateStr (decodeStatus (mkReadResult 0x2F 0x13)) = "IDLE"%string /\
  chipStateToString 0x2F = "TX"%string.
Proof.
  split.
  - apply (toString_state_is_always_IDLE (mkReadResult 0x2F 0x13)). cbn. lia.
  - reflexivity.
Defined.

(** X13.  For every frequency [setFrequency] accepts, the tuning word is
    floor(hz * 2^16 / 26000000) with no wrap-around in the 64-bit and
    32-bit steps, it fits in 24 bits, the three bytes written are its
    base-256 digits, and the frequency it stands for lies at most one
    synthesiser step (26 MHz / 2^16) below the one asked for. *)
Theorem tuningWord_bytes (hz : Z) :
  300000000 <= hz <= 928000000 ->
  let w := Transceiver.tuningWord hz in
  w = hz * 65536 / 26000000 /\
  0 <= w < 2 ^ 24 /\
  Z.land (Z.shiftr w 16) 0xFF * 65536 + Z.land (Z.shiftr w 8) 0xFF * 256
    + Z.land w 0xFF = w /\
  w * 26000000 <= hz * 65536 < (w + 1) * 26000000.
Proof.
  intros Hhz. cbn zeta.
  assert (Hw : Transceiver.tuningWord hz = hz * 65536 / 26000000).
  { unfold Transceiver.tuningWord, u32, u64, Transceiver.F_XOSC.
    change (Z.shiftl 1 16) with 65536.
    rewrite (Z.mod_small (hz * 65536)) by lia.
    apply Z.mod_small. split; [apply Z.div_pos; lia|].
    apply Z.div_lt_upper_bound; lia. }
  rewrite Hw. set (w := hz * 65536 / 26000000).
  assert (Hdiv : w * 26000000 <= hz * 65536 < (w + 1) * 26000000).
  { pose proof (Z.div_mod (hz * 65536) 26000000 ltac:(lia)).
    pose proof (Z.mod_pos_bound (hz * 65536) 26000000 ltac:(lia)).
    subst w. lia. }
  assert (Hrange : 0 <= w < 2 ^ 24).
  { subst w. split; [apply Z.div_pos; lia | apply Z.div_lt_upper_bound; lia]. }
  split; [done|]. split; [done|]. split; [|done].
  rewrite !land_low_byte, !Z.shiftr_div_pow2 by lia.
  change (2 ^ 16) with 65536. change (2 ^ 8) with 256. change (2 ^ 24) with 16777216 in Hrange.
  pose proof (Z.div_mod w 65536 ltac:(lia)).
  pose proof (Z.mod_pos_bound w 65536 ltac:(lia)).
  pose proof (Z.div_mod w 256 ltac:(lia)).
  pose proof (Z.mod_pos_bound w 256 ltac:(lia)).
  pose proof (Z.div_mod (w / 256) 256 ltac:(lia)).
  pose proof (Z.mod_pos_bound (w / 256) 256 ltac:(lia)).
  assert (w / 256 / 256 = w / 65536) by (rewrite Z.div_div by lia; reflexivity).
  assert (0 <= w / 65536 < 256)
    by (split; [apply Z.div_pos; lia | apply Z.div_lt_upper_bound; lia]).
  rewrite (Z.mod_small (w / 65536)) by lia. lia.
Qed.

Lemma tuningWord_bytes_witness :
  Transceiver.tuningWord 433920000 = 433920000 * 65536 / 26000000.
Proof. apply (tuningWord_bytes 433920000). lia. Defined.

(** X14.  Against the honest fake chip, [setFrequency] with a frequency in
    range leaves the three bytes of the tuning word in FREQ2, FREQ1 and
    FREQ0 (whatever the number of write attempts) and changes no other
    register. *)
Theorem setFrequency_registers (f : FakeBus) (hz : Z) :
  300000000 <= hz <= 928000000 ->
  let w := Transceiver.tuningWord hz in
  let f' := snd (Transceiver.setFrequency hz f) in
  stored f' CC1101.Address.FREQ2 = Z.land (Z.shiftr w 16) 0xFF /\
  stored f' CC1101.Address.FREQ1 = Z.land (Z.shiftr w 8) 0xFF /\
  stored f' CC1101.Address.FREQ0 = Z.land w 0xFF /\
  (forall a, a <> CC1101.Address.FREQ2 -> a <> CC1101.Address.FREQ1 ->
             a <> CC1101.Address.FREQ0 -> stored f' a = stored f a).
Proof.
  intros Hhz. cbn zeta. unfold Transceiver.setFrequency.
  destruct (Z.ltb_spec hz 300000000) as [?|_]; [lia|].
  destruct (Z.gtb_spec hz 928000000) as [?|_]; [lia|]. cbn [orb].
  unfold Transceiver.writeRegister, CC1101.Address.FREQ2, CC1101.Address.FREQ1,
    CC1101.Address.FREQ0.
  set (b2 := Z.land (Z.shiftr _ 16) 0xFF).
  set (b1 := Z.land (Z.shiftr _ 8) 0xFF).
  set (b0 := Z.land _ 0xFF).
  unfold bind.
  destruct (writeRegister_fake 0x0D b2 f ltac:(lia)) as [Hr1 _].
  destruct (SPIBus.writeRegister 0x0D b2 f) as [ok1 f1]. cbn [snd] in Hr1.
  destruct (writeRegister_fake 0x0E b1 f1 ltac:(lia)) as [Hr2 _].
  destruct (SPIBus.writeRegister 0x0E b1 f1) as [ok2 f2]. cbn [snd] in Hr2.
  destruct (writeRegister_fake 0x0F b0 f2 ltac:(lia)) as [Hr3 _].
  destruct (SPIBus.writeRegister 0x0F b0 f2) as [ok3 f3]. cbn [snd ret] in *.
  unfold stored. rewrite Hr3, Hr2, Hr1.
  rewrite lookup_insert_eq.
  rewrite !(lookup_insert_ne _ 15 14), !(lookup_insert_ne _ 15 13),
    !(lookup_insert_ne _ 14 13), !lookup_insert_eq by done.
  do 3 (split; [done|]). intros a H2 H1 H0.
  by rewrite !lookup_insert_ne by done.
Qed.

Lemma setFrequency_registers_witness :
  stored (snd (Transceiver.setFrequency 868000000 (fake0 0xFF))) CC1101.Address.FREQ2
  = Z.land (Z.shiftr (Transceiver.tuningWord 868000000) 16) 0xFF.
Proof. apply (setFrequency_registers (fake0 0xFF) 868000000). lia. Defined.

(** ** Strobes and the transmit sequence on the fake chip *)

Lemma strobe_transaction_fake (c : Z) (f : FakeBus) :
  SPIBus.applyTransaction (SPIBus.transferByte c) f
  = (tt, mkFake (regs f) (chipStatus f) Deselected (wire f ++ [c]) (stores f)).
Proof. reflexivity. Qed.

Lemma strobe_attempt_fake (c : CC1101.Strobes.Command) (success : bool) (f : FakeBus) :
  Transceiver.strobeCommand_attempt c (success, f)
  = (negb (u8 (stored f CC1101.Address.PARTNUM) =? 0),
     (if u8 (stored f CC1101.Address.PARTNUM) =? 0 then true else success,
      mkFake (regs f) (chipStatus f) Deselected
        (wire f ++ strobe_wire (CC1101.Strobes.code c) f) (stores f))).
Proof.
  unfold Transceiver.strobeCommand_attempt.
  rewrite strobe_transaction_fake. unfold Transceiver.readRegister.
  rewrite readRegister_fake_exact by (unfold CC1101.Address.PARTNUM; lia).
  cbn [regs chipStatus wire stores].
  set (f1 := mkFake _ _ _ (wire f ++ [_]) _).
  assert (Hres : read_result f1 CC1101.Address.PARTNUM
                 = read_result f CC1101.Address.PARTNUM) by reflexivity.
  rewrite Hres. unfold strobe_wire. rewrite <- app_assoc. cbn [app].
  unfold read_result at 1. cbn [value].
  by destruct (u8 (stored f CC1101.Address.PARTNUM) =? 0).
Qed.

Lemma strobeCommand_fake_exact (c : CC1101.Strobes.Command) (f : FakeBus) :
  Transceiver.strobeCommand c f
  = (u8 (stored f CC1101.Address.PARTNUM) =? 0,
     mkFake (regs f) (chipStatus f) Deselected
       (wire f ++ concat (replicate
                            (if u8 (stored f CC1101.Address.PARTNUM) =? 0
                             then 1%nat else 3%nat)
                            (strobe_wire (CC1101.Strobes.code c) f)))
       (stores f)).
Proof.
  unfold Transceiver.strobeCommand, avr_algorithms.repeat_withExitCondition.
  change (Z.to_nat 3) with 3%nat. cbn [avr_algorithms.repeat_loop].
  unfold bind. rewrite strobe_attempt_fake.
  destruct (u8 (stored f CC1101.Address.PARTNUM) =? 0) eqn:Hid;
    cbn [negb ret snd replicate concat].
  { by rewrite app_nil_r. }
  set (f1 := mkFake _ _ _ _ _).
  assert (H1 : stored f1 CC1101.Address.PARTNUM = stored f CC1101.Address.PARTNUM)
    by reflexivity.
  assert (W1 : strobe_wire (CC1101.Strobes.code c) f1
               = strobe_wire (CC1101.Strobes.code c) f) by reflexivity.
  rewrite strobe_attempt_fake, H1, Hid, W1. cbn [negb].
  subst f1. cbn [regs chipStatus wire stores].
  set (f2 := mkFake _ _ _ _ _).
  assert (H2 : stored f2 CC1101.Address.PARTNUM = stored f CC1101.Address.PARTNUM)
    by reflexivity.
  assert (W2 : strobe_wire (CC1101.Strobes.code c) f2
               = strobe_wire (CC1101.Strobes.code c) f) by reflexivity.
  rewrite strobe_attempt_fake, H2, Hid, W2. cbn [negb snd].
  subst f2. cbn [regs chipStatus wire stores].
  by rewrite app_nil_r, <- !app_assoc.
Qed.

Lemma strobeCommand_same_chip (c : CC1101.Strobes.Command) (f : FakeBus) :
  fst (Transceiver.strobeCommand c f) = (u8 (stored f CC1101.Address.PARTNUM) =? 0) /\
  same_chip (snd (Transceiver.strobeCommand c f)) f.
Proof. rewrite strobeCommand_fake_exact. by repeat split. Qed.

Lemma count_occ_strobe_wire (c : CC1101.Strobes.Command) (f : FakeBus) :
  count_occ Z.eq_dec (strobe_wire (CC1101.Strobes.code c) f) (CC1101.Strobes.code c)
  = 1%nat.
Proof.
  unfold strobe_wire.
  destruct (isValid (read_result f CC1101.Address.PARTNUM)); by destruct c.
Qed.

(** X15.  Against the fake chip, [strobeCommand] answers [true] exactly when
    the PARTNUM register reads zero, whatever the command; it clocks the
    command byte out once in that case and three times otherwise, and it
    writes no register. *)
Theorem strobeCommand_verdict (c : CC1101.Strobes.Command) (f : FakeBus) :
  let r := Transceiver.strobeCommand c f in
  let id_ok := u8 (stored f CC1101.Address.PARTNUM) =? 0 in
  fst r = id_ok /\
  count_occ Z.eq_dec (wire (snd r)) (CC1101.Strobes.code c)
    = (count_occ Z.eq_dec (wire f) (CC1101.Strobes.code c)
       + if id_ok then 1 else 3)%nat /\
  regs (snd r) = regs f /\ stores (snd r) = stores f /\
  phase (snd r) = Deselected.
Proof.
  cbn zeta. rewrite strobeCommand_fake_exact. cbn [fst snd wire regs stores phase].
  split; [done|]. split; [|done].
  rewrite count_occ_app. f_equal.
  pose proof (count_occ_strobe_wire c f) as Hone.
  destruct (u8 (stored f CC1101.Address.PARTNUM) =? 0);
    cbn [replicate concat]; rewrite ?count_occ_app, ?Hone; cbn; lia.
Qed.

Lemma enterIdle_attempt_same_chip (f : FakeBus) (st : bool * FakeBus) :
  same_chip (snd st) f -> same_chip (snd (snd (Transceiver.enterIdle_attempt st))) f.
Proof.
  destruct st as [success b]. cbn [snd]. intros Hb.
  unfold Transceiver.enterIdle_attempt.
  destruct (strobeCommand_same_chip CC1101.Strobes.SIDLE b) as [_ Hs].
  destruct (Transceiver.strobeCommand CC1101.Strobes.SIDLE b) as [ok b1].
  cbn [snd] in Hs.
  assert (same_chip b1 f).
  { destruct Hs as (?&?&?), Hb as (?&?&?). repeat split; congruence. }
  by destruct ok.
Qed.

Lemma enterTx_attempt_same_chip (f : FakeBus) (st : bool * FakeBus) :
  same_chip (snd st) f -> same_chip (snd (snd (Transceiver.enterTx_attempt st))) f.
Proof.
  destruct st as [success b]. cbn [snd]. intros Hb.
  unfold Transceiver.enterTx_attempt.
  destruct (strobeCommand_same_chip CC1101.Strobes.STX b) as [_ Hs].
  destruct (Transceiver.strobeCommand CC1101.Strobes.STX b) as [ok b1].
  cbn [snd] in Hs.
  assert (Hb1 : same_chip b1 f).
  { destruct Hs as (?&?&?), Hb as (?&?&?). repeat split; congruence. }
  destruct ok; cbn [negb]; [|done].
  unfold Transceiver.readRegister.
  destruct (readRegister_fake CC1101.Address.MARCSTATE b1
              ltac:(unfold CC1101.Address.MARCSTATE; lia)) as [_ Hr].
  destruct (SPIBus.readRegister CC1101.Address.MARCSTATE b1) as [r b2].
  cbn [snd] in Hr.
  assert (same_chip b2 f).
  { destruct Hr as (?&?&?), Hb1 as (?&?&?). repeat split; congruence. }
  by destruct (negb (value r =? 19)).
Qed.

Lemma enableTransmitMode_same_chip (f : FakeBus) :
  same_chip (snd (Transceiver.enableTransmitMode f)) f.
Proof.
  unfold Transceiver.enableTransmitMode, Transceiver.readRegister.
  destruct (readRegister_fake CC1101.Address.MARCSTATE f
              ltac:(unfold CC1101.Address.MARCSTATE; lia)) as [_ Hr].
  destruct (SPIBus.readRegister CC1101.Address.MARCSTATE f) as [r s1].
  cbn [snd] in Hr.
  unfold avr_algorithms.repeat_withExitCondition.
  assert (Hidle : same_chip
            (snd (if negb (value r =? 1)
                  then snd (avr_algorithms.repeat_loop (Z.to_nat 3)
                              Transceiver.enterIdle_attempt (false, s1))
                  else (true, s1))) f).
  { destruct (negb (value r =? 1)); [|done].
    apply (repeat_loop_inv (fun st : bool * FakeBus => same_chip (snd st) f));
      [apply enterIdle_attempt_same_chip | done]. }
  destruct (if negb (value r =? 1) then _ else _) as [idle_ok s2].
  cbn [snd] in Hidle.
  destruct idle_ok; cbn [negb]; [|done].
  apply (repeat_loop_inv (fun st : bool * FakeBus => same_chip (snd st) f));
    [apply enterTx_attempt_same_chip | done].
Qed.

(** X16.  Against the fake chip, a whole [transmitFrame] call writes no
    register, and its answer is whether PARTNUM reads zero: it depends
    neither on the frame nor on the MARCSTATE register, that is, not on
    whether the chip ever reached the transmit state. *)
Theorem transmitFrame_verdict {E : Type} `{IBitEncoder E}
    (bits : list Z) (f : FakeBus) (e : E) :
  let r := Transceiver.transmitFrame bits (f, e) in
  fst r = (u8 (stored f CC1101.Address.PARTNUM) =? 0) /\
  regs (fst (snd r)) = regs f /\
  stores (fst (snd r)) = stores f.
Proof.
  cbn zeta. unfold Transceiver.transmitFrame.
  pose proof (enableTransmitMode_same_chip f) as Htx.
  destruct (Transceiver.enableTransmitMode f) as [tx b1]. cbn [snd] in Htx.
  destruct (SC41344_FrameStreamer.streamFrame bits e) as [[] e1].
  destruct (strobeCommand_same_chip CC1101.Strobes.SIDLE b1) as [Hok Hs].
  destruct (Transceiver.strobeCommand CC1101.Strobes.SIDLE b1) as [ok b2].
  cbn [fst snd] in *.
  destruct Hs as (Hr2 & _ & Hst2), Htx as (Hr1 & _ & Hst1).
  assert (Hid : stored b1 CC1101.Address.PARTNUM = stored f CC1101.Address.PARTNUM)
    by (unfold stored; by rewrite Hr1).
  rewrite Hid in Hok.
  destruct ok; cbn [negb fst snd]; repeat split; congruence.
Qed.

(** ** The register table of [begin()] on the fake chip *)

Lemma for_each_config_fake (config : list RegisterSettings) (f : FakeBus) :
  Forall valid_entry config ->
  exists w,
    snd (avr_algorithms.for_each_element config
           (writeAndVerifyRegister Transceiver_more.writeLambda
              Transceiver_more.readLambda) f)
    = mkFake (config_regs config (regs f)) (chipStatus f)
        (match config with [] => phase f | _ => Deselected end) w
        (stores f ++ config_stores (chipStatus f) config).
Proof.
  intros Hall. revert f. induction Hall as [|rs config [Ha Hv] _ IH]; intros f.
  - exists (wire f). cbn. rewrite app_nil_r. by destruct f.
  - cbn [avr_algorithms.for_each_element]. unfold bind.
    unfold writeAndVerifyRegister at 1. unfold Transceiver_more.writeLambda at 1.
    unfold bind.
    destruct (writeRegister_fake_exact f (reg rs) (reg_value rs) Ha Hv) as [w1 ->].
    cbn [negb ret].
    set (f1 := mkFake _ _ _ w1 _).
    destruct (IH f1) as [w2 ->]. subst f1. cbn [regs chipStatus stores phase].
    exists w2. unfold config_regs, config_stores. cbn [fold_left flat_map].
    rewrite <- app_assoc. by destruct config.
Qed.

(** X17.  Step 3 of [begin()] against the fake chip: when every entry of the
    table has a register address and a byte value, the applier answers
    [true], every entry is stored in table order (once when the write's
    readback passes the validity test, three times otherwise, as for an
    entry whose value is 0xFF) and the register file ends up holding the
    table.  For every entry the applier's lambda reports failure right
    after the write, so its own verification read never runs. *)
Theorem begin_applyConfig_stores_table (config : list RegisterSettings) (f : FakeBus) :
  Forall valid_entry config ->
  let r := Transceiver_more.begin_applyConfig config f in
  fst r = true /\
  regs (snd r) = config_regs config (regs f) /\
  stores (snd r) = stores f ++ config_stores (chipStatus f) config /\
  (forall rs g,
     fst (writeAndVerifyRegister Transceiver_more.writeLambda
            Transceiver_more.readLambda rs g)
     = false /\
     snd (writeAndVerifyRegister Transceiver_more.writeLambda
            Transceiver_more.readLambda rs g)
     = snd (SPIBus.writeRegister (reg rs) (reg_value rs) g)).
Proof.
  intros Hall. cbn zeta.
  assert (Hentry : forall (rs : RegisterSettings) (g : FakeBus),
            fst (writeAndVerifyRegister Transceiver_more.writeLambda
                   Transceiver_more.readLambda rs g) = false /\
            snd (writeAndVerifyRegister Transceiver_more.writeLambda
                   Transceiver_more.readLambda rs g)
            = snd (SPIBus.writeRegister (reg rs) (reg_value rs) g)).
  { intros rs g. unfold writeAndVerifyRegister, Transceiver_more.writeLambda, bind.
    pose proof (writeRegister_result (reg rs) (reg_value rs) g) as Hres.
    destruct (SPIBus.writeRegister (reg rs) (reg_value rs) g) as [ok g1].
    cbn [fst] in Hres. subst ok. by cbn. }
  unfold Transceiver_more.begin_applyConfig.
  split; [apply applyRegisterConfig_result|].
  match goal with
  | |- ?A /\ ?B /\ _ =>
      enough (H2 : A /\ B)
        by (destruct H2 as [Ha Hb]; split; [exact Ha | split; [exact Hb | exact Hentry]])
  end.
  unfold applyRegisterConfig_CC1101, bind.
  destruct (for_each_config_fake config f Hall) as [w Hrun].
  destruct (avr_algorithms.for_each_element config _ f) as [u f1].
  cbn [snd ret] in *. by rewrite Hrun.
Qed.

Lemma begin_applyConfig_stores_table_witness :
  stores (snd (Transceiver_more.begin_applyConfig
                 [mkSetting 0x02 0x0D false; mkSetting 0x06 0xFF true] (fake0 0x0F)))
  = [(0x02, 0x0D); (0x06, 0xFF); (0x06, 0xFF); (0x06, 0xFF)].
Proof.
  apply (begin_applyConfig_stores_table
           [mkSetting 0x02 0x0D false; mkSetting 0x06 0xFF true] (fake0 0x0F)).
  repeat constructor; cbn; lia.
Defined.

(** ** The debounce engine *)

Section DebounceMore.
Import Debounce.

Implicit Types d s : CircularDebounceBuffer.

Lemma runCall_well_formed d (c : DebounceCall) :
  well_formed d -> well_formed (runCall d c).
Proof.
  unfold well_formed, BUFFER_SIZE, MAX_CALLBACKS.
  destruct d as [al deb st pr buf hd pct cbs cnt]. cbn.
  intros (Hlen & Hhead & Hpct & Hcbs & Hcnt & Hsp & Hpd & Hclr).
  assert (Hmod : (((hd + 1) mod 16) < 16)%nat) by (apply Nat.mod_upper_bound; lia).
  assert (Hflags : forall P : Prop, deb = false -> pr = true -> P)
    by (intros P Hd Hp; specialize (Hpd Hp); congruence).
  destruct c as [|elapsed raw|percentage|cb|]; cbn [runCall].
  - unfold startDebounce. cbn.
    destruct deb, st; cbn; repeat split; intros; subst; try done; try lia;
      first [by apply Hclr | by apply Hpd].
  - unfold update. cbn [_debouncing negb].
    destruct deb; cbn [negb snd];
      [|cbn; repeat split; intros; subst; try done; try lia;
        first [by apply Hclr | by apply Hpd]].
    destruct elapsed; cbn [negb snd];
      [|cbn; repeat split; intros; subst; try done; lia].
    match goal with
    | |- context [_pressedDetected (insertSample ?r ?s)] =>
        change (_pressedDetected (insertSample r s)) with pr
    end.
    destruct pr; cbn [negb].
    + destruct (_ <=? _); cbn; rewrite ?length_insert;
        repeat split; intros; subst; try done; lia.
    + destruct (_ >=? _); cbn; rewrite ?length_insert;
        repeat split; intros; subst; try done; lia.
  - unfold setThreshold.
    destruct (Z.leb_spec (u8 percentage) 100); cbn;
      repeat split; intros; subst; try done; try lia;
      first [by apply Hclr | by apply Hpd | unfold u8; apply Z.mod_pos_bound; lia].
  - unfold addCallback, MAX_CALLBACKS. cbn [_callbackCounter].
    destruct (Nat.ltb_spec cnt 4); cbn; rewrite ?length_insert;
      repeat split; intros; subst; try done; try lia;
      first [by apply Hclr | by apply Hpd].
  - unfold reset. cbn. repeat split; intros; try done; lia.
Qed.

Lemma construct_well_formed (isActiveLow : bool) (garbage : list Callback) :
  length garbage = MAX_CALLBACKS -> well_formed (construct isActiveLow garbage).
Proof.
  intros Hg. unfold well_formed, BUFFER_SIZE, MAX_CALLBACKS in *. cbn.
  repeat split; intros; try done; lia.
Qed.

End DebounceMore.

(** X18.  Whatever sequence of [startDebounce], [update], [setThreshold],
    [addCallback] and [reset] calls follows the constructor, the engine
    stays well formed: the ring index is below 16 and the buffer has 16
    slots (so [_buffer[_head]] is in bounds), at most four callbacks are
    counted (so [_callbacks[i]] is in bounds), the threshold is a
    percentage, the stable state is pressed exactly after a detected press
    and only while armed, and a disarmed engine has a cleared buffer. *)
Theorem engine_stays_well_formed (isActiveLow : bool) (garbage : list (option nat))
    (calls : list DebounceCall) :
  length garbage = Debounce.MAX_CALLBACKS ->
  well_formed (runCalls (Debounce.construct isActiveLow garbage) calls).
Proof.
  intros Hg. unfold runCalls.
  pose proof (construct_well_formed isActiveLow garbage Hg) as Hwf.
  revert Hwf. generalize (Debounce.construct isActiveLow garbage).
  induction calls as [|c calls IH]; intros d Hwf; [done|].
  cbn [fold_left]. by apply IH, runCall_well_formed.
Qed.

Lemma engine_stays_well_formed_witness :
  well_formed
    (runCalls (Debounce.construct true [None; None; None; None])
       [CallSetThreshold 60; CallAddCallback (Some 7%nat); CallStartDebounce;
        CallUpdate true false; CallUpdate true false; CallSetThreshold 300;
        CallReset]).
Proof.
  apply (engine_stays_well_formed true [None; None; None; None]). reflexivity.
Defined.

(** ** What the ring buffer holds during a session *)

Section WindowFacts.
Import Debounce.

Implicit Types d s : CircularDebounceBuffer.

Lemma ring_insert {A} (w : list A) (x : A) (h : nat) :
  length w = 16%nat -> (h < 16)%nat ->
  <[h := x]> (ring h w) = ring ((h + 1) mod 16) (drop 1 w ++ [x]).
Proof.
  intros Hlen Hh. unfold ring, BUFFER_SIZE.
  do 16 (destruct w as [|? w]; [done|]). destruct w; [|done].
  do 16 (destruct h as [|h]; [reflexivity|]). lia.
Qed.

Lemma count_slots (buf pre : list bool) (c : Z) :
  0 <= c -> c + Z.of_nat (length buf) <= 255 ->
  fold_left (fun (count : Z) (i : nat) =>
               if ((pre ++ buf) !!! i : bool) then u8 (count + 1) else count)
    (seq (length pre) (length buf)) c
  = c + Z.of_nat (length (List.filter id buf)).
Proof.
  revert pre c. induction buf as [|b buf IH]; intros pre c Hc Hlen.
  - cbn. lia.
  - cbn [length seq fold_left]. rewrite list_lookup_total_middle by done.
    replace (pre ++ b :: buf) with ((pre ++ [b]) ++ buf) by (by rewrite <- app_assoc).
    replace (S (length pre)) with (length (pre ++ [b])) by (rewrite length_app; cbn; lia).
    cbn [length] in Hlen. cbn [List.filter id].
    destruct b.
    + rewrite u8_small by lia. rewrite IH by lia. cbn [length]. lia.
    + rewrite IH by lia. lia.
Qed.

Lemma trueCount_filter d :
  length (_buffer d) = 16%nat ->
  trueCount d = Z.of_nat (length (List.filter id (_buffer d))).
Proof.
  intros Hlen. unfold trueCount, BUFFER_SIZE. rewrite <- Hlen.
  apply (count_slots (_buffer d) [] 0); lia.
Qed.

Lemma filter_ring (h : nat) (w : list bool) :
  length (List.filter id (ring h w)) = length (List.filter id w).
Proof.
  unfold ring. rewrite List.filter_app, length_app, Nat.add_comm, <- length_app,
    <- List.filter_app. by rewrite take_drop.
Qed.

Lemma filter_adjusted (al : bool) (l : list bool) :
  List.filter id (map (adjusted al) l) = map (adjusted al) (List.filter (adjusted al) l).
Proof.
  induction l as [|x l IH]; [done|]. cbn [map List.filter]. unfold id at 1.
  destruct (adjusted al x) eqn:Hx; cbn [map]; by rewrite ?Hx, IH.
Qed.

Lemma filter_cleared (n : nat) : List.filter id (replicate n false) = [].
Proof. induction n as [|n IH]; [done|]. exact IH. Qed.

Lemma history_length (al : bool) (raws : list bool) (k : nat) :
  (k <= length raws)%nat -> length (history al raws k) = 16%nat.
Proof.
  intros Hk. unfold history, BUFFER_SIZE.
  rewrite length_drop, length_app, length_replicate, length_map, length_take. lia.
Qed.

Lemma history_S (al : bool) (raws : list bool) (k : nat) (r : bool) :
  raws !! k = Some r ->
  history al raws (S k) = drop 1 (history al raws k) ++ [adjusted al r].
Proof.
  intros Hr. pose proof (lookup_lt_Some _ _ _ Hr) as Hk.
  unfold history, BUFFER_SIZE. rewrite (take_S_r _ _ _ Hr), map_app. cbn [map].
  rewrite drop_drop, app_assoc, Nat.add_1_r.
  rewrite drop_app_le; [done|].
  rewrite length_app, length_replicate, length_map, length_take. lia.
Qed.

Lemma history_count (al : bool) (raws : list bool) (k : nat) :
  length (List.filter id (history al raws (S k)))
  = length (List.filter (adjusted al) (window k raws)).
Proof.
  unfold history, window, BUFFER_SIZE.
  rewrite drop_app, List.filter_app, length_app, length_replicate.
  rewrite drop_replicate, filter_cleared. cbn [length].
  by rewrite List.skipn_map, filter_adjusted, length_map.
Qed.

Lemma update_armed (r : bool) s :
  _debouncing (snd (update true r s)) = true ->
  _debouncing s = true /\
  _isActiveLow (snd (update true r s)) = _isActiveLow s /\
  _buffer (snd (update true r s)) = _buffer (insertSample r s) /\
  _head (snd (update true r s)) = _head (insertSample r s).
Proof.
  unfold update. destruct (_debouncing s) eqn:Hd; cbn [negb snd]; [|congruence].
  change (_pressedDetected (insertSample r s)) with (_pressedDetected s).
  destruct (_pressedDetected s); cbn [negb].
  - destruct (_ <=? _); cbn [snd]; [done|]. by intros _.
  - destruct (_ >=? _); cbn [snd]; by intros _.
Qed.

Lemma insertSample_ring (al r : bool) (raws : list bool) (k : nat) s :
  raws !! k = Some r ->
  _isActiveLow s = al -> _head s = (k mod 16)%nat ->
  _buffer s = ring (k mod 16) (history al raws k) ->
  _head (insertSample r s) = (S k mod 16)%nat /\
  _buffer (insertSample r s) = ring (S k mod 16) (history al raws (S k)).
Proof.
  intros Hr Hal Hh Hb. pose proof (lookup_lt_Some _ _ _ Hr) as Hk.
  assert (Hmod : ((k mod 16 + 1) mod 16 = S k mod 16)%nat).
  { rewrite Nat.Div0.add_mod_idemp_l. by rewrite Nat.add_1_r. }
  unfold insertSample, BUFFER_SIZE. cbn [_head _buffer set_buffer].
  rewrite Hh, Hb, Hal, Hmod. split; [done|].
  rewrite ring_insert, Hmod, (history_S al raws k r Hr).
  - done.
  - apply history_length. lia.
  - apply Nat.mod_upper_bound. lia.
Qed.

Lemma armed_run d (raws : list bool) (k : nat) :
  _debouncing d = false -> _stableState d = false ->
  (k <= length raws)%nat ->
  _debouncing (stateAt (startDebounce d) raws k) = true ->
  let s := stateAt (startDebounce d) raws k in
  _isActiveLow s = _isActiveLow d /\ _head s = (k mod 16)%nat /\
  _buffer s = ring (k mod 16) (history (_isActiveLow d) raws k).
Proof.
  intros Hd Hs. cbn zeta. induction k as [|k IH]; intros Hk Harmed.
  - unfold stateAt, startDebounce. rewrite Hd, Hs. by cbn.
  - destruct (lookup_lt_is_Some_2 raws k ltac:(lia)) as [r Hr].
    rewrite (stateAt_S _ _ _ _ Hr) in Harmed |- *.
    destruct (update_armed r _ Harmed) as (Ha & Hal & Hb & Hh).
    destruct (IH ltac:(lia) Ha) as (IHal & IHh & IHb).
    destruct (insertSample_ring (_isActiveLow d) r raws k _ Hr IHal IHh IHb)
      as [Hh' Hb'].
    rewrite Hal, Hb, Hh. by repeat split.
Qed.

Lemma countAt_armed d (raws : list bool) (k : nat) :
  _debouncing d = false -> _stableState d = false ->
  (k < length raws)%nat ->
  _debouncing (stateAt (startDebounce d) raws k) = true ->
  countAt (startDebounce d) raws k
  = Z.of_nat (length (List.filter (adjusted (_isActiveLow d)) (window k raws))).
Proof.
  intros Hd Hs Hk Harmed.
  destruct (lookup_lt_is_Some_2 raws k Hk) as [r Hr].
  rewrite (countAt_eq _ _ _ _ Hr).
  destruct (armed_run d raws k Hd Hs ltac:(lia) Harmed) as (Hal & Hh & Hb).
  destruct (insertSample_ring (_isActiveLow d) r raws k _ Hr Hal Hh Hb) as [_ Hb'].
  rewrite trueCount_filter.
  - by rewrite Hb', filter_ring, history_count.
  - rewrite Hb'. unfold ring, BUFFER_SIZE.
    rewrite length_app, length_drop, length_take, history_length by lia. lia.
Qed.

Lemma window_length (k : nat) (raws : list bool) :
  (length (window k raws) <= S k)%nat /\ (length (window k raws) <= 16)%nat.
Proof. unfold window, BUFFER_SIZE. rewrite length_drop, length_take. lia. Qed.

Lemma filter_length_bound {A} (p : A -> bool) (l : list A) :
  (length (List.filter p l) <= length l)%nat.
Proof. induction l as [|x l IH]; [done|]. cbn. destruct (p x); cbn; lia. Qed.

End WindowFacts.

(** X19.  While a session started by [startDebounce] is armed, the
    [trueCount] that [update] computes at reading [k] is the number of
    active readings (low ones for an active-low button) among the last 16
    readings of the session up to and including reading [k]; slots not yet
    overwritten count as released. *)
Theorem trueCount_is_window_count (d : Debounce.CircularDebounceBuffer)
    (raws : list bool) (k : nat) :
  Debounce._debouncing d = false -> Debounce._stableState d = false ->
  (k < length raws)%nat ->
  Debounce._debouncing (Debounce.stateAt (Debounce.startDebounce d) raws k) = true ->
  Debounce.countAt (Debounce.startDebounce d) raws k
  = Z.of_nat (length (List.filter (adjusted (Debounce._isActiveLow d))
                        (drop (S k - 16) (take (S k) raws)))).
Proof. intros Hd Hs Hk Harmed. by apply countAt_armed. Qed.

Lemma trueCount_is_window_count_witness :
  Debounce.countAt
    (Debounce.startDebounce (Debounce.construct true [None; None; None; None]))
    [false; true; false] 2 = 2.
Proof.
  apply (trueCount_is_window_count (Debounce.construct true [None; None; None; None])
           [false; true; false] 2); [reflexivity | reflexivity | cbn; lia | reflexivity].
Defined.

(** ** How soon a press can be reported *)

Section LatencyFacts.
Import Debounce.

Implicit Types d s : CircularDebounceBuffer.

Lemma startDebounce_fresh d :
  _debouncing d = false -> _stableState d = false ->
  fresh (startDebounce d) /\
  debounce_config (startDebounce d) = debounce_config d.
Proof. intros Hd Hs. unfold startDebounce, fresh. rewrite Hd, Hs. by cbn. Qed.

Lemma filter_all {A} (p : A -> bool) (l : list A) :
  (forall x, x ∈ l -> p x = true) -> List.filter p l = l.
Proof.
  induction l as [|x l IH]; intros Hall; [done|]. cbn.
  rewrite (Hall x) by apply list_elem_of_here.
  f_equal. apply IH. intros y Hy. apply Hall. by apply list_elem_of_further.
Qed.

Lemma fresh_prefix d (raws : list bool) (i : nat) :
  _debouncing d = false -> _stableState d = false ->
  (i <= length raws)%nat ->
  (forall k, (k < i)%nat ->
     Z.of_nat (length (List.filter (adjusted (_isActiveLow d)) (window k raws)))
     < thresholdCount (startDebounce d)) ->
  (forall k, (k <= i)%nat -> fresh (stateAt (startDebounce d) raws k)) /\
  forall k, (k < i)%nat -> invokedAt (startDebounce d) raws k = [].
Proof.
  intros Hd Hs. destruct (startDebounce_fresh d Hd Hs) as [Hf0 _].
  induction i as [|i IH]; intros Hi Hlow.
  - split; intros k Hk; [|lia]. by replace k with 0%nat by lia.
  - destruct IH as [Hfresh Hinv]; [lia | intros k Hk; apply Hlow; lia |].
    assert (Hcount : forall k, (k < S i)%nat ->
              countAt (startDebounce d) raws k < thresholdCount (startDebounce d)).
    { intros k Hk.
      rewrite countAt_armed; [by apply Hlow | done | done | lia |].
      apply Hfresh. lia. }
    destruct (run_fresh (startDebounce d) raws (S i) Hf0 Hi Hcount) as (Hf & _ & Hnone).
    split; [|done]. intros k Hk.
    destruct (decide (k = S i)) as [->|Hne]; [done|]. apply Hfresh. lia.
Qed.

End LatencyFacts.

(** X20.  A session started by [startDebounce] cannot report the press
    before [thresholdCount] readings have been taken: no reading [k] with
    [k + 1 < thresholdCount] invokes a callback, whatever the pin reads
    (with the 60 percent of [main.cpp] that is the first nine readings). *)
Theorem no_press_before_threshold_readings (d : Debounce.CircularDebounceBuffer)
    (raws : list bool) (k : nat) :
  Debounce._debouncing d = false -> Debounce._stableState d = false ->
  Z.of_nat (S k) < Debounce.thresholdCount (Debounce.startDebounce d) ->
  Debounce.invokedAt (Debounce.startDebounce d) raws k = [].
Proof.
  intros Hd Hs Hk.
  destruct (raws !! k) as [r|] eqn:Hr; [|unfold Debounce.invokedAt; by rewrite Hr].
  pose proof (lookup_lt_Some _ _ _ Hr) as Hlen.
  apply (fresh_prefix d raws (S k) Hd Hs); [lia| |lia].
  intros j Hj.
  pose proof (filter_length_bound (adjusted (Debounce._isActiveLow d)) (window j raws)).
  pose proof (window_length j raws). lia.
Qed.

Lemma no_press_before_threshold_readings_witness :
  Debounce.invokedAt
    (Debounce.startDebounce
       (Debounce.addCallback (Some 7%nat)
          (Debounce.setThreshold 60 (Debounce.construct true [None; None; None; None]))))
    (replicate 20 false) 8 = [].
Proof.
  apply (no_press_before_threshold_readings
           (Debounce.addCallback (Some 7%nat)
              (Debounce.setThreshold 60
                 (Debounce.construct true [None; None; None; None])))
           (replicate 20 false) 8); [reflexivity | reflexivity | vm_compute; reflexivity].
Defined.

(** X21.  When the pin reads active from the first reading of a session on,
    the callbacks registered so far are invoked at reading number
    max(thresholdCount, 1), counted from one, and at no other reading (the
    tenth reading, 10 ms after arming at the 1000 us sample rate, with the
    60 percent of [main.cpp]). *)
Theorem steady_press_fires_on_time (d : Debounce.CircularDebounceBuffer)
    (raws : list bool) :
  Debounce._debouncing d = false -> Debounce._stableState d = false ->
  0 <= Debounce._thresholdPercentage d <= 100 ->
  let d0 := Debounce.startDebounce d in
  let n := Z.to_nat (Z.max (Debounce.thresholdCount d0) 1) in
  (n <= length raws)%nat ->
  Forall (fun r => adjusted (Debounce._isActiveLow d) r = true) (take n raws) ->
  Debounce.invokedAt d0 raws (n - 1) = Debounce.fireCallbacks d /\
  (forall k, k <> (n - 1)%nat -> Debounce.invokedAt d0 raws k = []) /\
  Debounce._stableState (Debounce.stateAt d0 raws n) = true.
Proof.
  intros Hd Hs Hpct. cbn zeta. intros Hn Hactive.
  rewrite Forall_forall in Hactive.
  destruct (startDebounce_fresh d Hd Hs) as [Hf0 Hcfg].
  destruct (config_threshold d (Debounce.startDebounce d) Hcfg) as [HT Hfire].
  destruct (thresholdCount_ceiling d Hpct) as (_ & HT16 & _).
  rewrite <- HT in HT16.
  set (T := Debounce.thresholdCount (Debounce.startDebounce d)) in *.
  set (n := Z.to_nat (Z.max T 1)) in *.
  assert (Hn1 : (1 <= n <= 16)%nat) by lia.
  assert (Hwin : forall k, (k < n)%nat ->
            length (List.filter (adjusted (Debounce._isActiveLow d)) (window k raws))
            = S k).
  { intros k Hk. rewrite filter_all.
    - unfold window, Debounce.BUFFER_SIZE. rewrite length_drop, length_take. lia.
    - intros x Hx. apply Hactive. unfold window in Hx.
      apply list_elem_of_lookup in Hx as [i Hi].
      rewrite lookup_drop in Hi. apply lookup_take_Some in Hi as [Hi Hlt].
      apply list_elem_of_lookup. exists (S k - Debounce.BUFFER_SIZE + i)%nat.
      rewrite lookup_take_lt by lia. done. }
  destruct (fresh_prefix d raws (n - 1) Hd Hs ltac:(lia)) as [Hfresh Hnone].
  { intros k Hk. rewrite Hwin by lia. lia. }
  destruct (lookup_lt_is_Some_2 raws (n - 1) ltac:(lia)) as [r Hr].
  pose proof (Hfresh (n - 1)%nat ltac:(lia)) as Hf.
  assert (Hreach : Debounce.thresholdCount (Debounce.stateAt (Debounce.startDebounce d) raws (n - 1))
                   <= Debounce.trueCount
                        (Debounce.insertSample r
                           (Debounce.stateAt (Debounce.startDebounce d) raws (n - 1)))).
  { rewrite (stateAt_threshold (Debounce.startDebounce d) raws (n - 1)).
    rewrite <- (countAt_eq _ _ _ _ Hr).
    rewrite countAt_armed; [|done|done|lia|apply Hf].
    rewrite Hwin by lia. fold T. lia. }
  destruct (update_fresh_reach r _ Hf Hreach) as [Hfired Hheld].
  assert (Hstate : Debounce.stateAt (Debounce.startDebounce d) raws n
                   = snd (Debounce.update true r
                            (Debounce.stateAt (Debounce.startDebounce d) raws (n - 1)))).
  { replace n with (S (n - 1)) at 1 by lia. by apply stateAt_S. }
  split.
  { rewrite (invokedAt_eq _ _ _ _ Hr), Hfired.
    rewrite (proj2 (config_threshold _ _
               (stateAt_config (Debounce.startDebounce d) raws (n - 1)))).
    exact Hfire. }
  split.
  - intros k Hk. destruct (decide (k < n - 1)%nat) as [Hlt|Hge]; [by apply Hnone|].
    apply (run_quiet (Debounce.startDebounce d) raws n); [|lia].
    left. rewrite Hstate. apply Hheld.
  - rewrite Hstate. apply Hheld.
Qed.

Lemma steady_press_fires_on_time_witness :
  Debounce.invokedAt
    (Debounce.startDebounce
       (Debounce.addCallback (Some 7%nat)
          (Debounce.setThreshold 60 (Debounce.construct true [None; None; None; None]))))
    (replicate 12 false) 9 = [7%nat].
Proof.
  apply (steady_press_fires_on_time
           (Debounce.addCallback (Some 7%nat)
              (Debounce.setThreshold 60
                 (Debounce.construct true [None; None; None; None])))
           (replicate 12 false));
    [reflexivity | reflexivity | vm_compute; split; discriminate | vm_compute; lia |].
  vm_compute. repeat constructor.
Defined.

(** ** The sample timer *)

(** X22.  [isDelayTimeElapsed] is right across the wrap-around of the
    32-bit [micros()] counter: when the timer was last restarted at time
    [t0] and is asked at time [t], less than 2^32 us later, it answers
    whether [t - t0] has reached the delay, although it only sees both
    times modulo 2^32; it restarts the timer exactly when it answers
    [true]. *)
Theorem isDelayTimeElapsed_across_wraparound (d : Delay.Delay) (t0 t micros : Z) :
  0 <= t0 <= t -> t - t0 < 2 ^ 32 ->
  Delay.previousTime d = u32 t0 ->
  let r := Delay.isDelayTimeElapsed (u32 t) micros d in
  fst r = (Delay.delayTime d <=? t - t0) /\
  snd r = (if fst r then Delay.mkDelay (Delay.delayTime d) micros else d).
Proof.
  intros Ht Hlt Hprev. cbn zeta. unfold Delay.isDelayTimeElapsed. rewrite Hprev.
  assert (Hdiff : u32 (u32 t - u32 t0) = t - t0).
  { unfold u32. rewrite <- Zminus_mod. apply Z.mod_small. lia. }
  rewrite Hdiff, Z.geb_leb.
  by destruct (Delay.delayTime d <=? t - t0).
Qed.

Lemma isDelayTimeElapsed_across_wraparound_witness :
  fst (Delay.isDelayTimeElapsed (u32 (2 ^ 32 + 200)) 250
         (Delay.mkDelay 1000 (u32 (2 ^ 32 - 900))))
  = (1000 <=? 2 ^ 32 + 200 - (2 ^ 32 - 900)).
Proof.
  apply (isDelayTimeElapsed_across_wraparound
           (Delay.mkDelay 1000 (u32 (2 ^ 32 - 900))) (2 ^ 32 - 900) (2 ^ 32 + 200) 250);
    [lia | lia | reflexivity].
Defined.

(** ** The output pin *)

Section PinFacts.
Import DigitalPin.

Lemma get_set_reg (r r' : Reg) (v : Z) (p : Ports) :
  get_reg r' (set_reg r v p) = if decide (r' = r) then v else get_reg r' p.
Proof. by destruct r, r'. Qed.

Lemma testbit_mask (pin i : Z) :
  0 <= pin -> Z.testbit (Z.shiftl 1 pin) i = (pin =? i).
Proof. intros Hp. rewrite Z.shiftl_1_l. by apply Z.pow2_bits_eqb. Qed.

Lemma testbit_u8 (x i : Z) : 0 <= i < 8 -> Z.testbit (u8 x) i = Z.testbit x i.
Proof.
  intros Hi. unfold u8. change 256 with (2 ^ 8).
  apply Z.mod_pow2_bits_low. lia.
Qed.

Lemma testbit_set_bit (x pin i : Z) :
  0 <= pin < 8 -> 0 <= i < 8 ->
  Z.testbit (u8 (Z.lor x (Z.shiftl 1 pin))) i = Z.testbit x i || (pin =? i).
Proof.
  intros Hp Hi. by rewrite testbit_u8, Z.lor_spec, testbit_mask by lia.
Qed.

Lemma testbit_clear_bit (x pin i : Z) :
  0 <= pin < 8 -> 0 <= i < 8 ->
  Z.testbit (u8 (Z.land x (Z.lnot (Z.shiftl 1 pin)))) i
  = Z.testbit x i && negb (pin =? i).
Proof.
  intros Hp Hi.
  by rewrite testbit_u8, Z.land_spec, Z.lnot_spec, testbit_mask by lia.
Qed.

Lemma writePin_level (d : DigitalPin) (data i : Z) (p : Ports) :
  valid_pin d -> 0 <= i < 8 ->
  pin_level (mkPin (port d) i) (snd (writePin d data p))
  = if pin d =? i then negb (data =? 0) else pin_level (mkPin (port d) i) p.
Proof.
  intros [[[[ddr out] inp] Hregs] Hpin] Hi.
  unfold pin_level, writePin. cbn [port pin]. rewrite Hregs.
  destruct (data =? 0); cbn [negb]; unfold set_bit, clear_bit; cbn [snd];
    rewrite get_set_reg, decide_True by done.
  - rewrite testbit_clear_bit by done. destruct (pin d =? i); cbn; [apply andb_false_r|apply andb_true_r].
  - rewrite testbit_set_bit by done. destruct (pin d =? i); cbn; [apply orb_true_r|apply orb_false_r].
Qed.

Lemma writePin_other_regs (d : DigitalPin) (data : Z) (p : Ports) (r : Reg) :
  (forall ddr out inp, port_regs (port d) = Some (ddr, out, inp) -> r <> out) ->
  get_reg r (snd (writePin d data p)) = get_reg r p.
Proof.
  intros Hr. unfold writePin.
  destruct (port_regs (port d)) as [[[ddr out] inp]|] eqn:Hregs; [|done].
  specialize (Hr ddr out inp eq_refl).
  destruct (negb (data =? 0)); unfold set_bit, clear_bit; cbn [snd];
    by rewrite get_set_reg, decide_False.
Qed.

End PinFacts.

(** X23.  [writePin] on a pin of port B, C or D (bit 0..7) sets the pin's
    bit of the port's output register to the level asked for (any nonzero
    value is high), leaves the level of the seven other pins of the port as
    it was, and changes no other I/O register. *)
Theorem writePin_drives_one_pin (d : DigitalPin.DigitalPin) (data : Z)
    (p : DigitalPin.Ports) :
  valid_pin d ->
  let p' := snd (DigitalPin.writePin d data p) in
  pin_level d p' = negb (data =? 0) /\
  (forall i, 0 <= i < 8 -> i <> DigitalPin.pin d ->
     pin_level (DigitalPin.mkPin (DigitalPin.port d) i) p'
     = pin_level (DigitalPin.mkPin (DigitalPin.port d) i) p) /\
  (forall r ddr out inp,
     DigitalPin.port_regs (DigitalPin.port d) = Some (ddr, out, inp) ->
     r <> out -> DigitalPin.get_reg r p' = DigitalPin.get_reg r p).
Proof.
  intros Hvalid. cbn zeta. split; [|split].
  - pose proof (writePin_level d data (DigitalPin.pin d) p Hvalid (proj2 Hvalid)) as H.
    rewrite Z.eqb_refl in H. by destruct d.
  - intros i Hi Hne. rewrite writePin_level by done.
    by destruct (Z.eqb_spec (DigitalPin.pin d) i).
  - intros r ddr out inp Hregs Hne. apply writePin_other_regs.
    intros ddr' out' inp' Hregs'. congruence.
Qed.

Lemma writePin_drives_one_pin_witness :
  pin_level (DigitalPin.mkPin "B"%char 0)
    (snd (DigitalPin.writePin (DigitalPin.mkPin "B"%char 0) DigitalPin.HIGH
            (DigitalPin.mkPorts 0 0xAA 0 0 0 0 0 0 0)))
  = negb (DigitalPin.HIGH =? 0).
Proof.
  apply (writePin_drives_one_pin (DigitalPin.mkPin "B"%char 0) DigitalPin.HIGH
           (DigitalPin.mkPorts 0 0xAA 0 0 0 0 0 0 0)).
  split; [by eexists | cbn; lia].
Defined.

(** ** The encoder on its pin *)

Section EncoderFacts.
Variable gdo0 : DigitalPin.DigitalPin.

Lemma writePin_board (data : Z) (b : Board) :
  SC41344_Encoder.writePin gdo0 data b
  = (tt, mkBoard (snd (DigitalPin.writePin gdo0 data (io b))) (wave b)).
Proof.
  unfold SC41344_Encoder.writePin, on_io.
  by destruct (DigitalPin.writePin gdo0 data (io b)) as [[] p].
Qed.

Lemma writePin_then {A} (data : Z) (k : M Board A) (b : Board) :
  (SC41344_Encoder.writePin gdo0 data ;;; k) b
  = k (mkBoard (snd (DigitalPin.writePin gdo0 data (io b))) (wave b)).
Proof. unfold bind. by rewrite writePin_board. Qed.

Lemma delay_then {A} (us : Z) (k : M Board A) (b : Board) :
  (delayMicroseconds us ;;; k) b = k (mkBoard (io b) (wave b ++ [(io b, us)])).
Proof. reflexivity. Qed.

Lemma pin_level_after (data : Z) (p : DigitalPin.Ports) :
  valid_pin gdo0 ->
  pin_level gdo0 (snd (DigitalPin.writePin gdo0 data p)) = negb (data =? 0).
Proof.
  intros Hvalid.
  pose proof (writePin_level gdo0 data (DigitalPin.pin gdo0) p Hvalid (proj2 Hvalid)) as H.
  rewrite Z.eqb_refl in H. by destruct gdo0.
Qed.

Lemma perform_pin (x : Symbol) (b : Board) :
  valid_pin gdo0 ->
  exists segments,
    wave (snd (@perform Board (PinEncoder gdo0) x b)) = wave b ++ segments /\
    levels gdo0 segments = symbol_levels x /\
    match x with
    | SymIdle | SymSilence =>
        pin_level gdo0 (io (snd (@perform Board (PinEncoder gdo0) x b))) = true
    | _ => pin_level gdo0 (io (snd (@perform Board (PinEncoder gdo0) x b))) = false
    end.
Proof.
  intros Hvalid.
  destruct x; cbn [perform PinEncoder sendOne sendZero sendOpen sendSilence
                     sendPreamble setIdle];
    unfold SC41344_Encoder.sendOne, SC41344_Encoder.sendZero,
      SC41344_Encoder.sendOpen, SC41344_Encoder.sendSilence,
      SC41344_Encoder.sendPreamble, SC41344_Encoder.setIdle,
      avr_algorithms.repeat, SC41344_Encoder.streamOneBitSeq,
      SC41344_Encoder.streamZeroBitSeq;
    change (Z.to_nat 2) with 2%nat; unfold Nat.iter; cbn [nat_rect snd];
    repeat first [ rewrite writePin_then | rewrite delay_then
                 | rewrite writePin_board ];
    unfold delayMicroseconds; cbn [snd io wave];
    rewrite <- ?app_assoc; cbn [app];
    eexists; (split; [try reflexivity; by rewrite app_nil_r|]);
    unfold levels; cbn [map fst snd symbol_levels];
    rewrite ?pin_level_after by done; by cbn.
Qed.

Lemma performAll_pin (xs : list Symbol) (b : Board) :
  valid_pin gdo0 ->
  exists segments,
    wave (@performAll Board (PinEncoder gdo0) xs b) = wave b ++ segments /\
    levels gdo0 segments = flat_map symbol_levels xs.
Proof.
  intros Hvalid. revert b. induction xs as [|x xs IH]; intros b.
  - exists []. by rewrite app_nil_r.
  - cbn [performAll fold_left flat_map].
    destruct (perform_pin x b Hvalid) as (s1 & Hw1 & Hl1 & _).
    destruct (IH (snd (@perform Board (PinEncoder gdo0) x b))) as (s2 & Hw2 & Hl2).
    exists (s1 ++ s2). unfold performAll in Hw2. rewrite Hw2, Hw1, <- app_assoc.
    split; [done|]. unfold levels in *. by rewrite map_app, Hl1, Hl2.
Qed.

End EncoderFacts.

Lemma performAll_app {E} `{IBitEncoder E} (xs ys : list Symbol) (e : E) :
  performAll (xs ++ ys) e = performAll ys (performAll xs e).
Proof. unfold performAll. by rewrite fold_left_app. Qed.

Lemma send_bits_performs {E} `{IBitEncoder E} (bits : list Z) (e : E) :
  snd (avr_algorithms.for_each_element bits SC41344_FrameStreamer.sendBit e)
  = performAll (map symbol_of_bit bits) e.
Proof.
  revert e. induction bits as [|b bits IH]; intros e; [done|].
  cbn [avr_algorithms.for_each_element map performAll fold_left]. unfold bind.
  assert (Hbit : SC41344_FrameStreamer.sendBit b e = perform (symbol_of_bit b) e).
  { unfold SC41344_FrameStreamer.sendBit, symbol_of_bit. by destruct (b =? 1). }
  rewrite Hbit. destruct (perform (symbol_of_bit b) e) as [[] e1]. apply IH.
Qed.

Lemma sendFrame_performs {E} `{IBitEncoder E} (bits : list Z) (e : E) :
  snd (SC41344_FrameStreamer.sendFrame bits e) = performAll (word bits) e.
Proof.
  unfold SC41344_FrameStreamer.sendFrame, bind, word.
  rewrite performAll_app, <- send_bits_performs.
  by destruct (avr_algorithms.for_each_element bits _ e) as [[] e1].
Qed.

Lemma silence_frame_performs {E} `{IBitEncoder E} (bits : list Z) (e : E) :
  snd ((sendSilence ;;; SC41344_FrameStreamer.sendFrame bits) e)
  = performAll (SymSilence :: word bits) e.
Proof.
  unfold bind. cbn [performAll fold_left perform].
  destruct (sendSilence e) as [[] e1]. cbn [snd]. apply sendFrame_performs.
Qed.

Lemma streamFrame_performAll {E} `{IBitEncoder E} (bits : list Z) (e : E) :
  snd (SC41344_FrameStreamer.streamFrame bits e) = performAll (frame_symbols bits) e.
Proof.
  unfold SC41344_FrameStreamer.streamFrame, frame_symbols, avr_algorithms.repeat.
  change (Z.to_nat FRAME_REPEATS) with 3%nat. cbn [replicate concat Nat.iter].
  rewrite app_nil_r, !performAll_app.
  unfold bind at 1. destruct (sendPreamble e) as [[] e1] eqn:Hpre.
  assert (H1 : performAll [SymPreamble] e = e1)
    by (cbn [performAll fold_left perform]; by rewrite Hpre).
  rewrite H1. unfold bind at 1.
  pose proof (sendFrame_performs bits e1) as Hframe.
  destruct (SC41344_FrameStreamer.sendFrame bits e1) as [[] e2]. cbn [snd] in Hframe.
  rewrite <- Hframe. unfold bind at 1. cbn [snd].
  rewrite <- !silence_frame_performs.
  unfold Nat.iter. cbn [nat_rect]. reflexivity.
Qed.

Lemma performAll_recorded (xs t : list Symbol) : performAll xs t = t ++ xs.
Proof.
  revert t. induction xs as [|x xs IH]; intros t.
  - by rewrite app_nil_r.
  - cbn [performAll fold_left]. unfold performAll in IH.
    assert (Hx : snd (perform x t) = t ++ [x]) by (by destruct x).
    by rewrite Hx, IH, <- app_assoc.
Qed.


(** X25.  Driven through a pin of port B, C or D, every call of the encoder
    appends its own pulse train to the waveform: long-short-long-short for
    a one, short-long-short-long for a zero and long-short-short-long for
    the open symbol (high times 2200 or 300 us, each followed by the
    complementary low time), each lasting DIGIT_PERIOD_US = 5000 us and
    ending low; 15000 us low for the silence and 10000 us low for the
    preamble; nothing for idle.  Silence and idle leave the pin high. *)
Theorem encoder_pulse_trains (gdo0 : DigitalPin.DigitalPin) (x : Symbol) (b : Board) :
  valid_pin gdo0 ->
  let b' := snd (@perform Board (PinEncoder gdo0) x b) in
  exists segments,
    wave b' = wave b ++ segments /\
    levels gdo0 segments = symbol_levels x /\
    pin_level gdo0 (io b')
      = (match x with SymIdle | SymSilence => true | _ => false end) /\
    (x = SymOne \/ x = SymZero \/ x = SymOpen -> duration segments = DIGIT_PERIOD_US).
Proof.
  intros Hvalid. cbn zeta.
  destruct (perform_pin gdo0 x b Hvalid) as (segments & Hw & Hl & Hlevel).
  exists segments. split; [done|]. split; [done|]. split; [by destruct x|].
  assert (Hd : duration segments = duration (levels gdo0 segments)).
  { unfold duration, levels. clear. induction segments as [|s l IH]; [done|].
    cbn. by rewrite IH. }
  rewrite Hd, Hl. by intros [->|[->| ->]].
Qed.

Lemma encoder_pulse_trains_witness :
  exists segments,
    wave (snd (@perform Board (PinEncoder (DigitalPin.mkPin "B"%char 0)) SymOpen
                 (mkBoard (DigitalPin.mkPorts 0 0 0 0 0 0 0 0 0) [])))
    = [] ++ segments /\
    levels (DigitalPin.mkPin "B"%char 0) segments = symbol_levels SymOpen.
Proof.
  destruct (encoder_pulse_trains (DigitalPin.mkPin "B"%char 0) SymOpen
              (mkBoard (DigitalPin.mkPorts 0 0 0 0 0 0 0 0 0) []))
    as (segments & Hw & Hl & _).
  - split; [by eexists | cbn; lia].
  - by exists segments.
Defined.

(** ** A whole frame on the pin *)

Lemma duration_app {A} (l1 l2 : list (A * Z)) :
  duration (l1 ++ l2) = duration l1 + duration l2.
Proof.
  unfold duration. induction l1 as [|s l1 IH]; [done|]. cbn in *. rewrite IH. lia.
Qed.

Lemma duration_levels (d : DigitalPin.DigitalPin) (segments : list (DigitalPin.Ports * Z)) :
  duration (levels d segments) = duration segments.
Proof.
  unfold duration, levels. induction segments as [|s l IH]; [done|].
  cbn. by rewrite IH.
Qed.

Lemma duration_word (bits : list Z) :
  duration (flat_map symbol_levels (word bits))
  = (Z.of_nat (length bits) + 1) * DIGIT_PERIOD_US.
Proof.
  unfold word, DIGIT_PERIOD_US. induction bits as [|b bits IH]; [done|].
  cbn [map app flat_map length]. rewrite duration_app, IH.
  unfold symbol_of_bit. destruct (b =? 1); cbn [symbol_levels duration fold_right snd]; lia.
Qed.

Lemma duration_frame (bits : list Z) :
  duration (flat_map symbol_levels (frame_symbols bits))
  = PREAMBLE_LOW_DURATION_US
    + (1 + FRAME_REPEATS) * ((Z.of_nat (length bits) + 1) * DIGIT_PERIOD_US)
    + FRAME_REPEATS * FRAME_SILENCE_BETWEEN_WORDS.
Proof.
  unfold frame_symbols. change (Z.to_nat FRAME_REPEATS) with 3%nat.
  cbn [replicate concat]. rewrite app_nil_r.
  repeat first [ rewrite flat_map_app | rewrite duration_app
               | rewrite duration_word | progress cbn [flat_map app] ].
  cbn [symbol_levels duration fold_right snd app].
  unfold PREAMBLE_LOW_DURATION_US, FRAME_REPEATS, FRAME_SILENCE_BETWEEN_WORDS,
    DIGIT_PERIOD_US. lia.
Qed.

(** X26.  [streamFrame] through a pin of port B, C or D puts on the pin the
    pulse trains of its symbols in order: 10 ms low, then four times the
    word (one symbol period per data bit plus the trailer) with 15 ms low
    before each repetition.  The frame takes
    10000 + 4 * (N + 1) * 5000 + 3 * 15000 us, 235 ms for the eight data
    bits of the remote, and leaves the pin high. *)
Theorem frame_waveform (gdo0 : DigitalPin.DigitalPin) (bits : list Z) (b : Board) :
  valid_pin gdo0 ->
  let b' := snd (@SC41344_FrameStreamer.streamFrame Board (PinEncoder gdo0) bits b) in
  exists segments,
    wave b' = wave b ++ segments /\
    levels gdo0 segments
      = flat_map symbol_levels
          (snd (SC41344_FrameStreamer.streamFrame bits ([] : list Symbol))) /\
    duration segments
      = 10000 + 4 * (Z.of_nat (length bits) + 1) * 5000 + 3 * 15000 /\
    (length bits = 8%nat -> duration segments = 235000) /\
    pin_level gdo0 (io b') = true.
Proof.
  intros Hvalid. cbn zeta.
  rewrite (streamFrame_performAll bits ([] : list Symbol)), performAll_recorded.
  cbn [app]. rewrite (@streamFrame_performAll Board (PinEncoder gdo0)).
  destruct (performAll_pin gdo0 (frame_symbols bits) b Hvalid) as (segments & Hw & Hl).
  exists segments. split; [done|]. split; [done|].
  assert (Hd : duration segments
               = 10000 + 4 * (Z.of_nat (length bits) + 1) * 5000 + 3 * 15000).
  { rewrite <- (duration_levels gdo0), Hl, duration_frame.
    unfold PREAMBLE_LOW_DURATION_US, FRAME_REPEATS, FRAME_SILENCE_BETWEEN_WORDS,
      DIGIT_PERIOD_US. lia. }
  split; [done|]. split; [intros H8; rewrite Hd, H8; lia|].
  unfold frame_symbols. rewrite !app_assoc, (@performAll_app Board (PinEncoder gdo0)).
  cbn [performAll fold_left].
  by destruct (perform_pin gdo0 SymIdle
                 (@performAll Board (PinEncoder gdo0)
                    (([SymPreamble] ++ word bits)
                     ++ concat (replicate (Z.to_nat FRAME_REPEATS)
                                  (SymSilence :: word bits))) b) Hvalid)
    as (_ & _ & _ & Hlevel).
Qed.

Lemma frame_waveform_witness :
  exists segments,
    wave (snd (@SC41344_FrameStreamer.streamFrame Board
                 (PinEncoder (DigitalPin.mkPin "B"%char 0)) [1; 0; 0; 1; 1; 0; 1; 0]
                 (mkBoard (DigitalPin.mkPorts 0 0 0 0 0 0 0 0 0) [])))
    = [] ++ segments /\
    duration segments = 235000.
Proof.
  destruct (frame_waveform (DigitalPin.mkPin "B"%char 0) [1; 0; 0; 1; 1; 0; 1; 0]
              (mkBoard (DigitalPin.mkPorts 0 0 0 0 0 0 0 0 0) []))
    as (segments & Hw & _ & _ & H8 & _).
  - split; [by eexists | cbn; lia].
  - exists segments. split; [done | by apply H8].
Defined.

(** ** The register table and the verdict of [begin()] *)

Lemma config_regs_app (xs ys : list RegisterSettings) (m : gmap Z Z) :
  config_regs (xs ++ ys) m = config_regs ys (config_regs xs m).
Proof. unfold config_regs. by rewrite fold_left_app. Qed.

Lemma config_regs_padding (n : nat) (m : gmap Z Z) :
  config_regs (replicate (S n) (mkSetting 0 0 false)) m !! 0 = Some 0.
Proof.
  revert m. induction n as [|n IH]; intros m.
  - cbn. by rewrite lookup_insert_eq.
  - change (replicate (S (S n)) (mkSetting 0 0 false))
      with ([mkSetting 0 0 false] ++ replicate (S n) (mkSetting 0 0 false)).
    rewrite config_regs_app. apply IH.
Qed.

Lemma config_stores_padding (st : Z) (n : nat) :
  last (config_stores st (replicate (S n) (mkSetting 0 0 false))) = Some (0, 0).
Proof.
  induction n as [|n IH].
  - unfold config_stores. cbn [replicate flat_map reg reg_value].
    rewrite app_nil_r. by destruct (negb (u8 st =? 255) && negb (0 =? 255)).
  - change (replicate (S (S n)) (mkSetting 0 0 false))
      with ([mkSetting 0 0 false] ++ replicate (S n) (mkSetting 0 0 false)).
    unfold config_stores in *. rewrite flat_map_app.
    destruct (flat_map _ (replicate (S n) _)) as [|x l] eqn:Hl; [done|].
    rewrite last_app_cons. exact IH.
Qed.

(** X27.  A register table declared as [std::array<RegisterSettings, N>]
    with fewer than [N] initialisers is padded with zero entries, and step 3
    of [begin()] applies those too: its last register write stores 0x00 in
    register 0x00 (IOCFG2).  [setting_Regs] is such a table: 24 elements,
    23 initialisers. *)
Theorem padded_table_writes_register_zero (N : nat)
    (initialisers : list RegisterSettings) (f : FakeBus) :
  (length initialisers < N)%nat ->
  Forall valid_entry initialisers ->
  let r := Transceiver_more.begin_applyConfig (std_array N initialisers) f in
  length (std_array N initialisers) = N /\
  stored (snd r) 0x00 = 0x00 /\
  last (stores (snd r)) = Some (0x00, 0x00).
Proof.
  intros Hlen Hvalid. cbn zeta.
  assert (Hpad : exists n, (N - length initialisers = S n)%nat)
    by (exists (N - length initialisers - 1)%nat; lia).
  destruct Hpad as [n Hn].
  split. { unfold std_array. rewrite length_app, length_replicate. lia. }
  assert (Hall : Forall valid_entry (std_array N initialisers)).
  { unfold std_array. apply Forall_app. split; [done|].
    apply Forall_replicate. unfold valid_entry. cbn. lia. }
  unfold Transceiver_more.begin_applyConfig, applyRegisterConfig_CC1101, bind.
  destruct (for_each_config_fake (std_array N initialisers) f Hall) as [w Hrun].
  destruct (avr_algorithms.for_each_element (std_array N initialisers) _ f) as [u f1].
  cbn [snd ret] in *. rewrite Hrun. unfold stored. cbn [regs stores].
  unfold std_array. rewrite Hn. split.
  - by rewrite config_regs_app, config_regs_padding.
  - unfold config_stores. rewrite flat_map_app.
    pose proof (config_stores_padding (chipStatus f) n) as Hlast.
    unfold config_stores in Hlast.
    destruct (flat_map _ (replicate (S n) _)) as [|x l] eqn:Hl; [done|].
    by rewrite app_assoc, last_app_cons.
Qed.

Lemma padded_table_writes_register_zero_witness :
  length Config_315MHz_OOK.setting_Regs = 24%nat /\
  stored (snd (Transceiver_more.begin_applyConfig Config_315MHz_OOK.setting_Regs
                 (mkFake {[ 0x00 := 0x29 ]} 0x0F Deselected [] []))) 0x00 = 0x00.
Proof.
  unfold Config_315MHz_OOK.setting_Regs.
  match goal with
  | |- context [std_array ?N ?l] =>
      destruct (padded_table_writes_register_zero N l
                  (mkFake {[ 0x00 := 0x29 ]} 0x0F Deselected [] []))
        as (Hlen & Hzero & _)
  end.
  - unfold NUM_REG_TO_CONFIG_CC1101. cbn. lia.
  - repeat constructor; cbn; lia.
  - by split.
Defined.

Lemma same_chip_trans (f g h : FakeBus) : same_chip f g -> same_chip g h -> same_chip f h.
Proof. intros (?&?&?) (?&?&?). repeat split; congruence. Qed.

Lemma check_attempt_fake (f2 : FakeBus) (success : bool) (b : FakeBus) :
  same_chip b f2 ->
  let ok := (u8 (stored f2 CC1101.Address.PARTNUM) =? 0)
            && (u8 (stored f2 CC1101.Address.VERSION) =? 0x14) in
  exists b',
    same_chip b' f2 /\
    Transceiver_begin.check_attempt (success, b)
    = (negb ok, (if ok then true else success, b')).
Proof.
  intros Hb. cbn zeta.
  unfold Transceiver_begin.check_attempt, Transceiver.readRegister.
  destruct (readRegister_fake CC1101.Address.PARTNUM b
              ltac:(unfold CC1101.Address.PARTNUM; lia)) as [Hr1 Hs1].
  destruct (SPIBus.readRegister CC1101.Address.PARTNUM b) as [r1 b1].
  cbn [fst snd] in Hr1, Hs1.
  pose proof (same_chip_trans _ _ _ Hs1 Hb) as Hb1.
  assert (Hv1 : value r1 = u8 (stored f2 CC1101.Address.PARTNUM))
    by (by rewrite Hr1, (same_chip_read _ _ _ Hb)).
  rewrite Hv1.
  destruct (u8 (stored f2 CC1101.Address.PARTNUM) =? 0); cbn [negb andb];
    [|by exists b1].
  destruct (readRegister_fake CC1101.Address.VERSION b1
              ltac:(unfold CC1101.Address.VERSION; lia)) as [Hr2 Hs2].
  destruct (SPIBus.readRegister CC1101.Address.VERSION b1) as [r2 b2].
  cbn [fst snd] in Hr2, Hs2.
  pose proof (same_chip_trans _ _ _ Hs2 Hb1) as Hb2.
  assert (Hv2 : value r2 = u8 (stored f2 CC1101.Address.VERSION))
    by (by rewrite Hr2, (same_chip_read _ _ _ Hb1)).
  rewrite Hv2. exists b2.
  by destruct (u8 (stored f2 CC1101.Address.VERSION) =? 20).
Qed.

(** X28.  From step 3 on, the verdict of [begin()] against the fake chip is
    whether PARTNUM reads 0x00 and VERSION reads 0x14 once the register
    table and the power table have been written: the outcomes of those two
    steps are not looked at, and the identity check itself writes
    nothing. *)
Theorem begin_verdict_is_the_identity_check (config : list RegisterSettings)
    (paTableIndex : Z) (f : FakeBus) :
  let f2 := snd (Transceiver.configurePATable paTableIndex
                   (snd (Transceiver_more.begin_applyConfig config f))) in
  let r := Transceiver_begin.begin_from_step3 config paTableIndex f in
  fst r = (u8 (stored f2 CC1101.Address.PARTNUM) =? 0)
          && (u8 (stored f2 CC1101.Address.VERSION) =? 0x14) /\
  regs (snd r) = regs f2 /\ stores (snd r) = stores f2.
Proof.
  cbn zeta. unfold Transceiver_begin.begin_from_step3.
  destruct (Transceiver_more.begin_applyConfig config f) as [ok1 f1]. cbn [snd].
  destruct (Transceiver.configurePATable paTableIndex f1) as [[] f2]. cbn [snd].
  set (ok := (u8 (stored f2 CC1101.Address.PARTNUM) =? 0)
             && (u8 (stored f2 CC1101.Address.VERSION) =? 0x14)).
  unfold avr_algorithms.repeat_withExitCondition. change (Z.to_nat 3) with 3%nat.
  pose proof (repeat_loop_post
    (fun st : bool * FakeBus => same_chip (snd st) f2 /\ (fst st = true -> ok = true))
    (fun st : bool * FakeBus => fst st = ok /\ same_chip (snd st) f2)
    Transceiver_begin.check_attempt) as Hloop.
  destruct (Hloop) with (fuel := 2%nat) (s := (false, f2)) as [Hres Hsame].
  - intros [success b] [Hs Himp]. cbn [fst snd] in *.
    destruct (check_attempt_fake f2 success b Hs) as (b' & Hs' & ->).
    fold ok. cbn [fst snd]. clearbody ok.
    assert (Hflag : (if ok then true else success) = ok).
    { destruct ok; [done|]. destruct success; [|done]. by specialize (Himp eq_refl). }
    split; [by split|]. split; [done|]. rewrite Hflag. by intros ->.
  - by split.
  - destruct (snd (avr_algorithms.repeat_loop 3 Transceiver_begin.check_attempt (false, f2)))
      as [success b3].
    cbn [fst snd] in *. destruct Hsame as (Hr & _ & Hst).
    subst success. clearbody ok. by destruct ok.
Qed.

(** X29.  [SC41344_Encoder::begin()] on a pin of port B, C or D makes the
    pin an output (its data direction bit is set) and drives it high; it
    adds nothing to the waveform. *)
Theorem encoder_begin_drives_pin_high (gdo0 : DigitalPin.DigitalPin) (b : Board) :
  valid_pin gdo0 ->
  let b' := snd (SC41344_Encoder.begin gdo0 b) in
  wave b' = wave b /\
  pin_level gdo0 (io b') = true /\
  forall ddr out inp,
    DigitalPin.port_regs (DigitalPin.port gdo0) = Some (ddr, out, inp) ->
    ddr <> out ->
    Z.testbit (DigitalPin.get_reg ddr (io b')) (DigitalPin.pin gdo0) = true.
Proof.
  intros Hvalid. cbn zeta.
  assert (Hrun : SC41344_Encoder.begin gdo0 b
            = (tt, mkBoard
                     (snd (DigitalPin.writePin gdo0 DigitalPin.HIGH
                             (snd (DigitalPin.pinConfig gdo0 false false (io b)))))
                     (wave b))).
  { unfold SC41344_Encoder.begin, bind, on_io at 1.
    destruct (DigitalPin.pinConfig gdo0 false false (io b)) as [[] p1].
    by rewrite writePin_board. }
  rewrite Hrun. cbn [snd wave io].
  split; [done|]. split; [by apply pin_level_after|].
  intros ddr out inp Hregs Hne.
  rewrite (writePin_other_regs gdo0 DigitalPin.HIGH _ ddr)
    by (intros ddr' out' inp' Hregs'; congruence).
  unfold DigitalPin.pinConfig. rewrite Hregs.
  unfold DigitalPin.set_bit. cbn [snd].
  rewrite get_set_reg, decide_True by done.
  rewrite testbit_set_bit by apply Hvalid.
  by rewrite Z.eqb_refl, orb_true_r.
Qed.

Lemma encoder_begin_drives_pin_high_witness :
  pin_level (DigitalPin.mkPin "B"%char 0)
    (io (snd (SC41344_Encoder.begin (DigitalPin.mkPin "B"%char 0)
                (mkBoard (DigitalPin.mkPorts 0 0 0 0 0 0 0 0 0) [])))) = true.
Proof.
  apply (encoder_begin_drives_pin_high (DigitalPin.mkPin "B"%char 0)
           (mkBoard (DigitalPin.mkPorts 0 0 0 0 0 0 0 0 0) [])).
  split; [by eexists | cbn; lia].
Defined.

(** ** [transmitFrame] and the transmit state *)

Lemma count_occ_strobe_wire_other (c c' : CC1101.Strobes.Command) (f : FakeBus) :
  count_occ Z.eq_dec (strobe_wire (CC1101.Strobes.code c') f) (CC1101.Strobes.code c)
  = if CC1101.Strobes.code c' =? CC1101.Strobes.code c then 1%nat else 0%nat.
Proof.
  unfold strobe_wire.
  destruct (isValid (read_result f CC1101.Address.PARTNUM)); by destruct c, c'.
Qed.

Lemma clocked_strobe (c c' : CC1101.Strobes.Command) (f : FakeBus) :
  let r := Transceiver.strobeCommand c' f in
  fst r = (u8 (stored f CC1101.Address.PARTNUM) =? 0) /\
  same_chip (snd r) f /\
  clocked c (snd r)
  = (clocked c f
     + if (CC1101.Strobes.code c' =? CC1101.Strobes.code c)%Z
       then (if (u8 (stored f CC1101.Address.PARTNUM) =? 0)%Z then 1 else 3)
       else 0)%nat.
Proof.
  cbn zeta. rewrite strobeCommand_fake_exact. cbn [fst snd]. unfold clocked.
  cbn [wire]. split; [done|]. split; [by repeat split|].
  rewrite count_occ_app. f_equal.
  pose proof (count_occ_strobe_wire_other c c' f) as Hone.
  destruct (u8 (stored f CC1101.Address.PARTNUM) =? 0);
    cbn [replicate concat]; rewrite ?count_occ_app, ?Hone;
    destruct (CC1101.Strobes.code c' =? CC1101.Strobes.code c); cbn; lia.
Qed.

Lemma clocked_read (c : CC1101.Strobes.Command) (a : Z) (f : FakeBus) :
  a = CC1101.Address.PARTNUM \/ a = CC1101.Address.MARCSTATE ->
  let r := SPIBus.readRegister a f in
  value (fst r) = u8 (stored f a) /\
  same_chip (snd r) f /\
  clocked c (snd r) = clocked c f.
Proof.
  intros Ha. cbn zeta.
  rewrite readRegister_fake_exact
    by (destruct Ha as [-> | ->];
        unfold CC1101.Address.PARTNUM, CC1101.Address.MARCSTATE; lia).
  cbn [fst snd]. unfold clocked. cbn [wire]. split; [done|].
  split; [by repeat split|].
  rewrite count_occ_app.
  assert (Hnone : count_occ Z.eq_dec
            (concat (replicate (if isValid (read_result f a) then 1%nat else 3%nat)
                       [Z.lor a bitFlags.ReadSingle; bitFlags.DummyByte]))
            (CC1101.Strobes.code c) = 0%nat).
  { destruct (isValid (read_result f a)); destruct Ha as [-> | ->]; by destruct c. }
  rewrite Hnone. lia.
Qed.

Lemma same_chip_stored (f g : FakeBus) (a : Z) : same_chip g f -> stored g a = stored f a.
Proof. intros (Hr & _ & _). unfold stored. by rewrite Hr. Qed.

Lemma same_chip_chain (f g h : FakeBus) : same_chip h g -> same_chip g f -> same_chip h f.
Proof. intros (?&?&?) (?&?&?). repeat split; congruence. Qed.

(** A retry loop whose attempts all give the same verdict [ok]: one pass
    when it is positive, three otherwise. *)
Lemma static_loop3 {St} (attempt : M (bool * St) bool) (ok : bool)
    (Q : St -> Prop) (P : St -> St -> Prop) :
  (forall success b, Q b ->
     exists b', attempt (success, b) = (negb ok, (if ok then true else success, b'))
                /\ Q b' /\ P b b') ->
  forall b, Q b ->
    exists b1 b2 b3,
      P b b1 /\ P b1 b2 /\ P b2 b3 /\ Q b1 /\ Q b3 /\
      snd (avr_algorithms.repeat_withExitCondition 3 attempt (false, b))
      = (if ok then (true, b1) else (false, b3)).
Proof.
  intros Hstep b Hb. unfold avr_algorithms.repeat_withExitCondition.
  change (Z.to_nat 3) with 3%nat. cbn [avr_algorithms.repeat_loop]. unfold bind.
  destruct (Hstep false b Hb) as (b1 & E1 & Q1 & P1).
  destruct (Hstep false b1 Q1) as (b2 & E2 & Q2 & P2).
  destruct (Hstep false b2 Q2) as (b3 & E3 & Q3 & P3).
  exists b1, b2, b3. rewrite E1.
  destruct ok; cbn [negb ret snd] in *; [done|].
  rewrite E2. cbn [negb]. rewrite E3. by cbn.
Qed.

Section TransmitOnFake.
Variable f : FakeBus.

Let id_ok : bool := u8 (stored f CC1101.Address.PARTNUM) =? 0.
Let marcstate : Z := u8 (stored f CC1101.Address.MARCSTATE).

Lemma enterIdle_attempt_fake (success : bool) (b : FakeBus) :
  same_chip b f ->
  exists b',
    Transceiver.enterIdle_attempt (success, b)
    = (negb id_ok, (if id_ok then true else success, b')) /\
    same_chip b' f /\
    clocked CC1101.Strobes.SIDLE b'
    = (clocked CC1101.Strobes.SIDLE b + (if id_ok then 1 else 3))%nat /\
    clocked CC1101.Strobes.STX b' = clocked CC1101.Strobes.STX b.
Proof.
  intros Hb. unfold Transceiver.enterIdle_attempt.
  destruct (clocked_strobe CC1101.Strobes.SIDLE CC1101.Strobes.SIDLE b)
    as (Hok & Hs & HcI).
  destruct (clocked_strobe CC1101.Strobes.STX CC1101.Strobes.SIDLE b)
    as (_ & _ & HcT).
  destruct (Transceiver.strobeCommand CC1101.Strobes.SIDLE b) as [ok b1].
  cbn [fst snd] in *. rewrite (same_chip_stored f b _ Hb) in Hok, HcI.
  fold id_ok in Hok, HcI. subst ok. exists b1.
  change (CC1101.Strobes.code CC1101.Strobes.SIDLE =? CC1101.Strobes.code CC1101.Strobes.SIDLE)
    with true in HcI.
  change (CC1101.Strobes.code CC1101.Strobes.SIDLE =? CC1101.Strobes.code CC1101.Strobes.STX)
    with false in HcT.
  cbv iota in HcI, HcT.
  split; [by destruct id_ok|]. split; [exact (same_chip_chain _ _ _ Hs Hb)|].
  split; [exact HcI | lia].
Qed.

Lemma enterTx_attempt_fake (success : bool) (b : FakeBus) :
  same_chip b f ->
  exists b',
    Transceiver.enterTx_attempt (success, b)
    = (negb (id_ok && (marcstate =? 0x13)),
       (if id_ok && (marcstate =? 0x13) then true else success, b')) /\
    same_chip b' f /\
    clocked CC1101.Strobes.STX b'
    = (clocked CC1101.Strobes.STX b + (if id_ok then 1 else 3))%nat /\
    clocked CC1101.Strobes.SIDLE b' = clocked CC1101.Strobes.SIDLE b.
Proof.
  intros Hb. unfold Transceiver.enterTx_attempt.
  destruct (clocked_strobe CC1101.Strobes.STX CC1101.Strobes.STX b)
    as (Hok & Hs & HcT).
  destruct (clocked_strobe CC1101.Strobes.SIDLE CC1101.Strobes.STX b)
    as (_ & _ & HcI).
  destruct (Transceiver.strobeCommand CC1101.Strobes.STX b) as [ok b1].
  cbn [fst snd] in *. rewrite (same_chip_stored f b _ Hb) in Hok, HcT.
  fold id_ok in Hok, HcT. subst ok.
  change (CC1101.Strobes.code CC1101.Strobes.STX =? CC1101.Strobes.code CC1101.Strobes.STX)
    with true in HcT.
  change (CC1101.Strobes.code CC1101.Strobes.STX =? CC1101.Strobes.code CC1101.Strobes.SIDLE)
    with false in HcI.
  cbv iota in HcI, HcT.
  pose proof (same_chip_chain _ _ _ Hs Hb) as Hb1.
  destruct id_ok; cbn [negb andb].
  2:{ exists b1. split; [done|]. split; [done|]. split; [exact HcT | lia]. }
  unfold Transceiver.readRegister.
  destruct (clocked_read CC1101.Strobes.STX CC1101.Address.MARCSTATE b1 (or_intror eq_refl))
    as (Hv & Hs2 & HrT).
  destruct (clocked_read CC1101.Strobes.SIDLE CC1101.Address.MARCSTATE b1 (or_intror eq_refl))
    as (_ & _ & HrI).
  destruct (SPIBus.readRegister CC1101.Address.MARCSTATE b1) as [r b2].
  cbn [fst snd] in *. rewrite (same_chip_stored f b1 _ Hb1) in Hv.
  rewrite Hv. fold marcstate. exists b2.
  split; [by destruct (marcstate =? 19)|].
  split; [exact (same_chip_chain _ _ _ Hs2 Hb1)|]. lia.
Qed.

Lemma enableTransmitMode_fake :
  let tx := Transceiver.enableTransmitMode f in
  fst tx = id_ok && (marcstate =? 0x13) /\
  same_chip (snd tx) f /\
  clocked CC1101.Strobes.SIDLE (snd tx)
  = (clocked CC1101.Strobes.SIDLE f
     + (if (marcstate =? 0x01)%Z then 0 else if id_ok then 1 else 9))%nat /\
  clocked CC1101.Strobes.STX (snd tx)
  = (clocked CC1101.Strobes.STX f
     + (if id_ok then (if (marcstate =? 0x13)%Z then 1 else 3)
        else if (marcstate =? 0x01)%Z then 9 else 0))%nat.
Proof.
  cbn zeta. unfold Transceiver.enableTransmitMode, Transceiver.readRegister.
  destruct (clocked_read CC1101.Strobes.STX CC1101.Address.MARCSTATE f (or_intror eq_refl))
    as (Hv & Hs1 & HrT).
  destruct (clocked_read CC1101.Strobes.SIDLE CC1101.Address.MARCSTATE f (or_intror eq_refl))
    as (_ & _ & HrI).
  destruct (SPIBus.readRegister CC1101.Address.MARCSTATE f) as [r s1].
  cbn [fst snd] in *. rewrite Hv. fold marcstate.
  pose proof (static_loop3 Transceiver.enterIdle_attempt id_ok
                (fun b => same_chip b f)
                (fun b b' => clocked CC1101.Strobes.SIDLE b'
                             = (clocked CC1101.Strobes.SIDLE b
                                + (if id_ok then 1 else 3))%nat /\
                             clocked CC1101.Strobes.STX b'
                             = clocked CC1101.Strobes.STX b)
                enterIdle_attempt_fake) as Hidle.
  pose proof (static_loop3 Transceiver.enterTx_attempt (id_ok && (marcstate =? 0x13))
                (fun b => same_chip b f)
                (fun b b' => clocked CC1101.Strobes.STX b'
                             = (clocked CC1101.Strobes.STX b
                                + (if id_ok then 1 else 3))%nat /\
                             clocked CC1101.Strobes.SIDLE b'
                             = clocked CC1101.Strobes.SIDLE b)
                enterTx_attempt_fake) as Htx.
  destruct (marcstate =? 1) eqn:Hm1; cbn [negb].
  - destruct (Htx s1 Hs1) as (b1 & b2 & b3 & P1 & P2 & P3 & Q1 & Q3 & ->).
    destruct id_ok, (marcstate =? 19); cbn [andb fst snd];
      (split; [done|]); (split; [first [exact Q1 | exact Q3]|]); lia.
  - destruct (Hidle s1 Hs1) as (i1 & i2 & i3 & I1 & I2 & I3 & QI1 & QI3 & ->).
    destruct id_ok eqn:Hid; cbn [negb andb fst snd].
    + destruct (Htx i1 QI1) as (b1 & b2 & b3 & P1 & P2 & P3 & Q1 & Q3 & ->).
      destruct (marcstate =? 19); cbn [andb fst snd];
        (split; [done|]); (split; [first [exact Q1 | exact Q3]|]); lia.
    + split; [done|]. split; [exact QI3|]. lia.
Qed.

End TransmitOnFake.

(** C3.  What [transmitFrame] does against the fake chip, for every chip
    state, frame and encoder.  [enableTransmitMode] works as claimed: when
    MARCSTATE does not read 0x01 it issues the idle command until
    [strobeCommand] reports success, at most three times, and gives up
    without a TX command when none does; then it issues the TX command
    and reads MARCSTATE, until the strobe succeeded and MARCSTATE read
    0x13, at most three times.  ([strobeCommand] itself sends the command
    byte once when PARTNUM reads zero and three times otherwise, hence the
    9 = 3 * 3 bytes of three failed attempts.)  Its verdict, TX state
    confirmed, stays local: [enableTransmitMode] is [void] and the check
    in [transmitFrame] is commented out.  So the encoder is always handed
    the whole frame, the idle command follows, and the result is whether
    that idle strobe succeeded.  In particular, on a chip that answers
    PARTNUM with zero but never reports the TX state, the frame is
    streamed after three failed TX attempts and the call answers
    [true]. *)
Theorem transmitFrame_streams_without_TX_verification {E : Type} `{IBitEncoder E}
    (bits : list Z) (f : FakeBus) (e : E) :
  let id_ok := u8 (stored f CC1101.Address.PARTNUM) =? 0 in
  let marcstate := u8 (stored f CC1101.Address.MARCSTATE) in
  let tx := Transceiver.enableTransmitMode f in
  let r := Transceiver.transmitFrame bits (f, e) in
  clocked CC1101.Strobes.SIDLE (snd tx)
  = (clocked CC1101.Strobes.SIDLE f
     + (if (marcstate =? 0x01)%Z then 0 else if id_ok then 1 else 9))%nat /\
  clocked CC1101.Strobes.STX (snd tx)
  = (clocked CC1101.Strobes.STX f
     + (if id_ok then (if (marcstate =? 0x13)%Z then 1 else 3)
        else if (marcstate =? 0x01)%Z then 9 else 0))%nat /\
  fst tx = id_ok && (marcstate =? 0x13) /\
  snd (snd r) = snd (SC41344_FrameStreamer.streamFrame bits e) /\
  clocked CC1101.Strobes.SIDLE (fst (snd r))
  = (clocked CC1101.Strobes.SIDLE (snd tx) + (if id_ok then 1 else 3))%nat /\
  clocked CC1101.Strobes.STX (fst (snd r)) = clocked CC1101.Strobes.STX (snd tx) /\
  fst r = id_ok /\
  (id_ok = true -> marcstate <> 0x13 ->
   fst tx = false /\
   clocked CC1101.Strobes.STX (snd tx) = (clocked CC1101.Strobes.STX f + 3)%nat /\
   snd (snd r) = snd (SC41344_FrameStreamer.streamFrame bits e) /\
   fst r = true).
Proof.
  cbn zeta.
  destruct (enableTransmitMode_fake f) as (Hflag & Hsame & HI & HT).
  unfold Transceiver.transmitFrame.
  destruct (Transceiver.enableTransmitMode f) as [flag b1]. cbn [fst snd] in *.
  destruct (SC41344_FrameStreamer.streamFrame bits e) as [[] e1]. cbn [snd].
  destruct (clocked_strobe CC1101.Strobes.SIDLE CC1101.Strobes.SIDLE b1)
    as (Hok & _ & HcI).
  destruct (clocked_strobe CC1101.Strobes.STX CC1101.Strobes.SIDLE b1)
    as (_ & _ & HcT).
  destruct (Transceiver.strobeCommand CC1101.Strobes.SIDLE b1) as [ok b2].
  cbn [fst snd] in *. rewrite (same_chip_stored f b1 _ Hsame) in Hok, HcI.
  change (CC1101.Strobes.code CC1101.Strobes.SIDLE =? CC1101.Strobes.code CC1101.Strobes.SIDLE)
    with true in HcI.
  change (CC1101.Strobes.code CC1101.Strobes.SIDLE =? CC1101.Strobes.code CC1101.Strobes.STX)
    with false in HcT.
  cbv iota in HcI, HcT.
  assert (Hres : fst (if negb ok then (false, (b2, e1)) else (true, (b2, e1))) = ok
                 /\ snd (if negb ok then (false, (b2, e1)) else (true, (b2, e1)))
                    = (b2, e1)) by (by destruct ok).
  destruct Hres as [Hr1 Hr2]. rewrite Hr1, Hr2. cbn [fst snd].
  split; [exact HI|]. split; [exact HT|]. split; [exact Hflag|].
  split; [done|]. split; [exact HcI|]. split; [lia|]. split; [exact Hok|].
  intros Hid Hm. rewrite Hid in *.
  destruct (Z.eqb_spec (u8 (stored f CC1101.Address.MARCSTATE)) 19) as [Heq|_];
    [contradiction|].
  rewrite Hflag, HT. by repeat split.
Qed.

Lemma transmitFrame_streams_without_TX_verification_witness :
  let bits := [0; 1; 0; 1; 0; 1; 0; 1] in
  let f := mkFake {[ CC1101.Address.MARCSTATE := 0x01 ]} 0x0F Deselected [] [] in
  fst (Transceiver.enableTransmitMode f) = false /\
  clocked CC1101.Strobes.STX (snd (Transceiver.enableTransmitMode f))
  = (clocked CC1101.Strobes.STX f + 3)%nat /\
  snd (snd (Transceiver.transmitFrame bits (f, ([] : list Symbol))))
  = snd (SC41344_FrameStreamer.streamFrame bits []) /\
  fst (Transceiver.transmitFrame bits (f, ([] : list Symbol))) = true.
Proof.
  cbn zeta.
  apply (transmitFrame_streams_without_TX_verification
           [0; 1; 0; 1; 0; 1; 0; 1]
           (mkFake {[ CC1101.Address.MARCSTATE := 0x01 ]} 0x0F Deselected [] [])
           ([] : list Symbol)).
  - reflexivity.
  - vm_compute. discriminate.
Defined.
